(** * The filter pass and the selection actions of rofi's view (source/view.c)

    A shallow embedding of the filtering engine of [source/view.c]:
    [filter_elements], [rofi_view_refilter] with its partitioning of the
    candidate range and the merge of the per-chunk results, [lev_sort],
    and the action dispatcher [rofi_view_trigger_action] with the helpers
    [rofi_view_nav_row_tab] and [rofi_view_get_next_position]; then the
    functions around them: creation and mode switching, selection by
    candidate, the mouse callbacks, the key press handler, the stack of
    views, the reload timer, the screenshot file and the worker pool.

    C [unsigned int] values are integers of [Z] taken modulo 2^32 wherever
    the source computes with them; the arrays [line_map] and [distance]
    are lists indexed through [Z.to_nat]. *)

From Stdlib Require Import ZArith Lia List String Ascii Bool Permutation Sorted.
From Stdlib Require DecimalString.
From stdpp Require Import base list.
Import ListNotations.

Local Open Scope Z_scope.

(** ** Machine integers *)

Definition UINT32_MAX : Z := 4294967295.

(** Result of an [unsigned int] computation: reduction modulo 2^32. *)
Definition uint (x : Z) : Z := x mod 2 ^ 32.

(** Result of an [int] computation as stored by a two's complement machine. *)
Definition sint (x : Z) : Z := (x + 2 ^ 31) mod 2 ^ 32 - 2 ^ 31.

(** [a[i]]: reading outside the array is undefined in C; the model reads 0. *)
Definition at_ (a : list Z) (i : Z) : Z := default 0 (a !! Z.to_nat i).

(** [a[i]] for an [int] index [i]: a negative index is outside the array
    as well. *)
Definition at_int (a : list Z) (i : Z) : Z := if i <? 0 then 0 else at_ a i.

(** [a[i] = v]: writing outside the array is undefined in C; the model
    leaves the array as it is. *)
Definition upd (a : list Z) (i v : Z) : list Z := <[Z.to_nat i := v]> a.

(** ** Key binding actions (the cases of the switch in
    [rofi_view_trigger_action]) *)

Inductive KeyBindingAction : Type :=
  | PASTE_PRIMARY | PASTE_SECONDARY | SCREENSHOT | TOGGLE_SORT
  | MODE_PREVIOUS | MODE_NEXT | TOGGLE_CASE_SENSITIVITY | DELETE_ENTRY
  | SELECT_ELEMENT_1 | SELECT_ELEMENT_2 | SELECT_ELEMENT_3 | SELECT_ELEMENT_4
  | SELECT_ELEMENT_5 | SELECT_ELEMENT_6 | SELECT_ELEMENT_7 | SELECT_ELEMENT_8
  | SELECT_ELEMENT_9 | SELECT_ELEMENT_10
  | CUSTOM_1 | CUSTOM_2 | CUSTOM_3 | CUSTOM_4 | CUSTOM_5 | CUSTOM_6 | CUSTOM_7
  | CUSTOM_8 | CUSTOM_9 | CUSTOM_10 | CUSTOM_11 | CUSTOM_12 | CUSTOM_13
  | CUSTOM_14 | CUSTOM_15 | CUSTOM_16 | CUSTOM_17 | CUSTOM_18 | CUSTOM_19
  | CANCEL | ROW_UP | ROW_TAB | ROW_DOWN | ROW_LEFT | ROW_RIGHT
  | PAGE_PREV | PAGE_NEXT | ROW_FIRST | ROW_LAST | ROW_SELECT
  | MOVE_CHAR_BACK | MOVE_CHAR_FORWARD | CLEAR_LINE | MOVE_FRONT | MOVE_END
  | REMOVE_TO_EOL | REMOVE_TO_SOL | REMOVE_WORD_BACK | REMOVE_WORD_FORWARD
  | REMOVE_CHAR_FORWARD | MOVE_WORD_BACK | MOVE_WORD_FORWARD | REMOVE_CHAR_BACK
  | ACCEPT_ALT | ACCEPT_CUSTOM | ACCEPT_ENTRY | NUM_ABE.

(** [ROW_TAB == a] *)
Definition is_ROW_TAB (a : KeyBindingAction) : bool :=
  match a with ROW_TAB => true | _ => false end.

(** [action - SELECT_ELEMENT_1] for the ten quick-select actions. *)
Definition select_element_index (a : KeyBindingAction) : option Z :=
  match a with
  | SELECT_ELEMENT_1 => Some 0 | SELECT_ELEMENT_2 => Some 1
  | SELECT_ELEMENT_3 => Some 2 | SELECT_ELEMENT_4 => Some 3
  | SELECT_ELEMENT_5 => Some 4 | SELECT_ELEMENT_6 => Some 5
  | SELECT_ELEMENT_7 => Some 6 | SELECT_ELEMENT_8 => Some 7
  | SELECT_ELEMENT_9 => Some 8 | SELECT_ELEMENT_10 => Some 9
  | _ => None
  end.

(** [action - CUSTOM_1] for the nineteen custom actions. *)
Definition custom_index (a : KeyBindingAction) : option Z :=
  match a with
  | CUSTOM_1 => Some 0 | CUSTOM_2 => Some 1 | CUSTOM_3 => Some 2
  | CUSTOM_4 => Some 3 | CUSTOM_5 => Some 4 | CUSTOM_6 => Some 5
  | CUSTOM_7 => Some 6 | CUSTOM_8 => Some 7 | CUSTOM_9 => Some 8
  | CUSTOM_10 => Some 9 | CUSTOM_11 => Some 10 | CUSTOM_12 => Some 11
  | CUSTOM_13 => Some 12 | CUSTOM_14 => Some 13 | CUSTOM_15 => Some 14
  | CUSTOM_16 => Some 15 | CUSTOM_17 => Some 16 | CUSTOM_18 => Some 17
  | CUSTOM_19 => Some 18
  | _ => None
  end.

(** The text-editing actions that the switch hands to [textbox_keybinding]. *)
Definition is_textbox_action (a : KeyBindingAction) : bool :=
  match a with
  | MOVE_CHAR_BACK | MOVE_CHAR_FORWARD | CLEAR_LINE | MOVE_FRONT | MOVE_END
  | REMOVE_TO_EOL | REMOVE_TO_SOL | REMOVE_WORD_BACK | REMOVE_WORD_FORWARD
  | REMOVE_CHAR_FORWARD | MOVE_WORD_BACK | MOVE_WORD_FORWARD
  | REMOVE_CHAR_BACK => true
  | _ => false
  end.

(** ** Outcome of a view *)

(** Modelled from the spec: the dispositions of the outcome record; the
    bit values of [MenuReturn] are declared in rofi.h, which is not under
    src/. *)
Inductive Disposition : Type :=
  | MENU_OK | MENU_CANCEL | MENU_NEXT | MENU_CUSTOM_INPUT
  | MENU_ENTRY_DELETE | MENU_QUICK_SWITCH | MENU_PREVIOUS.

(** Modelled from the spec: the outcome record with its disposition and
    modifier flags; [retv |= MENU_CUSTOM_ACTION] sets [custom_action], and
    the bits under [MENU_LOWER_MASK] carry the number of a quick switch. *)
Record MenuReturn : Type := mkMenuReturn {
  disposition : Disposition;
  custom_action : bool;
  lower : Z
}.

(** [retv = d] for one of the dispositions, no flag set. *)
Definition plain (d : Disposition) : MenuReturn := mkMenuReturn d false 0.

(** [retv |= MENU_CUSTOM_ACTION] *)
Definition or_custom_action (r : MenuReturn) : MenuReturn :=
  mkMenuReturn (disposition r) true (lower r).

(** ** Configuration ([config] of settings.h, the fields view.c reads) *)

(** [config.matching_method] is only ever compared with [MM_FUZZY]. *)
Inductive MatchingMethod : Type := MM_FUZZY | MM_OTHER.

Definition is_MM_FUZZY (m : MatchingMethod) : bool :=
  match m with MM_FUZZY => true | MM_OTHER => false end.

Record Config : Type := mkConfig {
  case_sensitive : bool;
  sort : bool;
  levenshtein_sort : bool;
  matching_method : MatchingMethod;
  auto_select : bool
}.

Definition set_sort (c : Config) (b : bool) : Config :=
  mkConfig (case_sensitive c) b (levenshtein_sort c) (matching_method c)
           (auto_select c).

Definition set_case_sensitive (c : Config) (b : bool) : Config :=
  mkConfig b (sort c) (levenshtein_sort c) (matching_method c) (auto_select c).

(** ** External collaborators

    The tokenizer, the scorers, the text box and the candidate provider
    live in other files (helper.c, textbox.c, mode.c).  The view only calls
    them; they are the operations of this interface. *)

Class Helper : Type := {
  Tokens : Type;
  tokenize : option string -> bool -> option Tokens;
  g_utf8_strlen : string -> Z;
  levenshtein : option string -> Z -> string -> Z -> Z;
  rofi_scorer_fuzzy_evaluate : option string -> Z -> string -> Z -> Z;
  textbox : Type;
  textbox_get_text : textbox -> string;
  textbox_text : textbox -> string -> textbox;
  textbox_keybinding : textbox -> KeyBindingAction -> textbox * Z;
  MENU_LOWER_MASK : Z
}.

(** The candidate provider behind [state->sw]. *)
Record Mode `{Helper} : Type := mkMode {
  mode_get_num_entries : Z;
  mode_preprocess_input : string -> option string;
  mode_token_match : option Tokens -> Z -> bool;
  mode_get_completion : Z -> string
}.

(** ** The list view *)

(** Modelled from the spec: the list view widget (widgets/listview.c) is
    not under src/.  The spec's selection cursor is an index into the
    filtered mapping; [lv_selected] is the cursor, [lv_req_elements] the
    number of rows it ranges over, [lv_page] the rows one page move skips. *)
Record listview : Type := mkListview {
  lv_selected : Z;
  lv_req_elements : Z;
  lv_max_lines : Z;
  lv_page : Z
}.

Definition lv_with_selected (lv : listview) (s : Z) : listview :=
  mkListview s (lv_req_elements lv) (lv_max_lines lv) (lv_page lv).

(** Modelled from the spec: [listview_get_selected] (listview.c, not under
    src/) returns the cursor. *)
Definition listview_get_selected (lv : listview) : Z := lv_selected lv.

(** Modelled from the spec: [listview_set_selected] (listview.c, not under
    src/); first and last clamp to [0] and [filtered_count - 1], and there
    is no move on an empty result set. *)
Definition listview_set_selected (lv : listview) (selected : Z) : listview :=
  if 0 <? lv_req_elements lv
  then lv_with_selected lv (Z.min selected (lv_req_elements lv - 1))
  else lv.

(** Modelled from the spec: [listview_set_num_elements] (listview.c, not
    under src/); the cursor stays in [[0, filtered_count)] after a pass. *)
Definition listview_set_num_elements (lv : listview) (rows : Z) : listview :=
  listview_set_selected
    (mkListview (lv_selected lv) rows (lv_max_lines lv) (lv_page lv))
    (lv_selected lv).

(** Modelled from the spec: [listview_set_max_lines] (listview.c, not under
    src/) records the total number of candidates for the layout. *)
Definition listview_set_max_lines (lv : listview) (lines : Z) : listview :=
  mkListview (lv_selected lv) (lv_req_elements lv) lines (lv_page lv).

(** Modelled from the spec: the moves of listview.c (not under src/) apply
    a delta to the cursor and clamp it to the valid range, never wrap, and
    do nothing on an empty result set. *)
Definition listview_nav (lv : listview) (delta : Z) : listview :=
  if lv_req_elements lv <=? 0 then lv
  else lv_with_selected lv
         (Z.max 0 (Z.min (lv_selected lv + delta) (lv_req_elements lv - 1))).

(** Modelled from the spec: [listview_nav_up], a move by one row up. *)
Definition listview_nav_up (lv : listview) : listview := listview_nav lv (-1).

(** Modelled from the spec: [listview_nav_down], a move by one row down. *)
Definition listview_nav_down (lv : listview) : listview := listview_nav lv 1.

(** Modelled from the spec: [listview_nav_left], a move by one page back. *)
Definition listview_nav_left (lv : listview) : listview :=
  listview_nav lv (- lv_page lv).

(** Modelled from the spec: [listview_nav_right], a move by one page on. *)
Definition listview_nav_right (lv : listview) : listview :=
  listview_nav lv (lv_page lv).

(** Modelled from the spec: [listview_nav_page_prev], a move by one page
    back. *)
Definition listview_nav_page_prev (lv : listview) : listview :=
  listview_nav lv (- lv_page lv).

(** Modelled from the spec: [listview_nav_page_next], a move by one page
    on. *)
Definition listview_nav_page_next (lv : listview) : listview :=
  listview_nav lv (lv_page lv).

(** ** The view state ([RofiViewState], the fields the engine uses) *)

Record RofiViewState `{Helper} : Type := mkState {
  sw : Mode;
  text : textbox;
  tokens : option Tokens;
  num_lines : Z;
  filtered_lines : Z;
  line_map : list Z;
  distance : list Z;
  selected_line : Z;
  retv : MenuReturn;
  quit : bool;
  refilter : bool;
  reload : bool;
  prev_action : KeyBindingAction;
  list_view : listview
}.

Arguments mkState {_} _ _ _ _ _ _ _ _ _ _ _ _ _ _.
Arguments mkMode {_} _ _ _ _.

Section Setters.
Context `{Helper}.
Implicit Type st : RofiViewState.

Definition set_text st v :=
  mkState (sw st) v (tokens st) (num_lines st) (filtered_lines st)
    (line_map st) (distance st) (selected_line st) (retv st) (quit st)
    (refilter st) (reload st) (prev_action st) (list_view st).
Definition set_tokens st v :=
  mkState (sw st) (text st) v (num_lines st) (filtered_lines st)
    (line_map st) (distance st) (selected_line st) (retv st) (quit st)
    (refilter st) (reload st) (prev_action st) (list_view st).
Definition set_num_lines st v :=
  mkState (sw st) (text st) (tokens st) v (filtered_lines st)
    (line_map st) (distance st) (selected_line st) (retv st) (quit st)
    (refilter st) (reload st) (prev_action st) (list_view st).
Definition set_filtered_lines st v :=
  mkState (sw st) (text st) (tokens st) (num_lines st) v
    (line_map st) (distance st) (selected_line st) (retv st) (quit st)
    (refilter st) (reload st) (prev_action st) (list_view st).
Definition set_line_map st v :=
  mkState (sw st) (text st) (tokens st) (num_lines st) (filtered_lines st)
    v (distance st) (selected_line st) (retv st) (quit st)
    (refilter st) (reload st) (prev_action st) (list_view st).
Definition set_distance st v :=
  mkState (sw st) (text st) (tokens st) (num_lines st) (filtered_lines st)
    (line_map st) v (selected_line st) (retv st) (quit st)
    (refilter st) (reload st) (prev_action st) (list_view st).
Definition set_selected_line st v :=
  mkState (sw st) (text st) (tokens st) (num_lines st) (filtered_lines st)
    (line_map st) (distance st) v (retv st) (quit st)
    (refilter st) (reload st) (prev_action st) (list_view st).
Definition set_retv st v :=
  mkState (sw st) (text st) (tokens st) (num_lines st) (filtered_lines st)
    (line_map st) (distance st) (selected_line st) v (quit st)
    (refilter st) (reload st) (prev_action st) (list_view st).
Definition set_quit st v :=
  mkState (sw st) (text st) (tokens st) (num_lines st) (filtered_lines st)
    (line_map st) (distance st) (selected_line st) (retv st) v
    (refilter st) (reload st) (prev_action st) (list_view st).
Definition set_refilter st v :=
  mkState (sw st) (text st) (tokens st) (num_lines st) (filtered_lines st)
    (line_map st) (distance st) (selected_line st) (retv st) (quit st)
    v (reload st) (prev_action st) (list_view st).
Definition set_reload st v :=
  mkState (sw st) (text st) (tokens st) (num_lines st) (filtered_lines st)
    (line_map st) (distance st) (selected_line st) (retv st) (quit st)
    (refilter st) v (prev_action st) (list_view st).
Definition set_prev_action st v :=
  mkState (sw st) (text st) (tokens st) (num_lines st) (filtered_lines st)
    (line_map st) (distance st) (selected_line st) (retv st) (quit st)
    (refilter st) (reload st) v (list_view st).
Definition set_list_view st v :=
  mkState (sw st) (text st) (tokens st) (num_lines st) (filtered_lines st)
    (line_map st) (distance st) (selected_line st) (retv st) (quit st)
    (refilter st) (reload st) (prev_action st) v.
End Setters.

(** ** The filter pass *)

(** [thread_state]: the work descriptor of one chunk.  The fields [state],
    [cond], [mutex], [acount] and [callback] only carry the shared view and
    the completion barrier; the shared view is passed explicitly. *)
Record thread_state : Type := mkThread {
  start : Z;
  stop : Z;
  count : Z;
  pattern : option string;
  plen : Z
}.

Definition set_count (t : thread_state) (c : Z) : thread_state :=
  mkThread (start t) (stop t) c (pattern t) (plen t).

(** The values [i] takes in [for ( i = t->start; i < t->stop; i++ )]. *)
Definition chunk_indices (t : thread_state) : list Z :=
  seqZ (start t) (stop t - start t).

Section Filter.
Context `{Helper}.
Implicit Type st : RofiViewState.

(** The value [filter_elements] stores in [distance[i]] for a matching
    candidate [i]. *)
Definition score (cfg : Config) st (t : thread_state) (i : Z) : Z :=
  let str := mode_get_completion (sw st) i in
  let slen := g_utf8_strlen str in
  if levenshtein_sort cfg || negb (is_MM_FUZZY (matching_method cfg))
  then sint (levenshtein (pattern t) (plen t) str slen)
  else sint (rofi_scorer_fuzzy_evaluate (pattern t) (plen t) str slen).

(** One iteration of the loop of [filter_elements]. *)
Definition filter_step (cfg : Config) (acc : thread_state * RofiViewState)
    (i : Z) : thread_state * RofiViewState :=
  let t := fst acc in
  let st := snd acc in
  if mode_token_match (sw st) (tokens st) i then
    let st1 := set_line_map st (upd (line_map st) (uint (start t + count t)) i) in
    let st2 := if sort cfg
               then set_distance st1 (upd (distance st1) i (score cfg st1 t i))
               else st1 in
    (set_count t (uint (count t + 1)), st2)
  else (t, st).

(** [filter_elements]: [for ( i = t->start; i < t->stop; i++ )]. *)
Definition filter_elements (cfg : Config) (t : thread_state) st
    : thread_state * RofiViewState :=
  fold_left (filter_step cfg) (chunk_indices t) (t, st).

(** The tasks of a pass: the first runs on the calling thread, the others
    on the pool, and the caller waits for all of them.  They write disjoint
    slots of the shared arrays; the model runs them one after the other, in
    chunk order, and any other order leaves the same arrays (theorem
    [run_states_any_order]). *)
Fixpoint run_states (cfg : Config) (states : list thread_state) st
    : list thread_state * RofiViewState :=
  match states with
  | [] => ([], st)
  | t :: rest =>
      let r := filter_elements cfg t st in
      let rs := run_states cfg rest (snd r) in
      (fst r :: fst rs, snd rs)
  end.

(** [unsigned int nt = MAX ( 1, state->num_lines / 500 )] *)
Definition nt_of (n : Z) : Z := Z.max 1 (n / 500).

(** [unsigned int steps = ( state->num_lines + nt ) / nt] *)
Definition steps_of (n : Z) : Z := uint (n + nt_of n) / nt_of n.

(** [states[i].start = i * steps] *)
Definition chunk_start (n i : Z) : Z := uint (i * steps_of n).

(** [states[i].stop = MIN ( state->num_lines, ( i + 1 ) * steps )] *)
Definition chunk_stop (n i : Z) : Z := Z.min n (uint ((i + 1) * steps_of n)).

(** The array [states] as the first loop of [rofi_view_refilter] fills it. *)
Definition make_states (n : Z) (pat : option string) (pl : Z)
    : list thread_state :=
  map (fun i => mkThread (chunk_start n i) (chunk_stop n i) 0 pat pl)
      (seqZ 0 (nt_of n)).

(** [memmove ( &a[dst], &a[src], sizeof ( unsigned int ) * n )] *)
Definition memmove (a : list Z) (dst src n : Z) : list Z :=
  list_inserts (Z.to_nat dst) (take (Z.to_nat n) (drop (Z.to_nat src) a)) a.

(** One iteration of the loop that closes the gaps between the chunks. *)
Definition merge_step (acc : Z * list Z) (t : thread_state) : Z * list Z :=
  let j := fst acc in
  let lm := snd acc in
  (uint (j + count t),
   if j =? start t then lm else memmove lm j (start t) (count t)).

(** [lev_sort]: [distances[*a] - distances[*b]], an [int].  The function
    reads the two entries of the mapping through [const int *], so an
    entry of 2^31 or more is a negative index. *)
Definition lev_sort (distances : list Z) (a b : Z) : Z :=
  sint (at_int distances (sint a) - at_int distances (sint b)).

(** Insertion of [x] in front of the first element that does not compare
    below it. *)
Fixpoint sort_insert (cmp : Z -> Z -> Z) (x : Z) (l : list Z) : list Z :=
  match l with
  | [] => [x]
  | y :: l' => if cmp x y <=? 0 then x :: l else y :: sort_insert cmp x l'
  end.

(** [g_qsort_with_data] is GLib's; GLib documents it as a stable sort.  It
    sorts the first [total_elems] slots of [pbase] and is modelled by a
    stable insertion sort driven by the comparison function.  The count
    [total_elems] is a [gint]; a negative count is outside GLib's contract,
    and the model sorts nothing then. *)
Definition g_qsort_with_data (pbase : list Z) (total_elems : Z)
    (cmp : Z -> Z -> Z) : list Z :=
  fold_right (sort_insert cmp) [] (take (Z.to_nat total_elems) pbase)
  ++ drop (Z.to_nat total_elems) pbase.

(** [_rofi_view_reload_row] *)
Definition _rofi_view_reload_row st : RofiViewState :=
  let n := uint (mode_get_num_entries (sw st)) in
  let st := set_num_lines st n in
  let st := set_line_map st (replicate (Z.to_nat n) 0) in
  let st := set_distance st (replicate (Z.to_nat n) 0) in
  set_list_view st (listview_set_max_lines (list_view st) n).

(** The branch of [rofi_view_refilter] for a non-empty input.  The
    unsigned count [j] is passed to [g_qsort_with_data] as a [gint]. *)
Definition refilter_tokens (cfg : Config) st : RofiViewState :=
  let pat := mode_preprocess_input (sw st) (textbox_get_text (text st)) in
  let pl := match pat with Some p => g_utf8_strlen p | None => 0 end in
  let st := set_tokens st (tokenize pat (case_sensitive cfg)) in
  let r := run_states cfg (make_states (num_lines st) pat pl) st in
  let st := snd r in
  let m := fold_left merge_step (fst r) (0, line_map st) in
  let j := fst m in
  let lm := if sort cfg
            then g_qsort_with_data (snd m) (sint j) (lev_sort (distance st))
            else snd m in
  set_filtered_lines (set_line_map st lm) j.

(** The branch of [rofi_view_refilter] for an empty input. *)
Definition refilter_all st : RofiViewState :=
  let lm := fold_left (fun a i => upd a i i) (seqZ 0 (num_lines st))
                      (line_map st) in
  set_filtered_lines (set_line_map st lm) (num_lines st).

(** [strlen ( state->text->text ) > 0] *)
Definition has_input st : bool :=
  0 <? Z.of_nat (String.length (textbox_get_text (text st))).

(** The state on which the filter proper runs: after the reload, if one
    was requested, and after the old tokens are freed. *)
Definition refilter_prepare st : RofiViewState :=
  let st := if reload st then set_reload (_rofi_view_reload_row st) false
            else st in
  set_tokens st None.

(** [config.auto_select == TRUE && filtered_lines == 1 && num_lines > 1] *)
Definition auto_select_fires (cfg : Config) st : bool :=
  auto_select cfg && (filtered_lines st =? 1) && (1 <? num_lines st).

(** [rofi_view_refilter]; the resize of the window at its end is not part
    of the model. *)
Definition rofi_view_refilter (cfg : Config) st : RofiViewState :=
  let st := refilter_prepare st in
  let st := if has_input st then refilter_tokens cfg st else refilter_all st in
  let st := set_list_view st
              (listview_set_num_elements (list_view st) (filtered_lines st)) in
  let st := if auto_select_fires cfg st
            then set_quit
                   (set_retv
                      (set_selected_line st
                         (at_ (line_map st)
                              (listview_get_selected (list_view st))))
                      (plain MENU_OK))
                   true
            else st in
  set_refilter st false.

(** [rofi_view_create] up to its call of [rofi_view_refilter]: the state
    comes from [g_malloc0], so every field that is not set is 0, and the two
    arrays come from [g_malloc0_n].  The entry box [tb], the list view [lv]
    as [listview_create] and the theme leave it, and [prev0], the
    enumerator 0 of [KeyBindingAction], are given. *)
Definition view_before_first_pass (sw0 : Mode) (tb : textbox) (lv : listview)
    (prev0 : KeyBindingAction) : RofiViewState :=
  let n := uint (mode_get_num_entries sw0) in
  mkState sw0 tb None n 0 (replicate (Z.to_nat n) 0) (replicate (Z.to_nat n) 0)
    UINT32_MAX (plain MENU_CANCEL) false true false prev0
    (listview_set_max_lines lv n).

(** [rofi_view_create] *)
Definition rofi_view_create (cfg : Config) (sw0 : Mode) (tb : textbox)
    (lv : listview) (prev0 : KeyBindingAction) : RofiViewState :=
  rofi_view_refilter cfg (view_before_first_pass sw0 tb lv prev0).

(** ** Actions *)

(** [rofi_view_nav_row_tab] *)
Definition rofi_view_nav_row_tab st : RofiViewState :=
  if filtered_lines st =? 1 then
    set_quit
      (set_selected_line (set_retv st (plain MENU_OK))
         (at_ (line_map st) (listview_get_selected (list_view st))))
      true
  else
    let st :=
      if (filtered_lines st =? 0) && is_ROW_TAB (prev_action st) then
        set_quit (set_selected_line (set_retv st (plain MENU_NEXT)) 0) true
      else set_list_view st (listview_nav_down (list_view st)) in
    set_prev_action st ROW_TAB.

(** [rofi_view_nav_row_select]; the list view of a created view is never
    [NULL]. *)
Definition rofi_view_nav_row_select st : RofiViewState :=
  let selected := listview_get_selected (list_view st) in
  if selected <? filtered_lines st then
    let str := mode_get_completion (sw st) (at_ (line_map st) selected) in
    let tb := fst (textbox_keybinding (textbox_text (text st) str) MOVE_END) in
    set_refilter (set_text st tb) true
  else st.

(** [rofi_view_nav_first] *)
Definition rofi_view_nav_first st : RofiViewState :=
  set_list_view st (listview_set_selected (list_view st) 0).

(** [rofi_view_nav_last]: [listview_set_selected ( lv, -1 )] passes the
    largest [unsigned int]. *)
Definition rofi_view_nav_last st : RofiViewState :=
  if filtered_lines st =? 0 then st
  else set_list_view st (listview_set_selected (list_view st) UINT32_MAX).

(** The cases [ACCEPT_ENTRY] and [ACCEPT_ALT] share their selection code. *)
Definition accept_selected st : RofiViewState :=
  let selected := listview_get_selected (list_view st) in
  let st := set_selected_line st UINT32_MAX in
  if selected <? filtered_lines st
  then set_retv (set_selected_line st (at_ (line_map st) selected))
                (plain MENU_OK)
  else set_retv st (plain MENU_CUSTOM_INPUT).

(** [rofi_view_trigger_action]: the returned flag, the configuration (two
    actions toggle it) and the view. *)
Definition rofi_view_trigger_action (cfg : Config) st
    (action : KeyBindingAction) : bool * Config * RofiViewState :=
  match action with
  | PASTE_PRIMARY | PASTE_SECONDARY | SCREENSHOT => (true, cfg, st)
  | TOGGLE_SORT =>
      (true, set_sort cfg (negb (sort cfg)), set_refilter st true)
  | MODE_PREVIOUS =>
      (true, cfg,
       set_quit (set_selected_line (set_retv st (plain MENU_PREVIOUS)) 0) true)
  | MODE_NEXT =>
      (true, cfg,
       set_quit (set_selected_line (set_retv st (plain MENU_NEXT)) 0) true)
  | TOGGLE_CASE_SENSITIVITY =>
      (true, set_case_sensitive cfg (negb (case_sensitive cfg)),
       set_refilter (set_selected_line st 0) true)
  | DELETE_ENTRY =>
      let selected := listview_get_selected (list_view st) in
      if selected <? filtered_lines st then
        (true, cfg,
         set_quit
           (set_retv (set_selected_line st (at_ (line_map st) selected))
                     (plain MENU_ENTRY_DELETE))
           true)
      else (false, cfg, st)
  | SELECT_ELEMENT_1 | SELECT_ELEMENT_2 | SELECT_ELEMENT_3 | SELECT_ELEMENT_4
  | SELECT_ELEMENT_5 | SELECT_ELEMENT_6 | SELECT_ELEMENT_7 | SELECT_ELEMENT_8
  | SELECT_ELEMENT_9 | SELECT_ELEMENT_10 =>
      let index := default 0 (select_element_index action) in
      if index <? filtered_lines st then
        (true, cfg,
         set_quit
           (set_retv (set_selected_line st (at_ (line_map st) index))
                     (plain MENU_OK))
           true)
      else (true, cfg, st)
  | CUSTOM_1 | CUSTOM_2 | CUSTOM_3 | CUSTOM_4 | CUSTOM_5 | CUSTOM_6 | CUSTOM_7
  | CUSTOM_8 | CUSTOM_9 | CUSTOM_10 | CUSTOM_11 | CUSTOM_12 | CUSTOM_13
  | CUSTOM_14 | CUSTOM_15 | CUSTOM_16 | CUSTOM_17 | CUSTOM_18 | CUSTOM_19 =>
      let selected := listview_get_selected (list_view st) in
      let st := set_selected_line st UINT32_MAX in
      let st := if selected <? filtered_lines st
                then set_selected_line st (at_ (line_map st) selected)
                else st in
      (true, cfg,
       set_quit
         (set_retv st
            (mkMenuReturn MENU_QUICK_SWITCH false
               (Z.land (default 0 (custom_index action)) MENU_LOWER_MASK)))
         true)
  | CANCEL => (true, cfg, set_quit (set_retv st (plain MENU_CANCEL)) true)
  | ROW_UP => (true, cfg, set_list_view st (listview_nav_up (list_view st)))
  | ROW_TAB => (true, cfg, rofi_view_nav_row_tab st)
  | ROW_DOWN => (true, cfg, set_list_view st (listview_nav_down (list_view st)))
  | ROW_LEFT => (true, cfg, set_list_view st (listview_nav_left (list_view st)))
  | ROW_RIGHT =>
      (true, cfg, set_list_view st (listview_nav_right (list_view st)))
  | PAGE_PREV =>
      (true, cfg, set_list_view st (listview_nav_page_prev (list_view st)))
  | PAGE_NEXT =>
      (true, cfg, set_list_view st (listview_nav_page_next (list_view st)))
  | ROW_FIRST => (true, cfg, rofi_view_nav_first st)
  | ROW_LAST => (true, cfg, rofi_view_nav_last st)
  | ROW_SELECT => (true, cfg, rofi_view_nav_row_select st)
  | MOVE_CHAR_BACK | MOVE_CHAR_FORWARD | CLEAR_LINE | MOVE_FRONT | MOVE_END
  | REMOVE_TO_EOL | REMOVE_TO_SOL | REMOVE_WORD_BACK | REMOVE_WORD_FORWARD
  | REMOVE_CHAR_FORWARD | MOVE_WORD_BACK | MOVE_WORD_FORWARD
  | REMOVE_CHAR_BACK =>
      let r := textbox_keybinding (text st) action in
      let st := set_text st (fst r) in
      (true, cfg, if snd r =? 1 then set_refilter st true else st)
  | ACCEPT_ALT =>
      let st := accept_selected st in
      (true, cfg, set_quit (set_retv st (or_custom_action (retv st))) true)
  | ACCEPT_CUSTOM =>
      (true, cfg,
       set_quit
         (set_retv (set_selected_line st UINT32_MAX) (plain MENU_CUSTOM_INPUT))
         true)
  | ACCEPT_ENTRY => (true, cfg, set_quit (accept_selected st) true)
  | NUM_ABE => (false, cfg, st)
  end.

(** [rofi_view_get_next_position] *)
Definition rofi_view_get_next_position st : Z :=
  let next_pos := selected_line st in
  let selected := listview_get_selected (list_view st) in
  if uint (selected + 1) <? num_lines st
  then at_ (line_map st) (uint (selected + 1))
  else next_pos.

(** A sequence of key binding actions handed to the view one after the
    other, as [rofi_view_handle_keypress] does for each key. *)
Definition run_actions (cfg : Config) st (actions : list KeyBindingAction)
    : Config * RofiViewState :=
  fold_left
    (fun (cs : Config * RofiViewState) a =>
       let r := rofi_view_trigger_action (fst cs) (snd cs) a in
       (snd (fst r), snd r))
    actions (cfg, st).

End Filter.

(** ** Notions the statements use *)

(** The entries of [l] are in ascending order of their distance. *)
Definition ascending (d l : list Z) : Prop :=
  StronglySorted (fun x y => at_ d x <= at_ d y) l.

(** The difference [distances[a] - distances[b]] of [lev_sort] fits in an
    [int] for the entries of [l]; beyond that the subtraction overflows,
    which C leaves undefined. *)
Definition no_wrap (d l : list Z) : Prop :=
  forall x y, In x l -> In y l -> - 2 ^ 31 <= at_ d x - at_ d y < 2 ^ 31.

(** The entries of [l] are the same read as [int] and as [unsigned int]. *)
Definition int_entries (l : list Z) : Prop :=
  forall x, In x l -> 0 <= x < 2 ^ 31.


Section Notions.
Context `{Helper}.
Implicit Type st : RofiViewState.

(** The token-match predicate of the view: every token matches the
    searchable text of candidate [i]. *)
Definition matching st (i : Z) : bool :=
  mode_token_match (sw st) (tokens st) i.

(** The filtered mapping: the first [filtered_lines] slots of [line_map]. *)
Definition mapping st : list Z :=
  take (Z.to_nat (filtered_lines st)) (line_map st).

(** The candidates of chunk [t] that match, in index order. *)
Definition chunk_matches st (t : thread_state) : list Z :=
  List.filter (matching st) (chunk_indices t).

(** The arrays have one slot per candidate, as [g_malloc0_n] allocates
    them, and the number of candidates is an [unsigned int]. *)
Definition arrays_ok st : Prop :=
  0 <= num_lines st < 2 ^ 32
  /\ length (line_map st) = Z.to_nat (num_lines st)
  /\ length (distance st) = Z.to_nat (num_lines st).

(** Two views that differ at most in [line_map] and [distance]. *)
Definition same_view st st' : Prop :=
  sw st' = sw st /\ text st' = text st /\ tokens st' = tokens st
  /\ num_lines st' = num_lines st /\ filtered_lines st' = filtered_lines st
  /\ selected_line st' = selected_line st /\ retv st' = retv st
  /\ quit st' = quit st /\ refilter st' = refilter st
  /\ reload st' = reload st /\ prev_action st' = prev_action st
  /\ list_view st' = list_view st.

(** Chunks that lie one after the other below [n]: each starts at or after
    [lo], the bound the chunks before it reach. *)
Fixpoint chained (lo n : Z) (ts : list thread_state) : Prop :=
  match ts with
  | [] => True
  | t :: rest =>
      lo <= start t /\ stop t <= n /\ count t = 0
      /\ chained (Z.max (start t) (stop t)) n rest
  end.

(** The candidates a pass keeps, chunk after chunk of the partition. *)
Definition kept st : list Z :=
  concat (map (chunk_matches st) (make_states (num_lines st) None 0)).

(** The view can be filtered: its arrays are about to be allocated afresh
    by a reload, or they have one slot per candidate already. *)
Definition ready st : Prop := reload st = true \/ arrays_ok st.

(** The view after the filter proper, before the list view is told the
    new number of rows and before auto-select. *)
Definition filtered (cfg : Config) st : RofiViewState :=
  if has_input st
  then refilter_tokens cfg (refilter_prepare st)
  else refilter_all (refilter_prepare st).

(** The number of candidates of the pass: the provider's count when the
    pass reloads, the stored one otherwise. *)
Definition pass_lines st : Z :=
  if reload st then uint (mode_get_num_entries (sw st)) else num_lines st.

(** The table [d] after [d[i] = f i] for the indices [i] of [ix], in
    turn. *)
Definition write_scores (f : Z -> Z) (ix d : list Z) : list Z :=
  fold_left (fun d i => upd d i (f i)) ix d.

(** Two chunks with no index in common. *)
Definition apart (t u : thread_state) : Prop :=
  Z.max (start t) (stop t) <= start u \/ Z.max (start u) (stop u) <= start t.

(** A task that can run on arrays of [n] slots. *)
Definition runnable (n : Z) (t : thread_state) : Prop :=
  0 <= start t /\ stop t <= n /\ count t = 0.

(** The score of candidate [i] against the pattern of the pass. *)
Definition pass_score (cfg : Config) st (i : Z) : Z :=
  let pat := mode_preprocess_input (sw st) (textbox_get_text (text st)) in
  let pl := match pat with Some p => g_utf8_strlen p | None => 0 end in
  score cfg st (mkThread 0 0 0 pat pl) i.




(** The array [a] with the segment [seg] written at position [p]. *)
Definition splice (p : nat) (seg a : list Z) : list Z :=
  take p a ++ seg ++ drop (p + length seg) a.

(** Either nothing is written, or the segment lies inside the array. *)
Definition fits (p : nat) (seg a : list Z) : Prop :=
  seg = [] \/ (p + length seg <= length a)%nat.

(** Chunk [t] after its task has run: [t'] counts the matches of the chunk
    and [lm] holds them from slot [start t] on. *)
Definition stored st (lm : list Z) (t t' : thread_state) : Prop :=
  start t' = start t /\ stop t' = stop t
  /\ count t' = Z.of_nat (length (chunk_matches st t))
  /\ take (length (chunk_matches st t)) (drop (Z.to_nat (start t)) lm)
     = chunk_matches st t.

End Notions.

(** ** A concrete provider

    An instance of the external collaborators on which the definitions can
    be run: whitespace-separated tokens matched as substrings, the edit
    distance of two strings, and the five candidates of the spec's first
    example. *)

Fixpoint is_substring (p s : string) : bool :=
  String.prefix p s
  || match s with
     | EmptyString => false
     | String _ s' => is_substring p s'
     end.

(** The words of [s], [w] being the word under construction. *)
Fixpoint split_words (w s : string) : list string :=
  match s with
  | EmptyString => if String.eqb w "" then [] else [w]
  | String c s' =>
      if Ascii.eqb c " "%char
      then (if String.eqb w "" then [] else [w]) ++ split_words "" s'
      else split_words (w ++ String c "") s'
  end.

Fixpoint edit_distance (a b : list ascii) : nat :=
  match a with
  | [] => length b
  | x :: a' =>
      (fix inner (b : list ascii) : nat :=
         match b with
         | [] => length a
         | y :: b' =>
             Nat.min (Nat.min (S (edit_distance a' b)) (S (inner b')))
                     ((if Ascii.eqb x y then 0 else 1) + edit_distance a' b')%nat
         end) b
  end.

Definition demo_distance (p : option string) (s : string) : Z :=
  Z.of_nat (edit_distance (list_ascii_of_string (default EmptyString p))
                          (list_ascii_of_string s)).

(** Modelled from the spec: the fuzzy score of the spec's scorer, for
    which higher is better, the empty pattern scoring best of all and a
    pattern equal to the candidate scoring better than any shorter pattern
    on that candidate; here the score falls by one for each character of
    the candidate the pattern leaves out. *)
Definition demo_fuzzy_score (pl sl : Z) : Z :=
  if pl =? 0 then 2000 else 1000 - (sl - pl).

(** Modelled from the spec: [rofi_scorer_fuzzy_evaluate] is in helper.c,
    not under src/.  The spec sorts by descending score, view.c sorts the
    table in ascending order in every mode; the scorer of this instance
    returns the score negated, as a sorting weight for which lower is
    better. *)
Definition demo_fuzzy_weight (pl sl : Z) : Z := - demo_fuzzy_score pl sl.

#[local] Instance demo_helper : Helper := {|
  Tokens := list string;
  tokenize := fun p _ => option_map (split_words "") p;
  g_utf8_strlen := fun s => Z.of_nat (String.length s);
  levenshtein := fun p _ s _ => demo_distance p s;
  rofi_scorer_fuzzy_evaluate := fun _ pl _ sl => demo_fuzzy_weight pl sl;
  textbox := string;
  textbox_get_text := fun tb => tb;
  textbox_text := fun _ s => s;
  textbox_keybinding :=
    fun tb a => match a with CLEAR_LINE => (EmptyString, 1) | _ => (tb, 0) end;
  MENU_LOWER_MASK := 65535
|}.

Definition fruits : list string :=
  ["apple"; "banana"; "grape"; "pineapple"; "kiwi"]%string.

Definition fruit_name (i : Z) : string :=
  nth (Z.to_nat i) fruits EmptyString.

Definition fruit_mode : Mode :=
  mkMode 5 (fun s => Some s)
    (fun toks i =>
       match toks with
       | None => true
       | Some ts => forallb (fun t => is_substring t (fruit_name i)) ts
       end)
    fruit_name.

(** The view over the five fruits as [rofi_view_create] sets it up for its
    first filter pass, with [input] in the entry box. *)
Definition fruit_view (input : string) : RofiViewState :=
  view_before_first_pass fruit_mode input (mkListview 0 0 0 1) PASTE_PRIMARY.

Definition config_plain : Config := mkConfig false false false MM_OTHER false.
Definition config_sort : Config := mkConfig false true true MM_OTHER false.
Definition config_auto : Config := mkConfig false false false MM_OTHER true.

(** The view over the fruits after a pass for "ap" and, the input retyped
    to "ki", a second pass. *)
Definition fruit_view_retyped : RofiViewState :=
  rofi_view_refilter config_plain
    (set_text (rofi_view_refilter config_plain (fruit_view "ap")) "ki"%string).

(** A provider of [UINT32_MAX] candidates that all match, and a view that
    is about to reload from it. *)
Definition huge_mode : Mode :=
  mkMode UINT32_MAX (fun s => Some s) (fun _ _ => true) (fun _ => EmptyString).

Definition huge_view : RofiViewState :=
  mkState huge_mode "a"%string None 0 0 [] [] UINT32_MAX (plain MENU_CANCEL)
    false true true PASTE_PRIMARY (mkListview 0 0 0 1).

(** * The rest of view.c

    The case indicator, the screenshot file, the worker pool, the stack of
    views, the reload timer, selection by candidate, mode switching, the
    mouse callbacks and the key press handler. *)

(** [get_matching_state] *)
Definition get_matching_state (cfg : Config) : string :=
  if case_sensitive cfg
  then (if sort cfg then "±" else "-")
  else (if sort cfg then "+" else " ").

(** [rofi_view_workers_initialize]: the value it leaves in
    [config.threads], the size of the pool it creates; [procs] is what
    [sysconf ( _SC_NPROCESSORS_CONF )] returns. *)
Definition rofi_view_workers_initialize (threads procs : Z) : Z :=
  if threads =? 0 then
    let threads := 1 in
    if 0 <? procs then Z.min procs 128 else threads
  else threads.

(** ** The screenshot file *)

Section Screenshot.

(** [g_file_test ( fpath, G_FILE_TEST_EXISTS )] on the file system as it is
    while the function runs, and GLib's [g_build_filename]. *)
Variable g_file_test : string -> bool.
Variable g_build_filename : string -> string -> string.

(** [g_strdup_printf ( "%s-%d.png", timestmp, index )] *)
Definition indexed_filename (timestmp : string) (index : Z) : string :=
  (timestmp ++ "-" ++ DecimalString.NilZero.string_of_int (Z.to_int index)
   ++ ".png")%string.

(** [while ( g_file_test ( fpath, G_FILE_TEST_EXISTS ) && index < 99 )]:
    the loop of [menu_capture_screenshot], [fuel] bounding its rounds. *)
Fixpoint screenshot_loop (fuel : nat) (dir timestmp : string) (index : Z)
    (fpath : string) : Z * string :=
  match fuel with
  | O => (index, fpath)
  | S fuel =>
      if g_file_test fpath && (index <? 99) then
        let index := index + 1 in
        screenshot_loop fuel dir timestmp index
          (g_build_filename dir (indexed_filename timestmp index))
      else (index, fpath)
  end.

(** [menu_capture_screenshot]: the path handed to
    [cairo_surface_write_to_png], or [None] when the function returns
    before it writes.  [edit_surf] tells whether [CacheState.edit_surf] is
    set, [outp] is the environment variable ROFI_PNG_OUTPUT,
    [xdg_pict_dir] the user's picture directory and [timestmp] the
    formatted time. *)
Definition menu_capture_screenshot (edit_surf : bool)
    (outp xdg_pict_dir : option string) (timestmp : string) : option string :=
  if negb edit_surf then None
  else
    match outp, xdg_pict_dir with
    | None, None => None
    | None, Some dir =>
        Some (snd (screenshot_loop 100 dir timestmp 0
                     (g_build_filename dir (timestmp ++ ".png")%string)))
    | Some o, _ => Some o
    end.

(** The file name the loop tries in round [k]. *)
Definition screenshot_candidate (dir timestmp : string) (k : Z) : string :=
  if k =? 0 then g_build_filename dir (timestmp ++ ".png")%string
  else g_build_filename dir (indexed_filename timestmp k).

End Screenshot.

(** ** The stack of views *)

(** [current_active_menu] and [CacheState.views]; [V] is the type of the
    pointers to views. *)
Record ViewStack (V : Type) : Type := mkViewStack {
  current_active_menu : option V;
  views : list V
}.

Arguments mkViewStack {_} _ _.
Arguments current_active_menu {_} _.
Arguments views {_} _.

(** [rofi_view_get_active] *)
Definition rofi_view_get_active {V : Type} (g : ViewStack V) : option V :=
  current_active_menu g.

(** [rofi_view_set_active]; [None] is a failed [g_assert].  The resize of
    the window and the redraw are not part of the model. *)
Definition rofi_view_set_active {V : Type} (g : ViewStack V)
    (state : option V) : option (ViewStack V) :=
  match current_active_menu g, state, views g with
  | Some cur, Some s, vs => Some (mkViewStack (Some s) (cur :: vs))
  | _, None, v :: rest => Some (mkViewStack (Some v) rest)
  | None, Some s, vs => Some (mkViewStack (Some s) vs)
  | Some _, None, [] => Some (mkViewStack None [])
  | None, None, [] => None
  end.

(** A sequence of calls of [rofi_view_set_active]. *)
Fixpoint set_active_all {V : Type} (g : ViewStack V)
    (states : list (option V)) : option (ViewStack V) :=
  match states with
  | [] => Some g
  | s :: rest =>
      match rofi_view_set_active g s with
      | Some g' => set_active_all g' rest
      | None => None
      end
  end.

(** The [g_assert] that ends [rofi_view_cleanup]. *)
Definition cleanup_assert {V : Type} (g : ViewStack V) : bool :=
  match views g with [] => true | _ => false end.

(** ** The reload timer *)

(** [CacheState.idle_timeout], and the timeout sources view.c has
    registered with GLib and that are still pending. *)
Record Timers : Type := mkTimers {
  idle_timeout : Z;
  sources : list Z
}.

(** [rofi_view_reload]; [id] is what [g_timeout_add] returns. *)
Definition rofi_view_reload (id : Z) (c : Timers) : Timers :=
  if idle_timeout c =? 0 then mkTimers id (id :: sources c) else c.

(** What the main loop, the timer and the teardown do to the timers. *)
Inductive TimerEvent : Type :=
  | Reload (id : Z)
  | Fire
  | Cleanup.

Section Callers.
Context `{Helper}.
Implicit Type st : RofiViewState.

Definition set_sw st v :=
  mkState v (text st) (tokens st) (num_lines st) (filtered_lines st)
    (line_map st) (distance st) (selected_line st) (retv st) (quit st)
    (refilter st) (reload st) (prev_action st) (list_view st).

(** [rofi_view_reload_idle]; [active] is the view [current_active_menu]
    points to, if any. *)
Definition rofi_view_reload_idle (c : Timers) (active : option RofiViewState)
    : Timers * option RofiViewState :=
  (mkTimers 0 (sources c),
   option_map (fun st => set_refilter (set_reload st true) true) active).

(** The part of [rofi_view_cleanup] that removes the reload timer. *)
Definition rofi_view_cleanup (c : Timers) : Timers :=
  if 0 <? idle_timeout c
  then mkTimers 0 (List.filter (fun s => negb (s =? idle_timeout c)) (sources c))
  else c.

(** One event: a call of [rofi_view_reload]; a pending timeout runs
    [rofi_view_reload_idle], which returns [G_SOURCE_REMOVE], so GLib drops
    the source; or [rofi_view_cleanup]. *)
Definition timer_step (ca : Timers * option RofiViewState) (e : TimerEvent)
    : Timers * option RofiViewState :=
  match e with
  | Reload id => (rofi_view_reload id (fst ca), snd ca)
  | Fire =>
      match sources (fst ca) with
      | [] => ca
      | _ :: rest =>
          let r := rofi_view_reload_idle (fst ca) (snd ca) in
          (mkTimers (idle_timeout (fst r)) rest, snd r)
      end
  | Cleanup => (rofi_view_cleanup (fst ca), snd ca)
  end.

(** GLib's [g_timeout_add] returns an identifier greater than 0. *)
Definition valid_event (e : TimerEvent) : Prop :=
  match e with Reload id => 0 < id | _ => True end.

(** At most one reload timeout is pending, and [idle_timeout] names it. *)
Definition one_timer (c : Timers) : Prop :=
  (idle_timeout c = 0 /\ sources c = [])
  \/ (0 < idle_timeout c /\ sources c = [idle_timeout c]).

(** [rofi_view_restart] *)
Definition rofi_view_restart st : RofiViewState :=
  set_retv (set_quit st false) (plain MENU_CANCEL).

(** The loop of [rofi_view_set_selected_line] over the rows [ix], with
    [selected] the row found so far. *)
Fixpoint find_selected_loop st (ix : list Z) (selected : Z) : Z :=
  match ix with
  | [] => selected
  | i :: rest =>
      if (selected_line st <? UINT32_MAX) && (selected =? 0) then
        if at_ (line_map st) i =? selected_line st then i
        else find_selected_loop st rest selected
      else selected
  end.

(** The row [rofi_view_set_selected_line] hands to the list view:
    [for ( unsigned int i = 0; ... && i < state->filtered_lines; i++ )]. *)
Definition find_selected st : Z :=
  find_selected_loop st (seqZ 0 (filtered_lines st)) 0.

(** [rofi_view_set_selected_line] *)
Definition rofi_view_set_selected_line st (line : Z) : RofiViewState :=
  let st := set_selected_line st line in
  set_list_view st (listview_set_selected (list_view st) (find_selected st)).

(** [rofi_view_clear_input]; the entry box of a created view is never
    [NULL]. *)
Definition rofi_view_clear_input st : RofiViewState :=
  rofi_view_set_selected_line
    (set_text st (textbox_text (text st) EmptyString)) 0.

(** [rofi_view_switch_mode]; the prompt and the side bar it updates are
    not part of the model. *)
Definition rofi_view_switch_mode (cfg : Config) st (mode : Mode)
    : RofiViewState :=
  let st := set_sw st mode in
  let st := rofi_view_restart st in
  let st := set_refilter (set_reload st true) true in
  rofi_view_refilter cfg st.

(** The first [i] with [modi[i] == textbox], counted from [i]. *)
Fixpoint modi_index (modi : list Z) (textbox_ : Z) (i : Z) : option Z :=
  match modi with
  | [] => None
  | m :: rest =>
      if m =? textbox_ then Some i else modi_index rest textbox_ (uint (i + 1))
  end.

(** [rofi_view_modi_clicked_cb]: the returned flag and the view; [modi]
    holds the widgets of the mode buttons, [state->num_modi] of them.  The
    flag [skip_absorb] it sets is not among the fields of the model. *)
Definition rofi_view_modi_clicked_cb st (modi : list Z) (textbox_ : Z)
    : bool * RofiViewState :=
  match modi_index modi textbox_ 0 with
  | Some i =>
      (true,
       set_quit
         (set_retv st
            (mkMenuReturn MENU_QUICK_SWITCH false (Z.land i MENU_LOWER_MASK)))
         true)
  | None => (false, st)
  end.

(** [rofi_view_listview_mouse_activated_cb]; the list view that calls it
    is the one of the view, and [control] is
    [x11_modifier_active ( xce->state, X11MOD_CONTROL )].  The result is the
    view and the value the callback writes to [state->skip_absorb], a
    field that is not among those of [RofiViewState] here. *)
Definition rofi_view_listview_mouse_activated_cb st (control : bool)
    : RofiViewState * bool :=
  let st := set_retv st (plain MENU_OK) in
  let st := if control then set_retv st (or_custom_action (retv st)) else st in
  let st := set_selected_line st
              (at_ (line_map st) (listview_get_selected (list_view st))) in
  let st := set_quit st true in
  let skip_absorb := true in
  (st, skip_absorb).

(** ** The key press handler *)

Inductive xkb_compose_status : Type :=
  | XKB_COMPOSE_NOTHING | XKB_COMPOSE_COMPOSING | XKB_COMPOSE_COMPOSED
  | XKB_COMPOSE_CANCELLED.

(** What the compose state answers when it is fed a key: whether
    [xkb_compose_state_feed] accepts it, then
    [xkb_compose_state_get_status], [xkb_compose_state_get_one_sym]
    ([None] is [XKB_KEY_NoSymbol]) and [xkb_compose_state_get_utf8]. *)
Record compose_answer : Type := mkCompose {
  feed_accepted : bool;
  compose_status : xkb_compose_status;
  compose_sym : option Z;
  compose_utf8 : string
}.

(** [xkb_stuff] as the handler reads it: the key symbol of the event
    ([None] is [XKB_KEY_NoSymbol]), its text, the canonical modifier mask
    and the compose state ([None] is [NULL]). *)
Record xkb_stuff : Type := mkXkb {
  xkb_key : option Z;
  xkb_utf8 : string;
  xkb_modstate : Z;
  xkb_compose : option (Z -> compose_answer)
}.

(** [abe_find_action] of keybindings.c and [textbox_append_char] of
    textbox.c. *)
Variable abe_find_action : Z -> Z -> KeyBindingAction.
Variable textbox_append_char : textbox -> string -> Z -> textbox * bool.

(** The number of bytes of a text, the [len] of the handler. *)
Definition utf8_len (pad : string) : Z := Z.of_nat (String.length pad).

(** The part of [rofi_view_handle_keypress] under
    [if ( xkb->compose.state != NULL )]: the key and the text it leaves, or
    [None] when the handler returns there. *)
Definition compose_key (xkb : xkb_stuff) : option (option Z * string) :=
  let key := xkb_key xkb in
  match xkb_compose xkb, key with
  | Some feed, Some k =>
      if feed_accepted (feed k) then
        let kp :=
          match compose_status (feed k) with
          | XKB_COMPOSE_CANCELLED | XKB_COMPOSE_COMPOSING =>
              (None, EmptyString)
          | XKB_COMPOSE_COMPOSED =>
              (compose_sym (feed k), compose_utf8 (feed k))
          | XKB_COMPOSE_NOTHING => (key, EmptyString)
          end in
        match fst kp with
        | None => if utf8_len (snd kp) =? 0 then None else Some kp
        | Some _ => Some kp
        end
      else Some (key, EmptyString)
  | _, _ => Some (key, EmptyString)
  end.

(** The end of the handler:
    [if ( ( len > 0 ) && ( textbox_append_char ( state->text, pad, len ) ) )]. *)
Definition append_text st (pad : string) : RofiViewState :=
  if 0 <? utf8_len pad then
    let a := textbox_append_char (text st) pad (utf8_len pad) in
    if snd a then set_refilter (set_text st (fst a)) true
    else set_text st (fst a)
  else st.

(** [rofi_view_handle_keypress] *)
Definition rofi_view_handle_keypress (cfg : Config) st (xkb : xkb_stuff)
    : Config * RofiViewState :=
  match compose_key xkb with
  | None => (cfg, st)
  | Some (key, pad) =>
      let pad := if utf8_len pad =? 0 then xkb_utf8 xkb else pad in
      match key with
      | Some k =>
          let r := rofi_view_trigger_action cfg st
                     (abe_find_action (xkb_modstate xkb) k) in
          if fst (fst r) then (snd (fst r), snd r)
          else (snd (fst r), append_text (snd r) pad)
      | None => (cfg, append_text st pad)
      end
  end.

End Callers.

(** ** More concrete inputs *)

(** A provider of 1200 candidates, every third of which matches any
    input. *)
Definition big_mode : Mode :=
  mkMode 1200 (fun s => Some s) (fun _ i => i mod 3 =? 0)
    (fun _ => "entry"%string).

Definition big_view : RofiViewState :=
  view_before_first_pass big_mode "e"%string (mkListview 0 0 0 1)
    PASTE_PRIMARY.

(** Key bindings: Return accepts, Delete with Shift deletes the entry,
    everything else is unbound. *)
Definition demo_abe (modstate key : Z) : KeyBindingAction :=
  if key =? 65293 then ACCEPT_ENTRY
  else if (key =? 65535) && (modstate =? 1) then DELETE_ENTRY
  else NUM_ABE.

(** An entry box that appends what is typed. *)
Definition demo_append (tb : string) (pad : string) (len : Z)
    : string * bool :=
  ((tb ++ pad)%string, true).

(** A compose state in the middle of a sequence. *)
Definition demo_composing (k : Z) : compose_answer :=
  mkCompose true XKB_COMPOSE_COMPOSING None EmptyString.

(** The file system with two screenshots of the minute taken already. *)
Definition demo_files (p : string) : bool :=
  String.eqb p "pics/rofi-2017-01-01-1200.png"
  || String.eqb p "pics/rofi-2017-01-01-1200-1.png".

Definition demo_build_filename (dir file : string) : string :=
  (dir ++ "/" ++ file)%string.

(** ** Machine arithmetic *)

Lemma uint_small x : 0 <= x < 2 ^ 32 -> uint x = x.
Proof. intros Hx. unfold uint. apply Z.mod_small. exact Hx. Qed.

Lemma uint_range x : 0 <= uint x < 2 ^ 32.
Proof. unfold uint. apply Z.mod_pos_bound. lia. Qed.

Lemma sint_small x : - 2 ^ 31 <= x < 2 ^ 31 -> sint x = x.
Proof. intros Hx. unfold sint. rewrite Z.mod_small by lia. lia. Qed.

Section FilterProofs.
Context `{Helper}.
Implicit Type st : RofiViewState.

(** ** Frames: what a step leaves alone *)

Lemma same_view_refl st : same_view st st.
Proof. unfold same_view. tauto. Qed.

Lemma same_view_trans st1 st2 st3 :
  same_view st1 st2 -> same_view st2 st3 -> same_view st1 st3.
Proof. unfold same_view. intuition congruence. Qed.

Lemma same_view_matching st st' i :
  same_view st st' -> matching st' i = matching st i.
Proof. unfold same_view, matching. intros (-> & _ & -> & _). reflexivity. Qed.

Lemma filter_step_same_view cfg t st i :
  same_view st (snd (filter_step cfg (t, st) i)).
Proof.
  unfold filter_step; cbn [fst snd].
  destruct (mode_token_match _ _ _); [|apply same_view_refl].
  destruct (sort cfg); cbn; unfold same_view; cbn; tauto.
Qed.

Lemma filter_step_task cfg t st i :
  let t' := fst (filter_step cfg (t, st) i) in
  start t' = start t /\ stop t' = stop t
  /\ pattern t' = pattern t /\ plen t' = plen t.
Proof.
  unfold filter_step; cbn [fst snd].
  destruct (mode_token_match _ _ _); cbn; tauto.
Qed.

(** The loop of [filter_elements] over the indices [ix], entered with
    [count t] matches already stored. *)
Lemma filter_loop_line_map cfg (ix : list Z) t st :
  let F := List.filter (matching st) ix in
  let p := Z.to_nat (start t + count t) in
  0 <= start t -> 0 <= count t ->
  start t + count t + Z.of_nat (length F) <= Z.of_nat (length (line_map st)) ->
  Z.of_nat (length (line_map st)) < 2 ^ 32 ->
  let r := fold_left (filter_step cfg) ix (t, st) in
  count (fst r) = count t + Z.of_nat (length F)
  /\ start (fst r) = start t /\ stop (fst r) = stop t
  /\ same_view st (snd r)
  /\ line_map (snd r)
     = take p (line_map st) ++ F ++ drop (p + length F)%nat (line_map st).
Proof.
  revert t st. induction ix as [|i ix IH]; intros t st F p Hs Hc Hlen Hmax r.
  - subst r F p. cbn. refine (conj _ (conj _ (conj _ (conj _ _))));
      try lia; try apply same_view_refl.
    rewrite Nat.add_0_r. symmetry. apply take_drop.
  - subst r. cbn [fold_left].
    pose proof (filter_step_same_view cfg t st i) as Hsv.
    pose proof (filter_step_task cfg t st i) as (Hst & Hsp & _ & _).
    destruct (filter_step cfg (t, st) i) as [t1 st1] eqn:E. cbn [fst snd] in *.
    assert (HF1 : List.filter (matching st1) ix = List.filter (matching st) ix).
    { apply filter_ext. intros a. apply same_view_matching, Hsv. }
    unfold filter_step in E; cbn [fst snd] in E.
    subst F. cbn [List.filter] in *. fold (matching st i) in E.
    destruct (matching st i) eqn:Em.
    + cbn [length] in Hlen.
      assert (Hlm1 : line_map st1
                     = <[Z.to_nat (start t + count t) := i]> (line_map st)).
      { destruct (sort cfg); inversion E; subst; cbn; unfold upd;
          rewrite uint_small by lia; reflexivity. }
      assert (Hc1 : count t1 = count t + 1).
      { destruct (sort cfg); inversion E; subst; cbn;
          rewrite uint_small by lia; reflexivity. }
      specialize (IH t1 st1). cbn zeta in IH. rewrite HF1 in IH.
      rewrite Hlm1, length_insert, Hst, Hc1 in IH.
      destruct IH as (IHc & IHs & IHp & IHv & IHl); try lia.
      refine (conj _ (conj _ (conj _ (conj _ _)))); cbn [length];
        try lia; try congruence.
      * eapply same_view_trans; eassumption.
      * rewrite IHl. subst p.
        set (F := List.filter (matching st) ix) in *.
        replace (Z.to_nat (start t + (count t + 1)))
          with (S (Z.to_nat (start t + count t))) by lia.
        set (q := Z.to_nat (start t + count t)) in *.
        assert (Hq : (q < length (line_map st))%nat) by lia.
        rewrite (take_S_r _ _ i) by (apply list_lookup_insert_eq; exact Hq).
        rewrite take_insert_ge by lia.
        rewrite drop_insert_lt by lia.
        rewrite <- app_assoc. cbn. rewrite Nat.add_succ_r. reflexivity.
    + inversion E; subst t1 st1.
      specialize (IH t st). cbn zeta in IH.
      destruct IH as (IHc & IHs & IHp & IHv & IHl); try lia.
      refine (conj _ (conj _ (conj _ (conj _ _)))); assumption.
Qed.


(** The loop writes [distance] only when sorting is on, and only at the
    indices that matched. *)
Lemma filter_loop_distance cfg (ix : list Z) t st :
  let r := fold_left (filter_step cfg) ix (t, st) in
  length (distance (snd r)) = length (distance st)
  /\ (sort cfg = false -> distance (snd r) = distance st)
  /\ forall n : nat,
       distance (snd r) !! n <> distance st !! n ->
       sort cfg = true
       /\ exists i, In i ix /\ matching st i = true /\ Z.to_nat i = n.
Proof.
  revert t st. induction ix as [|i ix IH]; intros t st r.
  - subst r; cbn. split; [reflexivity|]. split; [reflexivity|].
    intros n Hn. congruence.
  - subst r. cbn [fold_left].
    pose proof (filter_step_same_view cfg t st i) as Hsv.
    destruct (filter_step cfg (t, st) i) as [t1 st1] eqn:E.
    cbn [fst snd] in Hsv.
    specialize (IH t1 st1). cbn zeta in IH. destruct IH as (IHl & IHf & IHn).
    unfold filter_step in E; cbn [fst snd] in E. fold (matching st i) in E.
    assert (Hd : distance st1 = distance st
                 \/ (sort cfg = true /\ matching st i = true
                     /\ distance st1 = <[Z.to_nat i := score cfg
                          (set_line_map st
                             (upd (line_map st) (uint (start t + count t)) i))
                          t i]> (distance st))).
    { destruct (matching st i); [|inversion E; subst; left; reflexivity].
      destruct (sort cfg); inversion E; subst; cbn; [right | left]; auto. }
    split; [|split].
    + rewrite IHl. destruct Hd as [-> | (_ & _ & ->)];
        [reflexivity | apply length_insert].
    + intros Hs. rewrite (IHf Hs). destruct Hd as [-> | (Hs' & _)];
        [reflexivity | congruence].
    + intros n Hn.
      destruct (decide (distance (fold_left (filter_step cfg) ix (t1, st1)).2
                          !! n = distance st1 !! n)) as [Heq | Hne].
      * rewrite Heq in Hn.
        destruct Hd as [Hd | (Hs & Hm & Hd)]; [congruence|].
        split; [assumption|]. exists i. split; [left; reflexivity|].
        split; [assumption|].
        destruct (decide (Z.to_nat i = n)) as [Hin | Hin]; [assumption|].
        rewrite Hd, list_lookup_insert_ne in Hn by assumption. congruence.
      * destruct (IHn n Hne) as (Hs & a & Ha & Hm & Hn').
        split; [assumption|]. exists a. split; [right; assumption|].
        split; [|assumption].
        rewrite <- Hm. symmetry. apply same_view_matching, Hsv.
Qed.

(** ** Splicing a segment into an array *)

Lemma splice_nil p a : splice p [] a = a.
Proof. unfold splice. cbn. rewrite Nat.add_0_r. apply take_drop. Qed.

Lemma splice_length p seg a :
  fits p seg a -> length (splice p seg a) = length a.
Proof.
  intros [-> | Hp]; [rewrite splice_nil; reflexivity|]. unfold splice.
  rewrite !length_app, length_take, length_drop. lia.
Qed.

Lemma splice_take p seg a q :
  fits p seg a -> (q <= p)%nat -> take q (splice p seg a) = take q a.
Proof.
  intros [-> | Hp] Hq; [rewrite splice_nil; reflexivity|]. unfold splice.
  rewrite take_app_le by (rewrite length_take; lia).
  rewrite take_take. f_equal. lia.
Qed.

Lemma splice_drop p seg a q :
  fits p seg a -> (p + length seg <= q)%nat ->
  drop q (splice p seg a) = drop q a.
Proof.
  intros [-> | Hp] Hq; [rewrite splice_nil; reflexivity|]. unfold splice.
  rewrite app_assoc.
  rewrite drop_app_ge by (rewrite length_app, length_take; lia).
  rewrite length_app, length_take, drop_drop. f_equal. lia.
Qed.

Lemma splice_seg p seg a :
  fits p seg a -> take (length seg) (drop p (splice p seg a)) = seg.
Proof.
  intros [-> | Hp]; [reflexivity|]. unfold splice.
  rewrite drop_app_length' by (rewrite length_take; lia).
  apply take_app_length.
Qed.

Lemma splice_take_end p seg a :
  fits p seg a ->
  take (p + length seg) (splice p seg a) = take p a ++ seg.
Proof.
  intros [-> | Hp].
  - rewrite splice_nil, app_nil_r. cbn. rewrite Nat.add_0_r. reflexivity.
  - unfold splice. rewrite app_assoc. apply take_app_length'.
    rewrite length_app, length_take. lia.
Qed.

Lemma splice_self p seg a :
  take (length seg) (drop p a) = seg -> splice p seg a = a.
Proof.
  intros Hs. unfold splice. rewrite <- Hs at 1.
  rewrite <- drop_drop, take_drop. apply take_drop.
Qed.

Lemma memmove_splice a dst src n :
  let seg := take (Z.to_nat n) (drop (Z.to_nat src) a) in
  fits (Z.to_nat dst) seg a ->
  memmove a dst src n = splice (Z.to_nat dst) seg a.
Proof.
  intros seg Hf. unfold memmove. fold seg.
  destruct Hf as [-> | Hp]; [rewrite splice_nil; reflexivity|].
  unfold splice.
  rewrite <- (take_drop (Z.to_nat dst) a) at 1.
  replace (Z.to_nat dst) with (length (take (Z.to_nat dst) a) + 0)%nat at 1
    by (rewrite length_take; lia).
  rewrite list_inserts_app_r. f_equal.
  rewrite <- (take_drop (length seg) (drop (Z.to_nat dst) a)) at 1.
  rewrite list_inserts_0_r by (rewrite length_take, length_drop; lia).
  rewrite drop_drop. reflexivity.
Qed.

(** ** One task *)

Lemma chunk_matches_length st t :
  Z.of_nat (length (chunk_matches st t)) <= Z.max 0 (stop t - start t).
Proof.
  unfold chunk_matches, chunk_indices.
  pose proof (List.filter_length_le (matching st)
                (seqZ (start t) (stop t - start t))) as Hle.
  rewrite length_seqZ in Hle. lia.
Qed.

Lemma chunk_matches_fits st t (a : list Z) :
  0 <= start t -> stop t <= Z.of_nat (length a) ->
  fits (Z.to_nat (start t)) (chunk_matches st t) a.
Proof.
  intros Hs Hp. pose proof (chunk_matches_length st t) as Hl.
  destruct (chunk_matches st t) eqn:E; [left; reflexivity|right].
  cbn [length] in *. lia.
Qed.

Lemma same_view_chunk_matches st st' t :
  same_view st st' -> chunk_matches st' t = chunk_matches st t.
Proof.
  intros Hsv. unfold chunk_matches. apply filter_ext.
  intros i. apply same_view_matching, Hsv.
Qed.

Lemma filter_elements_spec cfg t st :
  0 <= start t -> count t = 0 ->
  stop t <= Z.of_nat (length (line_map st)) ->
  Z.of_nat (length (line_map st)) < 2 ^ 32 ->
  let r := filter_elements cfg t st in
  count (fst r) = Z.of_nat (length (chunk_matches st t))
  /\ start (fst r) = start t /\ stop (fst r) = stop t
  /\ same_view st (snd r)
  /\ line_map (snd r)
     = splice (Z.to_nat (start t)) (chunk_matches st t) (line_map st).
Proof.
  intros Hs Hc Hp Hmax r. subst r. unfold filter_elements.
  destruct (chunk_matches_fits st t (line_map st) Hs Hp) as [Hnil | Hfit].
  - (* no candidate of the chunk matches: every step leaves the arrays *)
    rewrite Hnil, splice_nil. cbn [length].
    unfold chunk_matches in Hnil.
    assert (Hgen : forall ix t st,
               List.filter (matching st) ix = [] ->
               fold_left (filter_step cfg) ix (t, st) = (t, st)).
    { clear. induction ix as [|i ix IH]; intros t st Hf; [reflexivity|].
      cbn [fold_left]. cbn [List.filter] in Hf.
      destruct (matching st i) eqn:Em; [discriminate|].
      unfold filter_step at 2; cbn [fst snd]. fold (matching st i).
      rewrite Em. apply IH, Hf. }
    rewrite Hgen by assumption. cbn [fst snd].
    refine (conj _ (conj _ (conj _ (conj _ _))));
      try reflexivity; try apply same_view_refl. lia.
  - pose proof (filter_loop_line_map cfg (chunk_indices t) t st) as HL.
    cbn zeta in HL. fold (chunk_matches st t) in HL.
    rewrite Hc, Z.add_0_r in HL.
    destruct HL as (HLc & HLs & HLp & HLv & HLl); try lia.
    refine (conj _ (conj _ (conj _ (conj _ _)))); assumption.
Qed.

End FilterProofs.

Section PassProofs.
Context `{Helper}.
Implicit Type st : RofiViewState.

(** ** All tasks *)

Lemma chained_weaken lo lo' n ts :
  lo <= lo' -> chained lo' n ts -> chained lo n ts.
Proof. destruct ts as [|t ts]; cbn; [tauto|]. intros Hl (? & ? & ? & ?). repeat split; try assumption; lia. Qed.

Lemma chained_starts lo n ts :
  chained lo n ts -> Forall (fun u => lo <= start u) ts.
Proof.
  revert lo. induction ts as [|t ts IH]; intros lo; cbn; [constructor|].
  intros (Hlo & Hp & Hc & Hrest). constructor; [assumption|].
  apply IH. eapply chained_weaken; [|exact Hrest]. lia.
Qed.

Lemma stored_frame st lm lm2 (q : nat) ts ts' :
  drop q lm2 = drop q lm ->
  Forall (fun u => Z.of_nat q <= start u) ts ->
  Forall2 (stored st lm) ts ts' -> Forall2 (stored st lm2) ts ts'.
Proof.
  intros Hd Hq HF. induction HF as [|u u' ts ts' Hu HF IH]; [constructor|].
  inversion Hq as [|? ? Hqu Hq']; subst.
  constructor; [|apply IH; assumption].
  destruct Hu as (Hs & Hp & Hc & Hseg).
  refine (conj Hs (conj Hp (conj Hc _))).
  etransitivity; [|exact Hseg]. f_equal.
  replace (Z.to_nat (start u)) with (q + (Z.to_nat (start u) - q))%nat by lia.
  rewrite <- !drop_drop, Hd. reflexivity.
Qed.

Lemma stored_same_view st st' lm ts ts' :
  same_view st st' ->
  Forall2 (stored st' lm) ts ts' -> Forall2 (stored st lm) ts ts'.
Proof.
  intros Hsv HF. eapply Forall2_impl; [exact HF|].
  intros u u'. unfold stored.
  rewrite (same_view_chunk_matches st st' u Hsv). tauto.
Qed.

Lemma run_states_spec cfg n ts : forall st lo,
  chained lo n ts -> 0 <= lo ->
  Z.of_nat (length (line_map st)) = n -> n < 2 ^ 32 ->
  let r := run_states cfg ts st in
  same_view st (snd r)
  /\ length (line_map (snd r)) = length (line_map st)
  /\ take (Z.to_nat lo) (line_map (snd r)) = take (Z.to_nat lo) (line_map st)
  /\ Forall2 (stored st (line_map (snd r))) ts (fst r).
Proof.
  induction ts as [|t rest IH]; intros st lo Hch Hlo Hn Hmax r.
  - subst r. cbn. refine (conj _ (conj _ (conj _ _)));
      try reflexivity; [apply same_view_refl | constructor].
  - subst r. cbn [run_states fst snd].
    cbn in Hch. destruct Hch as (Hlt & Hp & Hc & Hrest).
    pose proof (filter_elements_spec cfg t st) as HE. cbn zeta in HE.
    destruct HE as (HEc & HEs & HEp & HEv & HEl); try lia.
    set (r1 := filter_elements cfg t st) in *.
    set (F := chunk_matches st t) in *.
    set (a := Z.to_nat (start t)) in *.
    assert (Hfit : fits a F (line_map st))
      by (apply chunk_matches_fits; lia).
    assert (Hlen1 : length (line_map (snd r1)) = length (line_map st))
      by (rewrite HEl; apply splice_length, Hfit).
    specialize (IH (snd r1) (Z.max (start t) (stop t))). cbn zeta in IH.
    destruct IH as (IHv & IHlen & IHt & IHF); try assumption; try lia.
    set (lm' := line_map (snd (run_states cfg rest (snd r1)))) in *.
    pose proof (chunk_matches_length st t) as HFl. fold F in HFl.
    refine (conj _ (conj _ (conj _ _))).
    + eapply same_view_trans; eassumption.
    + congruence.
    + replace (Z.to_nat lo)
        with (Nat.min (Z.to_nat lo) (Z.to_nat (Z.max (start t) (stop t))))
        by lia.
      rewrite <- !take_take, IHt, !take_take.
      replace (Nat.min (Z.to_nat lo) (Z.to_nat (Z.max (start t) (stop t))))
        with (Z.to_nat lo) by lia.
      rewrite HEl. apply splice_take; [assumption | lia].
    + constructor.
      * refine (conj HEs (conj HEp (conj HEc _))). fold F a.
        rewrite take_drop_commute.
        replace (a + length F)%nat
          with (Nat.min (a + length F)
                        (Z.to_nat (Z.max (start t) (stop t)))) by lia.
        rewrite <- take_take, IHt, take_take.
        replace (Nat.min (a + length F)
                         (Z.to_nat (Z.max (start t) (stop t))))
          with (a + length F)%nat by lia.
        rewrite <- take_drop_commute, HEl. apply splice_seg, Hfit.
      * eapply stored_same_view; eassumption.
Qed.

(** ** Closing the gaps *)

Lemma merge_spec st n ts : forall ts' lm j lo acc,
  chained lo n ts -> Forall2 (stored st lm) ts ts' ->
  take (Z.to_nat j) lm = acc -> Z.of_nat (length acc) = j -> j <= lo ->
  Z.of_nat (length lm) = n -> n < 2 ^ 32 ->
  let m := fold_left merge_step ts' (j, lm) in
  let M := concat (map (chunk_matches st) ts) in
  fst m = j + Z.of_nat (length M)
  /\ length (snd m) = length lm
  /\ take (Z.to_nat (fst m)) (snd m) = acc ++ M.
Proof.
  induction ts as [|t rest IH]; intros ts' lm j lo acc Hch HF Hacc Hj Hlo Hn Hmax.
  - inversion HF; subst ts'. cbn. rewrite app_nil_r.
    repeat split; [lia | assumption].
  - inversion HF as [|? t' ? rest' Hst HF' E1 E2]. subst ts'. clear HF.
    cbn in Hch. destruct Hch as (Hlt & Hp & Hc & Hrest).
    destruct Hst as (Hs & Hsp & Hcnt & Hseg).
    set (F := chunk_matches st t) in *.
    pose proof (chunk_matches_length st t) as HFl. fold F in HFl.
    assert (Hjl : 0 <= j <= Z.of_nat (length lm)).
    { rewrite <- Hj, <- Hacc, length_take. lia. }
    assert (Hfit : fits (Z.to_nat j) F lm).
    { destruct F eqn:EF; [left; reflexivity | right].
      cbn [length] in *. lia. }
    assert (Hj2 : uint (j + count t') = j + Z.of_nat (length F)).
    { rewrite Hcnt. apply uint_small.
      destruct Hfit as [-> | Hfit]; cbn [length]; lia. }
    assert (Hlm2 : (if j =? start t' then lm
                    else memmove lm j (start t') (count t'))
                   = splice (Z.to_nat j) F lm).
    { destruct (Z.eqb_spec j (start t')) as [Heq | Hne].
      - symmetry. apply splice_self. rewrite Heq, Hs. exact Hseg.
      - rewrite memmove_splice; rewrite Hcnt, Hs, Nat2Z.id, Hseg;
          [reflexivity | exact Hfit]. }
    assert (Hstep : merge_step (j, lm) t'
                    = (j + Z.of_nat (length F), splice (Z.to_nat j) F lm)).
    { unfold merge_step. cbn [fst snd]. rewrite Hj2, Hlm2. reflexivity. }
    cbn [fold_left map concat]. rewrite Hstep.
    specialize (IH rest' (splice (Z.to_nat j) F lm)
                  (j + Z.of_nat (length F)) (Z.max (start t) (stop t))
                  (acc ++ F)).
    cbn zeta in IH.
    destruct IH as (IHj & IHl & IHt).
    + assumption.
    + eapply (stored_frame st lm _ (Z.to_nat j + length F)); [| |exact HF'].
      * apply splice_drop; [assumption | lia].
      * eapply Forall_impl; [apply (chained_starts _ _ _ Hrest)|].
        cbn. intros u Hu. lia.
    + replace (Z.to_nat (j + Z.of_nat (length F)))
        with (Z.to_nat j + length F)%nat by lia.
      rewrite <- Hacc. apply splice_take_end, Hfit.
    + rewrite length_app. lia.
    + lia.
    + rewrite splice_length by assumption. assumption.
    + assumption.
    + cbn zeta. fold F.
      rewrite IHt, IHl, IHj, length_app, splice_length by assumption.
      rewrite <- app_assoc. repeat split. lia.
Qed.

End PassProofs.

(** ** The partition of the candidate range *)

Lemma nt_of_pos n : 1 <= nt_of n.
Proof. unfold nt_of. lia. Qed.

(** Either the sum [num_lines + nt] fits in an [unsigned int], or it wraps
    and [steps] is 0. *)
Lemma steps_of_cases n :
  0 <= n < 2 ^ 32 ->
  (n + nt_of n < 2 ^ 32
   /\ steps_of n = (n + nt_of n) / nt_of n
   /\ n < nt_of n * steps_of n <= n + nt_of n)
  \/ (2 ^ 32 <= n + nt_of n /\ steps_of n = 0).
Proof.
  intros Hn. pose proof (nt_of_pos n) as Hk.
  destruct (Z_lt_le_dec (n + nt_of n) (2 ^ 32)) as [Hlt | Hge].
  - left. unfold steps_of. rewrite uint_small by lia.
    split; [assumption|]. split; [reflexivity|].
    pose proof (Z.div_mod (n + nt_of n) (nt_of n) ltac:(lia)) as Hdm.
    pose proof (Z.mod_pos_bound (n + nt_of n) (nt_of n) ltac:(lia)) as Hmb.
    lia.
  - right. split; [assumption|]. unfold steps_of, uint.
    assert (Hk2 : nt_of n <= n).
    { unfold nt_of in *. change (2 ^ 32) with 4294967296 in *.
      Z.div_mod_to_equations. lia. }
    assert (Hm : (n + nt_of n) mod 2 ^ 32 = n + nt_of n - 2 ^ 32).
    { symmetry. apply (Z.mod_unique _ _ 1); lia. }
    rewrite Hm. apply Z.div_small. lia.
Qed.

Lemma steps_of_nonneg n : 0 <= n < 2 ^ 32 -> 0 <= steps_of n.
Proof.
  intros Hn. pose proof (nt_of_pos n).
  destruct (steps_of_cases n Hn) as [(_ & _ & Hb) | (_ & ->)]; [nia | lia].
Qed.

Lemma chunk_uint n i :
  0 <= n < 2 ^ 32 -> 0 <= i <= nt_of n ->
  uint (i * steps_of n) = i * steps_of n.
Proof.
  intros Hn Hi. pose proof (steps_of_nonneg n Hn) as Hs.
  destruct (steps_of_cases n Hn) as [(Hlt & _ & Hb) | (_ & Hz)].
  - apply uint_small. nia.
  - rewrite Hz, Z.mul_0_r. reflexivity.
Qed.

Lemma chunk_start_eq n i :
  0 <= n < 2 ^ 32 -> 0 <= i <= nt_of n -> chunk_start n i = i * steps_of n.
Proof. intros. unfold chunk_start. apply chunk_uint; assumption. Qed.

Lemma chunk_stop_eq n i :
  0 <= n < 2 ^ 32 -> 0 <= i < nt_of n ->
  chunk_stop n i = Z.min n ((i + 1) * steps_of n).
Proof. intros. unfold chunk_stop. rewrite chunk_uint by lia. reflexivity. Qed.

Lemma make_states_length n pat pl :
  Z.of_nat (length (make_states n pat pl)) = nt_of n.
Proof.
  unfold make_states. rewrite length_map, length_seqZ.
  pose proof (nt_of_pos n). lia.
Qed.

Lemma make_states_lookup n pat pl (i : nat) :
  Z.of_nat i < nt_of n ->
  make_states n pat pl !! i
  = Some (mkThread (chunk_start n (Z.of_nat i)) (chunk_stop n (Z.of_nat i))
                   0 pat pl).
Proof.
  intros Hi. unfold make_states.
  change (map ?f ?l) with (f <$> l).
  rewrite list_lookup_fmap, lookup_seqZ_lt by assumption. reflexivity.
Qed.

Lemma states_from_chained n pat pl (len : nat) : forall i0,
  0 <= n < 2 ^ 32 -> 0 <= i0 -> i0 + Z.of_nat len <= nt_of n ->
  chained (i0 * steps_of n) n
    (map (fun i => mkThread (chunk_start n i) (chunk_stop n i) 0 pat pl)
         (seqZ i0 (Z.of_nat len))).
Proof.
  induction len as [|len IH]; intros i0 Hn Hi Hk.
  - rewrite seqZ_nil by lia. exact I.
  - rewrite seqZ_cons by lia. cbn [map chained start stop count].
    pose proof (steps_of_nonneg n Hn) as Hs.
    rewrite chunk_start_eq, chunk_stop_eq by lia.
    split; [lia|]. split; [lia|]. split; [reflexivity|].
    replace (Z.pred (Z.of_nat (S len))) with (Z.of_nat len) by lia.
    eapply chained_weaken; [|apply (IH (Z.succ i0)); lia]. nia.
Qed.

Lemma make_states_chained n pat pl :
  0 <= n < 2 ^ 32 -> chained 0 n (make_states n pat pl).
Proof.
  intros Hn. unfold make_states. pose proof (nt_of_pos n) as Hk.
  replace (nt_of n) with (Z.of_nat (Z.to_nat (nt_of n))) by lia.
  change 0 with (0 * steps_of n) at 1.
  apply states_from_chained; lia.
Qed.

(** Without wrap-around the chunks, one after the other, enumerate
    [0 .. n-1]. *)
Lemma states_from_indices n pat pl (len : nat) : forall i0,
  0 <= n < 2 ^ 32 -> n + nt_of n < 2 ^ 32 ->
  0 <= i0 -> i0 + Z.of_nat len <= nt_of n ->
  concat (map chunk_indices
    (map (fun i => mkThread (chunk_start n i) (chunk_stop n i) 0 pat pl)
         (seqZ i0 (Z.of_nat len))))
  = seqZ (Z.min n (i0 * steps_of n))
         (Z.min n ((i0 + Z.of_nat len) * steps_of n)
          - Z.min n (i0 * steps_of n)).
Proof.
  induction len as [|len IH]; intros i0 Hn Hno Hi Hk.
  - rewrite (seqZ_nil i0) by lia. cbn. rewrite seqZ_nil; [reflexivity|].
    rewrite Z.add_0_r. lia.
  - rewrite (seqZ_cons i0) by lia. cbn [map concat].
    replace (Z.pred (Z.of_nat (S len))) with (Z.of_nat len) by lia.
    rewrite (IH (Z.succ i0)) by lia.
    pose proof (steps_of_nonneg n Hn) as Hs.
    unfold chunk_indices at 1. cbn [start stop].
    rewrite chunk_start_eq, chunk_stop_eq by lia.
    replace ((Z.succ i0 + Z.of_nat len) * steps_of n)
      with ((i0 + Z.of_nat (S len)) * steps_of n) by lia.
    replace (Z.succ i0 * steps_of n) with ((i0 + 1) * steps_of n) by lia.
    set (a := i0 * steps_of n). set (b := (i0 + 1) * steps_of n).
    set (c := (i0 + Z.of_nat (S len)) * steps_of n).
    assert (a <= b <= c) by (subst a b c; nia).
    destruct (Z_lt_le_dec a n) as [Ha | Ha].
    + replace (Z.min n a) with a by lia.
      replace (Z.min n c - a) with ((Z.min n b - a) + (Z.min n c - Z.min n b))
        by lia.
      rewrite seqZ_app by lia. do 2 f_equal. lia.
    + rewrite (seqZ_nil a) by lia. cbn [app].
      replace (Z.min n a) with n by lia. replace (Z.min n b) with n by lia.
      reflexivity.
Qed.

Lemma make_states_indices n pat pl :
  0 <= n < 2 ^ 32 -> n + nt_of n < 2 ^ 32 ->
  concat (map chunk_indices (make_states n pat pl)) = seqZ 0 n.
Proof.
  intros Hn Hno. unfold make_states. pose proof (nt_of_pos n) as Hk.
  replace (nt_of n) with (Z.of_nat (Z.to_nat (nt_of n))) at 1 by lia.
  rewrite states_from_indices by lia.
  destruct (steps_of_cases n Hn) as [(_ & _ & Hb) | (Hge & _)]; [|lia].
  rewrite Z.mul_0_l, Z.add_0_l, Z2Nat.id by lia.
  f_equal; lia.
Qed.

(** When the sum wraps, every chunk is the empty range [0 .. 0). *)
Lemma make_states_wrapped n pat pl t :
  0 <= n < 2 ^ 32 -> 2 ^ 32 <= n + nt_of n ->
  In t (make_states n pat pl) -> chunk_indices t = [].
Proof.
  intros Hn Hw Ht. unfold make_states in Ht.
  apply in_map_iff in Ht. destruct Ht as (i & <- & Hi).
  destruct (steps_of_cases n Hn) as [(Hlt & _) | (_ & Hz)]; [lia|].
  unfold chunk_indices, chunk_start, chunk_stop. cbn [start stop].
  rewrite Hz, !Z.mul_0_r. apply seqZ_nil. unfold uint. cbn. lia.
Qed.

Lemma make_states_indices_wrapped n pat pl :
  0 <= n < 2 ^ 32 -> 2 ^ 32 <= n + nt_of n ->
  concat (map chunk_indices (make_states n pat pl)) = [].
Proof.
  intros Hn Hw. pose proof (make_states_wrapped n pat pl) as Hall.
  induction (make_states n pat pl) as [|t ts IH]; [reflexivity|].
  cbn [map concat]. rewrite (Hall t) by (try assumption; left; reflexivity).
  apply IH. intros u ? ? Hu. apply Hall; try assumption. right; assumption.
Qed.

Section Matches.
Context `{Helper}.
Implicit Type st : RofiViewState.

Lemma chunk_matches_concat st ts :
  concat (map (chunk_matches st) ts)
  = List.filter (matching st) (concat (map chunk_indices ts)).
Proof.
  induction ts as [|t ts IH]; [reflexivity|].
  cbn [map concat]. rewrite List.filter_app, IH. reflexivity.
Qed.

Lemma make_states_matches st n pat pl :
  0 <= n < 2 ^ 32 -> n + nt_of n < 2 ^ 32 ->
  concat (map (chunk_matches st) (make_states n pat pl))
  = List.filter (matching st) (seqZ 0 n).
Proof.
  intros Hn Hno. rewrite chunk_matches_concat, make_states_indices by lia.
  reflexivity.
Qed.

Lemma make_states_matches_wrapped st n pat pl :
  0 <= n < 2 ^ 32 -> 2 ^ 32 <= n + nt_of n ->
  concat (map (chunk_matches st) (make_states n pat pl)) = [].
Proof.
  intros Hn Hw.
  rewrite chunk_matches_concat, make_states_indices_wrapped by assumption.
  reflexivity.
Qed.

End Matches.

(** ** The sort *)

Lemma sort_insert_perm cmp x l : Permutation (sort_insert cmp x l) (x :: l).
Proof.
  induction l as [|y l IH]; cbn; [reflexivity|].
  destruct (cmp x y <=? 0); [reflexivity|].
  rewrite IH. apply perm_swap.
Qed.

Lemma sort_perm cmp l : Permutation (fold_right (sort_insert cmp) [] l) l.
Proof.
  induction l as [|x l IH]; cbn; [reflexivity|].
  rewrite sort_insert_perm. apply perm_skip, IH.
Qed.

Lemma sort_length cmp l : length (fold_right (sort_insert cmp) [] l) = length l.
Proof. apply Permutation_length, sort_perm. Qed.

(** An entry below 2^31 is read as it is. *)
Lemma at_int_entry d x : 0 <= x < 2 ^ 31 -> at_int d (sint x) = at_ d x.
Proof.
  intros Hx. rewrite sint_small by lia. unfold at_int.
  destruct (Z.ltb_spec x 0); [lia | reflexivity].
Qed.

(** Where the entries are below 2^31 and the subtraction does not wrap,
    [lev_sort] orders by distance. *)
Lemma lev_sort_le d x y :
  0 <= x < 2 ^ 31 -> 0 <= y < 2 ^ 31 ->
  - 2 ^ 31 <= at_ d x - at_ d y < 2 ^ 31 ->
  (lev_sort d x y <=? 0) = (at_ d x <=? at_ d y).
Proof.
  intros Hx Hy Hr. unfold lev_sort. rewrite !at_int_entry by assumption.
  rewrite sint_small by assumption.
  destruct (Z.leb_spec (at_ d x - at_ d y) 0), (Z.leb_spec (at_ d x) (at_ d y));
    try reflexivity; lia.
Qed.

Lemma int_entries_perm l l' :
  Permutation l l' -> int_entries l -> int_entries l'.
Proof.
  intros Hp Hi x Hx. apply Hi. eapply Permutation_in; [|exact Hx].
  symmetry. exact Hp.
Qed.

Lemma sort_insert_ascending d x l :
  int_entries (x :: l) ->
  (forall y, In y l -> - 2 ^ 31 <= at_ d x - at_ d y < 2 ^ 31) ->
  ascending d l -> ascending d (sort_insert (lev_sort d) x l).
Proof.
  unfold ascending. intros He Hr Hs.
  induction Hs as [|y l Hs IH Hy]; cbn.
  - constructor; constructor.
  - rewrite lev_sort_le;
      [| apply He; left; reflexivity
       | apply He; right; left; reflexivity
       | apply Hr; left; reflexivity].
    destruct (Z.leb_spec (at_ d x) (at_ d y)) as [Hle | Hgt].
    + constructor; [constructor; assumption|].
      constructor; [assumption|].
      eapply Forall_impl; [exact Hy|]. cbn. intros z Hz. lia.
    + constructor.
      * apply IH.
        -- intros z [<- | Hz]; apply He; [left | right; right]; auto.
        -- intros z Hz. apply Hr. right; assumption.
      * apply List.Forall_forall. intros z Hz.
        apply (Permutation_in _ (sort_insert_perm _ _ _)) in Hz.
        destruct Hz as [<- | Hz]; [lia|].
        rewrite List.Forall_forall in Hy. apply Hy, Hz.
Qed.

Lemma no_wrap_perm d l l' : Permutation l l' -> no_wrap d l -> no_wrap d l'.
Proof.
  intros Hp Hn x y Hx Hy.
  apply Hn; eapply Permutation_in; try eassumption; symmetry; assumption.
Qed.

Lemma sort_ascending d l :
  int_entries l -> no_wrap d l ->
  ascending d (fold_right (sort_insert (lev_sort d)) [] l).
Proof.
  induction l as [|x l IH]; intros He Hn; cbn.
  - constructor.
  - apply sort_insert_ascending.
    + eapply int_entries_perm; [|exact He].
      apply perm_skip. symmetry. apply sort_perm.
    + intros y Hy. apply Hn; [left; reflexivity|right].
      eapply Permutation_in; [apply sort_perm|exact Hy].
    + apply IH.
      * intros a Ha. apply He. right; assumption.
      * intros a b Ha Hb. apply Hn; right; assumption.
Qed.



(** The count as a [gint]. *)
Lemma sint_le j : 0 <= j -> sint j <= j.
Proof.
  intros Hj. unfold sint.
  pose proof (Z.mod_le (j + 2 ^ 31) (2 ^ 32) ltac:(lia) ltac:(lia)). lia.
Qed.

Lemma g_qsort_with_data_perm (lm : list Z) n cmp :
  Permutation (g_qsort_with_data lm n cmp) lm.
Proof.
  unfold g_qsort_with_data. rewrite sort_perm, take_drop. reflexivity.
Qed.

Lemma g_qsort_with_data_nil n cmp : g_qsort_with_data [] n cmp = [].
Proof. apply Permutation_nil. symmetry. apply g_qsort_with_data_perm. Qed.

(** A count that covers the array sorts all of it. *)
Lemma g_qsort_with_data_all (lm : list Z) n cmp :
  Z.of_nat (length lm) <= n ->
  g_qsort_with_data lm n cmp = fold_right (sort_insert cmp) [] lm.
Proof.
  intros Hn. unfold g_qsort_with_data.
  rewrite take_ge, drop_ge by lia. apply app_nil_r.
Qed.

(** The first [j] slots after a sort of no more than [j] slots. *)
Lemma g_qsort_with_data_take_le (lm : list Z) n cmp (j : nat) :
  (Z.to_nat n <= j)%nat -> (j <= length lm)%nat ->
  take j (g_qsort_with_data lm n cmp) = g_qsort_with_data (take j lm) n cmp.
Proof.
  intros Hn Hj. unfold g_qsort_with_data.
  rewrite take_app, sort_length, length_take.
  rewrite take_take.
  replace (Z.to_nat n `min` j)%nat with (Z.to_nat n) by lia.
  replace (Z.to_nat n `min` length lm)%nat with (Z.to_nat n) by lia.
  rewrite (take_ge (fold_right _ _ _))
    by (rewrite sort_length, length_take; lia).
  f_equal. rewrite take_drop_commute. f_equal. f_equal. lia.
Qed.

Lemma g_qsort_with_data_take lm j cmp :
  0 <= j <= Z.of_nat (length lm) ->
  take (Z.to_nat j) (g_qsort_with_data lm j cmp)
  = fold_right (sort_insert cmp) [] (take (Z.to_nat j) lm).
Proof.
  intros Hj. unfold g_qsort_with_data.
  apply take_app_length'. rewrite sort_length, length_take. lia.
Qed.

Lemma g_qsort_with_data_length lm j cmp :
  length (g_qsort_with_data lm j cmp) = length lm.
Proof.
  unfold g_qsort_with_data.
  rewrite length_app, sort_length, length_take, length_drop. lia.
Qed.

Section RefilterProofs.
Context `{Helper}.
Implicit Type st : RofiViewState.

(** ** Frames of the tasks *)

Lemma filter_loop_same_view cfg (ix : list Z) : forall t st,
  same_view st (snd (fold_left (filter_step cfg) ix (t, st))).
Proof.
  induction ix as [|i ix IH]; intros t st; cbn [fold_left].
  - apply same_view_refl.
  - pose proof (filter_step_same_view cfg t st i) as Hsv.
    destruct (filter_step cfg (t, st) i) as [t1 st1]. cbn [snd] in Hsv.
    eapply same_view_trans; [exact Hsv | apply IH].
Qed.

Lemma run_states_same_view cfg ts : forall st,
  same_view st (snd (run_states cfg ts st)).
Proof.
  induction ts as [|t ts IH]; intros st; cbn [run_states snd].
  - apply same_view_refl.
  - eapply same_view_trans; [|apply IH].
    apply filter_loop_same_view.
Qed.

Lemma run_states_distance cfg ts : forall st,
  let r := run_states cfg ts st in
  length (distance (snd r)) = length (distance st)
  /\ (sort cfg = false -> distance (snd r) = distance st)
  /\ forall n : nat,
       distance (snd r) !! n <> distance st !! n ->
       sort cfg = true
       /\ exists t i, In t ts /\ In i (chunk_indices t)
                      /\ matching st i = true /\ Z.to_nat i = n.
Proof.
  induction ts as [|t ts IH]; intros st r; subst r; cbn [run_states snd].
  - split; [reflexivity|]. split; [reflexivity|]. intros n Hn. congruence.
  - pose proof (filter_loop_distance cfg (chunk_indices t) t st) as HD.
    pose proof (filter_loop_same_view cfg (chunk_indices t) t st) as Hsv.
    cbn zeta in HD. fold (filter_elements cfg t st) in HD, Hsv.
    destruct HD as (HDl & HDf & HDn).
    specialize (IH (snd (filter_elements cfg t st))). cbn zeta in IH.
    destruct IH as (IHl & IHf & IHn).
    split; [congruence|]. split.
    + intros Hs. rewrite (IHf Hs). apply HDf, Hs.
    + intros n Hn.
      destruct (decide (distance (run_states cfg ts
                           (filter_elements cfg t st).2).2 !! n
                        = distance (filter_elements cfg t st).2 !! n))
        as [Heq | Hne].
      * rewrite Heq in Hn. destruct (HDn n Hn) as (Hs & i & Hi & Hm & Hin).
        split; [assumption|]. exists t, i.
        split; [left; reflexivity|]. tauto.
      * destruct (IHn n Hne) as (Hs & u & i & Hu & Hi & Hm & Hin).
        split; [assumption|]. exists u, i.
        split; [right; assumption|]. split; [assumption|].
        split; [|assumption].
        rewrite <- Hm. symmetry. apply same_view_matching, Hsv.
Qed.

Lemma make_states_index n pat pl t i :
  In t (make_states n pat pl) -> In i (chunk_indices t) -> 0 <= i < n.
Proof.
  intros Ht Hi. unfold make_states in Ht. apply in_map_iff in Ht.
  destruct Ht as (k & <- & _).
  unfold chunk_indices in Hi. cbn [start stop] in Hi.
  apply list_elem_of_In, elem_of_seqZ in Hi.
  unfold chunk_start, chunk_stop in Hi.
  pose proof (uint_range (k * steps_of n)). lia.
Qed.

(** ** The pass over a non-empty input *)

(** The tokens of the pass. *)
Lemma refilter_tokens_view cfg st :
  let st' := refilter_tokens cfg st in
  sw st' = sw st /\ text st' = text st /\ num_lines st' = num_lines st
  /\ tokens st'
     = tokenize (mode_preprocess_input (sw st) (textbox_get_text (text st)))
                (case_sensitive cfg)
  /\ selected_line st' = selected_line st /\ retv st' = retv st
  /\ quit st' = quit st /\ refilter st' = refilter st
  /\ reload st' = reload st /\ prev_action st' = prev_action st
  /\ list_view st' = list_view st.
Proof.
  unfold refilter_tokens. cbn zeta.
  set (pat := mode_preprocess_input _ _).
  set (pl := match pat with Some p => g_utf8_strlen p | None => 0 end).
  set (st0 := set_tokens st (tokenize pat (case_sensitive cfg))).
  pose proof (run_states_same_view cfg (make_states (num_lines st0) pat pl) st0)
    as Hsv.
  destruct Hsv as (? & ? & ? & ? & ? & ? & ? & ? & ? & ? & ? & ?).
  cbn. repeat split; assumption.
Qed.

Lemma kept_any_pattern st pat pl :
  concat (map (chunk_matches st) (make_states (num_lines st) pat pl))
  = kept st.
Proof.
  unfold kept, make_states. rewrite !map_map. reflexivity.
Qed.

Lemma refilter_tokens_mapping cfg st :
  arrays_ok st ->
  let st' := refilter_tokens cfg st in
  filtered_lines st' = Z.of_nat (length (kept st'))
  /\ length (line_map st') = length (line_map st)
  /\ mapping st'
     = if sort cfg
       then g_qsort_with_data (kept st') (sint (filtered_lines st'))
              (lev_sort (distance st'))
       else kept st'.
Proof.
  intros (Hn & Hlm & Hd) st'.
  pose proof (refilter_tokens_view cfg st) as Hview. cbn zeta in Hview.
  fold st' in Hview. destruct Hview as (Hsw & _ & Hnl & Htok & _).
  unfold mapping.
  assert (Hkept : forall pat pl,
             concat (map (chunk_matches
                            (set_tokens st (tokenize
                               (mode_preprocess_input (sw st)
                                  (textbox_get_text (text st)))
                               (case_sensitive cfg))))
                         (make_states (num_lines st) pat pl))
             = kept st').
  { intros pat pl. rewrite <- (kept_any_pattern st' pat pl), Hnl.
    f_equal. apply map_ext. intros t. unfold chunk_matches.
    apply filter_ext. intros i. unfold matching.
    rewrite Hsw, Htok. reflexivity. }
  subst st'. unfold refilter_tokens in *. cbn zeta in *.
  set (pat := mode_preprocess_input _ _) in *.
  set (pl := match pat with Some p => g_utf8_strlen p | None => 0 end) in *.
  set (st0 := set_tokens st (tokenize pat (case_sensitive cfg))) in *.
  change (num_lines st0) with (num_lines st) in *.
  set (S := make_states (num_lines st) pat pl) in *.
  pose proof (run_states_spec cfg (num_lines st) S st0 0) as HR.
  cbn zeta in HR.
  destruct HR as (_ & HRl & _ & HRF);
    [apply make_states_chained; assumption | lia | cbn; lia | lia |].
  set (r := run_states cfg S st0) in *.
  pose proof (merge_spec st0 (num_lines st) S (fst r) (line_map (snd r)) 0 0 [])
    as HM.
  cbn zeta in HM. pose proof (Hkept pat pl) as HK. fold S in HK.
  rewrite HK in HM.
  destruct HM as (HMj & HMl & HMt);
    [apply make_states_chained; assumption | assumption | reflexivity
    | reflexivity | lia | rewrite HRl; cbn; lia | lia |].
  set (m := fold_left merge_step (fst r) (0, line_map (snd r))) in *.
  cbn [filtered_lines line_map set_filtered_lines set_line_map distance].
  rewrite Z.add_0_l in HMj. cbn [app] in HMt.
  split; [exact HMj|]. split.
  - destruct (sort cfg); [rewrite g_qsort_with_data_length|];
      rewrite HMl, HRl; reflexivity.
  - destruct (sort cfg); [|exact HMt].
    assert (Hj : (Z.to_nat (fst m) <= length (snd m))%nat)
      by (apply (f_equal (@length Z)) in HMt; rewrite length_take in HMt; lia).
    rewrite g_qsort_with_data_take_le;
      [| pose proof (sint_le (fst m) ltac:(lia)); lia | exact Hj].
    rewrite HMt. reflexivity.
Qed.

(** ** The whole pass *)

Lemma prepare_arrays_ok st : ready st -> arrays_ok (refilter_prepare st).
Proof.
  unfold ready, refilter_prepare, arrays_ok. intros [Hr | Hok].
  - rewrite Hr. cbn. pose proof (uint_range (mode_get_num_entries (sw st))).
    rewrite !length_replicate. tauto.
  - destruct (reload st); cbn.
    + pose proof (uint_range (mode_get_num_entries (sw st))).
      rewrite !length_replicate. tauto.
    + exact Hok.
Qed.

Lemma prepare_has_input st : has_input (refilter_prepare st) = has_input st.
Proof. unfold refilter_prepare, has_input. destruct (reload st); reflexivity. Qed.

Lemma refilter_filtered cfg st :
  let st' := rofi_view_refilter cfg st in
  let s := filtered cfg st in
  sw st' = sw s /\ text st' = text s /\ tokens st' = tokens s
  /\ num_lines st' = num_lines s /\ filtered_lines st' = filtered_lines s
  /\ line_map st' = line_map s /\ distance st' = distance s
  /\ prev_action st' = prev_action s
  /\ list_view st'
     = listview_set_num_elements (list_view s) (filtered_lines s).
Proof.
  unfold rofi_view_refilter, filtered. cbn zeta.
  rewrite prepare_has_input.
  destruct (auto_select_fires _ _); cbn; repeat split; reflexivity.
Qed.

End RefilterProofs.

(** ** Increasing lists *)

Lemma StronglySorted_lt_seqZ (len : nat) : forall a,
  StronglySorted Z.lt (seqZ a (Z.of_nat len)).
Proof.
  induction len as [|len IH]; intros a.
  - rewrite seqZ_nil by lia. constructor.
  - rewrite seqZ_cons by lia.
    replace (Z.pred (Z.of_nat (S len))) with (Z.of_nat len) by lia.
    constructor; [apply IH|].
    apply List.Forall_forall. intros x Hx.
    apply list_elem_of_In, elem_of_seqZ in Hx. lia.
Qed.

Lemma StronglySorted_lt_filter (f : Z -> bool) l :
  StronglySorted Z.lt l -> StronglySorted Z.lt (List.filter f l).
Proof.
  induction 1 as [|x l Hs IH Hx]; cbn; [constructor|].
  destruct (f x); [|exact IH].
  constructor; [exact IH|].
  apply List.Forall_forall. intros y Hy. apply List.filter_In in Hy.
  rewrite List.Forall_forall in Hx. apply Hx, Hy.
Qed.

Lemma filter_seqZ_increasing (f : Z -> bool) a n :
  StronglySorted Z.lt (List.filter f (seqZ a n)).
Proof.
  apply StronglySorted_lt_filter.
  destruct (Z_lt_le_dec n 0) as [Hn | Hn].
  - rewrite seqZ_nil by lia. constructor.
  - rewrite <- (Z2Nat.id n Hn). apply StronglySorted_lt_seqZ.
Qed.

Lemma StronglySorted_lt_lookup (l : list Z) :
  StronglySorted Z.lt l ->
  forall (p q : nat) x y,
    (p < q)%nat -> l !! p = Some x -> l !! q = Some y -> x < y.
Proof.
  induction 1 as [|z l Hs IH Hz]; intros p q x y Hpq Hp Hq; [discriminate|].
  destruct q as [|q]; [lia|]. cbn in Hq.
  destruct p as [|p]; cbn in Hp.
  - inversion Hp; subst. rewrite List.Forall_forall in Hz.
    apply Hz, list_elem_of_In. eapply list_elem_of_lookup_2, Hq.
  - apply (IH p q); [lia | assumption | assumption].
Qed.

Section UnsortedPass.
Context `{Helper}.
Implicit Type st : RofiViewState.

Lemma refilter_num_lines cfg st :
  num_lines (rofi_view_refilter cfg st) = pass_lines st.
Proof.
  pose proof (refilter_filtered cfg st) as HF. cbn zeta in HF.
  destruct HF as (_ & _ & _ & -> & _).
  unfold filtered, pass_lines.
  destruct (has_input st).
  - pose proof (refilter_tokens_view cfg (refilter_prepare st)) as HV.
    cbn zeta in HV. destruct HV as (_ & _ & -> & _).
    unfold refilter_prepare. destruct (reload st); reflexivity.
  - unfold refilter_prepare. destruct (reload st); reflexivity.
Qed.

(** The mapping of a pass over a non-empty input, whatever the number of
    candidates: the matches of the chunks in chunk order, sorted when
    sorting is on. *)
Lemma refilter_mapping cfg st :
  has_input st = true -> ready st ->
  let st' := rofi_view_refilter cfg st in
  filtered_lines st' = Z.of_nat (length (kept st'))
  /\ Z.of_nat (length (line_map st')) = num_lines st'
  /\ mapping st'
     = if sort cfg
       then g_qsort_with_data (kept st') (sint (filtered_lines st'))
              (lev_sort (distance st'))
       else kept st'.
Proof.
  intros Hin Hr st'.
  pose proof (refilter_filtered cfg st) as HF. cbn zeta in HF. fold st' in HF.
  destruct HF as (Hsw & _ & Htok & Hnl & Hfl & Hlm & Hd & _).
  unfold filtered in *. rewrite Hin in *.
  pose proof (prepare_arrays_ok st Hr) as Hok.
  pose proof (refilter_tokens_mapping cfg (refilter_prepare st) Hok) as HM.
  pose proof (refilter_tokens_view cfg (refilter_prepare st)) as HV.
  cbn zeta in HM, HV.
  set (s := refilter_tokens cfg (refilter_prepare st)) in *.
  destruct HM as (HMf & HMl & HMm). destruct HV as (_ & _ & HVn & _).
  assert (Hk : kept st' = kept s).
  { unfold kept. rewrite Hnl. f_equal. apply map_ext. intros t.
    unfold chunk_matches. apply filter_ext. intros i. unfold matching.
    rewrite Hsw, Htok. reflexivity. }
  unfold mapping in *. rewrite Hfl, Hlm, Hd, Hk, Hnl.
  split; [exact HMf|]. split; [|exact HMm].
  destruct Hok as (Hn & Hl & _). rewrite HMl, Hl, HVn. lia.
Qed.

(** Where the sum [num_lines + nt] fits in an [unsigned int], the pass
    filters as it is meant to: with sorting disabled and a non-empty
    input, the filtered mapping holds exactly the candidates [i] of
    [0 .. N-1] that match every token, each once, in strictly increasing
    order, and [filtered_lines] is their number. *)
Theorem filter_pass_unsorted cfg st :
  sort cfg = false -> has_input st = true -> ready st ->
  pass_lines st + Z.max 1 (pass_lines st / 500) < 2 ^ 32 ->
  mapping (rofi_view_refilter cfg st)
  = List.filter (matching (rofi_view_refilter cfg st))
                (seqZ 0 (pass_lines st))
  /\ filtered_lines (rofi_view_refilter cfg st)
     = Z.of_nat (length (List.filter (matching (rofi_view_refilter cfg st))
                                     (seqZ 0 (pass_lines st))))
  /\ (forall i, In i (mapping (rofi_view_refilter cfg st))
                <-> 0 <= i < pass_lines st
                    /\ matching (rofi_view_refilter cfg st) i = true)
  /\ List.NoDup (mapping (rofi_view_refilter cfg st))
  /\ (forall p, 0 <= p -> p + 1 < filtered_lines (rofi_view_refilter cfg st) ->
        at_ (line_map (rofi_view_refilter cfg st)) p
        < at_ (line_map (rofi_view_refilter cfg st)) (p + 1)).
Proof.
  intros Hs Hin Hr Hno.
  pose proof (refilter_mapping cfg st Hin Hr) as HM. cbn zeta in HM.
  pose proof (refilter_num_lines cfg st) as Hnl.
  set (st' := rofi_view_refilter cfg st) in *.
  destruct HM as (Hfl & Hlen & Hmap). rewrite Hs in Hmap.
  assert (Hn : 0 <= pass_lines st < 2 ^ 32) by (rewrite <- Hnl, <- Hlen; lia).
  assert (Hk : kept st' = List.filter (matching st') (seqZ 0 (pass_lines st))).
  { unfold kept. rewrite Hnl. apply make_states_matches; assumption. }
  rewrite Hk in *. clear Hk.
  split; [exact Hmap|]. split; [exact Hfl|]. split; [|split].
  - intros i. rewrite Hmap, List.filter_In.
    rewrite <- list_elem_of_In, elem_of_seqZ. intuition lia.
  - rewrite Hmap. apply List.NoDup_filter, NoDup_ListNoDup, NoDup_seqZ.
  - intros p Hp Hp1.
    pose proof (filter_seqZ_increasing (matching st') 0 (pass_lines st)) as Hinc.
    rewrite <- Hmap in Hinc, Hfl.
    assert (Hlook : forall q, 0 <= q < filtered_lines st' ->
              mapping st' !! Z.to_nat q = Some (at_ (line_map st') q)).
    { intros q Hq. unfold at_, mapping.
      rewrite lookup_take_lt by lia.
      destruct (lookup_lt_is_Some_2 (line_map st') (Z.to_nat q)) as [x Hx];
        [|rewrite Hx; reflexivity].
      unfold mapping in Hfl. rewrite length_take in Hfl. lia. }
    eapply (StronglySorted_lt_lookup _ Hinc (Z.to_nat p) (Z.to_nat (p + 1)));
      [lia | apply Hlook; lia | apply Hlook; lia].
Qed.

End UnsortedPass.

Lemma refilter_sw `{Helper} cfg (st : RofiViewState) :
  sw (rofi_view_refilter cfg st) = sw st.
Proof.
  pose proof (refilter_filtered cfg st) as HF. cbn zeta in HF.
  destruct HF as (-> & _). unfold filtered.
  destruct (has_input st).
  - pose proof (refilter_tokens_view cfg (refilter_prepare st)) as HV.
    cbn zeta in HV. destruct HV as (-> & _).
    unfold refilter_prepare. destruct (reload st); reflexivity.
  - unfold refilter_prepare. destruct (reload st); reflexivity.
Qed.

Lemma filter_cons_eq (f : Z -> bool) x l :
  List.filter f (x :: l)
  = if f x then x :: List.filter f l else List.filter f l.
Proof. reflexivity. Qed.

(** When [num_lines + nt] wraps the pass keeps nothing. *)
Lemma refilter_wrapped `{Helper} cfg (st : RofiViewState) :
  has_input st = true -> ready st ->
  2 ^ 32 <= pass_lines st + nt_of (pass_lines st) ->
  filtered_lines (rofi_view_refilter cfg st) = 0
  /\ mapping (rofi_view_refilter cfg st) = [].
Proof.
  intros Hin Hr Hw.
  pose proof (refilter_mapping cfg st Hin Hr) as HM. cbn zeta in HM.
  pose proof (refilter_num_lines cfg st) as Hnl.
  destruct HM as (Hfl & Hlen & Hmap).
  assert (Hk : kept (rofi_view_refilter cfg st) = []).
  { unfold kept. rewrite Hnl. apply make_states_matches_wrapped; [|exact Hw].
    rewrite <- Hnl, <- Hlen.
    destruct (prepare_arrays_ok st Hr) as (Hn & _).
    assert (num_lines (refilter_prepare st) = pass_lines st) as Hp
      by (unfold refilter_prepare, pass_lines; destruct (reload st);
          reflexivity).
    rewrite Hlen, Hnl, <- Hp. exact Hn. }
  rewrite Hk in Hfl, Hmap. split; [exact Hfl|].
  rewrite Hmap.
  destruct (sort cfg); [apply g_qsort_with_data_nil | reflexivity].
Qed.

Lemma fruit_view_ready input : ready (fruit_view input).
Proof.
  right. unfold arrays_ok. cbn.
  repeat split; try reflexivity; vm_compute; congruence.
Qed.

Lemma filter_pass_unsorted_witness :
  sort config_plain = false
  /\ has_input (fruit_view "ap") = true
  /\ ready (fruit_view "ap")
  /\ pass_lines (fruit_view "ap")
     + Z.max 1 (pass_lines (fruit_view "ap") / 500) < 2 ^ 32
  /\ mapping (rofi_view_refilter config_plain (fruit_view "ap")) = [0; 2; 3].
Proof.
  assert (Hr : ready (fruit_view "ap")) by apply fruit_view_ready.
  assert (Hb : pass_lines (fruit_view "ap")
     + Z.max 1 (pass_lines (fruit_view "ap") / 500) < 2 ^ 32)
    by (vm_compute; reflexivity).
  split; [reflexivity|]. split; [reflexivity|]. split; [exact Hr|].
  split; [exact Hb|].
  destruct (filter_pass_unsorted config_plain (fruit_view "ap")
              eq_refl eq_refl Hr Hb) as (Hmap & _).
  rewrite Hmap. vm_compute. reflexivity.
Defined.

Section Partition.
Context `{Helper}.
Implicit Type st : RofiViewState.

Lemma filter_loop_task cfg (ix : list Z) : forall t st,
  let t' := fst (fold_left (filter_step cfg) ix (t, st)) in
  start t' = start t /\ stop t' = stop t.
Proof.
  induction ix as [|i ix IH]; intros t st; cbn [fold_left]; [tauto|].
  pose proof (filter_step_task cfg t st i) as (Hs & Hp & _).
  destruct (filter_step cfg (t, st) i) as [t1 st1]. cbn [fst] in *.
  specialize (IH t1 st1). cbn zeta in IH. intuition congruence.
Qed.

(** Every task runs once, on the chunk it was given. *)
Lemma run_states_tasks cfg ts : forall st,
  map (fun t => (start t, stop t)) (fst (run_states cfg ts st))
  = map (fun t => (start t, stop t)) ts.
Proof.
  induction ts as [|t ts IH]; intros st; cbn [run_states fst map];
    [reflexivity|].
  rewrite IH. unfold filter_elements.
  pose proof (filter_loop_task cfg (chunk_indices t) t st) as (-> & ->).
  reflexivity.
Qed.

(** Where the sum [num_lines + nt] fits in an [unsigned int], the
    partitioner splits as it is meant to: for [1 <= N] with
    [N + max(1, N/500)] below 2^32 it makes [max(1, N/500)] chunks; every
    candidate of [0 .. N-1] lies in exactly one chunk and no chunk reaches
    beyond [N]; the chunks are increasing and, laid end to end, enumerate
    [0 .. N-1]; and run on arrays of [N] slots, each chunk is filtered by
    the one task made for it, which leaves the matching candidates of its
    chunk from slot [start] on and their number in [count]. *)
Theorem partition_covers cfg st n pat pl :
  1 <= n -> n + Z.max 1 (n / 500) < 2 ^ 32 ->
  Z.of_nat (length (make_states n pat pl)) = Z.max 1 (n / 500)
  /\ (forall k, 0 <= k < n ->
        exists i, (0 <= i < Z.max 1 (n / 500)
                   /\ chunk_start n i <= k < chunk_stop n i)
                  /\ forall i', 0 <= i' < Z.max 1 (n / 500) ->
                       chunk_start n i' <= k < chunk_stop n i' -> i' = i)
  /\ (forall i k, 0 <= i < Z.max 1 (n / 500) ->
        chunk_start n i <= k < chunk_stop n i -> 0 <= k < n)
  /\ (forall i i' k k', 0 <= i -> i < i' -> i' < Z.max 1 (n / 500) ->
        chunk_start n i <= k < chunk_stop n i ->
        chunk_start n i' <= k' < chunk_stop n i' -> k < k')
  /\ concat (map chunk_indices (make_states n pat pl)) = seqZ 0 n
  /\ map (fun t => (start t, stop t))
         (fst (run_states cfg (make_states n pat pl) st))
     = map (fun i => (chunk_start n i, chunk_stop n i))
           (seqZ 0 (Z.max 1 (n / 500)))
  /\ (Z.of_nat (length (line_map st)) = n ->
      Forall2
        (stored st (line_map (snd (run_states cfg (make_states n pat pl) st))))
        (make_states n pat pl)
        (fst (run_states cfg (make_states n pat pl) st))).
Proof.
  intros Hn1 Hno. fold (nt_of n) in *.
  assert (Hn : 0 <= n < 2 ^ 32) by (pose proof (nt_of_pos n); lia).
  pose proof (nt_of_pos n) as Hk.
  destruct (steps_of_cases n Hn) as [(_ & _ & Hb) | (Hge & _)]; [|lia].
  assert (Hs : 1 <= steps_of n).
  { destruct (Z_lt_le_dec (steps_of n) 1) as [Hlt | Hge]; [|exact Hge].
    assert (nt_of n * steps_of n <= 0)
      by (apply Z.mul_nonneg_nonpos; lia).
    lia. }
  split; [apply make_states_length|].
  split; [|split; [|split; [|split; [|split]]]].
  - intros k Hk0. exists (k / steps_of n).
    pose proof (Z.div_mod k (steps_of n) ltac:(lia)) as Hdm.
    pose proof (Z.mod_pos_bound k (steps_of n) ltac:(lia)) as Hmb.
    assert (Hq : 0 <= k / steps_of n) by (apply Z.div_pos; lia).
    assert (Hi : k / steps_of n < nt_of n)
      by (apply Z.div_lt_upper_bound; lia).
    split.
    + rewrite chunk_start_eq, chunk_stop_eq by lia. lia.
    + intros i' Hi' Hc. rewrite chunk_start_eq, chunk_stop_eq in Hc by lia.
      apply (Z.div_unique k (steps_of n) i' (k - i' * steps_of n)); lia.
  - intros i k Hi Hc. rewrite chunk_start_eq, chunk_stop_eq in Hc by lia.
    assert (0 <= i * steps_of n) by (apply Z.mul_nonneg_nonneg; lia).
    lia.
  - intros i i' k k' Hi Hii Hi' Hc Hc'.
    rewrite chunk_start_eq, chunk_stop_eq in Hc, Hc' by lia.
    assert ((i + 1) * steps_of n <= i' * steps_of n)
      by (apply Z.mul_le_mono_nonneg_r; lia).
    lia.
  - apply make_states_indices; assumption.
  - rewrite run_states_tasks. unfold make_states. rewrite map_map.
    reflexivity.
  - intros Hlen.
    pose proof (run_states_spec cfg n (make_states n pat pl) st 0) as HR.
    cbn zeta in HR.
    destruct HR as (_ & _ & _ & HF);
      [apply make_states_chained; exact Hn | lia | exact Hlen | lia |].
    exact HF.
Qed.

End Partition.

Lemma partition_covers_witness :
  1 <= 1200
  /\ 1200 + Z.max 1 (1200 / 500) < 2 ^ 32
  /\ map (fun t => (start t, stop t, count t))
         (fst (run_states config_plain (make_states 1200 None 0) big_view))
     = [(0, 601, 201); (601, 1200, 199)]
  /\ Forall2
       (stored big_view
          (line_map (snd (run_states config_plain (make_states 1200 None 0)
                            big_view))))
       (make_states 1200 None 0)
       (fst (run_states config_plain (make_states 1200 None 0) big_view)).
Proof.
  assert (H1 : 1 <= 1200) by lia.
  assert (H2 : 1200 + Z.max 1 (1200 / 500) < 2 ^ 32)
    by (vm_compute; reflexivity).
  split; [exact H1|]. split; [exact H2|].
  destruct (partition_covers config_plain big_view 1200 None 0 H1 H2)
    as (_ & _ & _ & _ & _ & _ & Hrun).
  split; [vm_compute; reflexivity|].
  apply Hrun. vm_compute. reflexivity.
Defined.

(** [C4] has the chunks cover exactly [0 .. N-1] for every [N >= 1].  For
    [UINT32_MAX] candidates the sum [num_lines + nt] wraps: [steps] is 0,
    all the 8589934 chunks are the empty range from 0 to 0, candidate 0 lies
    in none of them, and laid end to end the chunks do not enumerate
    [0 .. N-1]. *)
Lemma partition_wraps :
  1 <= UINT32_MAX
  /\ Z.max 1 (UINT32_MAX / 500) = 8589934
  /\ steps_of UINT32_MAX = 0
  /\ (forall i, chunk_start UINT32_MAX i = 0 /\ chunk_stop UINT32_MAX i = 0)
  /\ ~ (exists i, chunk_start UINT32_MAX i <= 0 < chunk_stop UINT32_MAX i)
  /\ concat (map chunk_indices (make_states UINT32_MAX None 0))
     <> seqZ 0 UINT32_MAX.
Proof.
  assert (Hs : steps_of UINT32_MAX = 0) by (vm_compute; reflexivity).
  assert (Hc : forall i, chunk_start UINT32_MAX i = 0
                         /\ chunk_stop UINT32_MAX i = 0).
  { intros i. unfold chunk_start, chunk_stop. rewrite Hs, !Z.mul_0_r.
    split; reflexivity. }
  split; [unfold UINT32_MAX; lia|]. split; [vm_compute; reflexivity|].
  split; [exact Hs|]. split; [exact Hc|]. split.
  - intros (i & Hi). destruct (Hc i) as (Ha & Hb). lia.
  - rewrite make_states_indices_wrapped.
    + rewrite seqZ_cons by (unfold UINT32_MAX; lia). apply nil_cons.
    + unfold UINT32_MAX. lia.
    + vm_compute. discriminate.
Qed.

Section SortedPass.
Context `{Helper}.
Implicit Type st : RofiViewState.

Lemma prepare_view st :
  sw (refilter_prepare st) = sw st /\ text (refilter_prepare st) = text st
  /\ num_lines (refilter_prepare st) = pass_lines st.
Proof.
  unfold refilter_prepare, pass_lines. destruct (reload st); cbn; tauto.
Qed.

Lemma refilter_tokens_of cfg st :
  has_input st = true ->
  tokens (rofi_view_refilter cfg st)
  = tokenize (mode_preprocess_input (sw st) (textbox_get_text (text st)))
             (case_sensitive cfg).
Proof.
  intros Hin. pose proof (refilter_filtered cfg st) as HF. cbn zeta in HF.
  destruct HF as (_ & _ & -> & _). unfold filtered. rewrite Hin.
  pose proof (refilter_tokens_view cfg (refilter_prepare st)) as HV.
  cbn zeta in HV. destruct HV as (_ & _ & _ & -> & _).
  destruct (prepare_view st) as (-> & -> & _). reflexivity.
Qed.


(** ** The pass over an empty input *)

Lemma identity_loop (len : nat) : forall k (a : list Z),
  0 <= k -> (Z.to_nat k + len <= length a)%nat ->
  fold_left (fun a i => upd a i i) (seqZ k (Z.of_nat len)) a
  = take (Z.to_nat k) a ++ seqZ k (Z.of_nat len)
    ++ drop (Z.to_nat k + len) a.
Proof.
  induction len as [|len IH]; intros k a Hk Hlen.
  - rewrite seqZ_nil by lia. cbn. rewrite Nat.add_0_r, take_drop. reflexivity.
  - rewrite seqZ_cons by lia.
    replace (Z.pred (Z.of_nat (S len))) with (Z.of_nat len) by lia.
    cbn [fold_left]. unfold upd at 2.
    rewrite IH by (rewrite ?length_insert; lia).
    replace (Z.to_nat (Z.succ k)) with (S (Z.to_nat k)) by lia.
    rewrite (take_S_r _ _ k) by (apply list_lookup_insert_eq; lia).
    rewrite take_insert_ge, drop_insert_lt by lia.
    rewrite <- app_assoc. cbn. rewrite Nat.add_succ_r. reflexivity.
Qed.

Lemma refilter_all_spec st :
  arrays_ok st ->
  line_map (refilter_all st) = seqZ 0 (num_lines st)
  /\ filtered_lines (refilter_all st) = num_lines st
  /\ distance (refilter_all st) = distance st
  /\ num_lines (refilter_all st) = num_lines st.
Proof.
  intros (Hn & Hl & _). unfold refilter_all. cbn.
  repeat split.
  rewrite <- (Z2Nat.id (num_lines st)) at 1 by lia.
  rewrite identity_loop by lia. cbn.
  rewrite drop_ge by lia. rewrite app_nil_r, Z2Nat.id by lia. reflexivity.
Qed.

Lemma refilter_all_pass cfg st :
  has_input st = false -> ready st ->
  filtered_lines (rofi_view_refilter cfg st) = pass_lines st
  /\ line_map (rofi_view_refilter cfg st) = seqZ 0 (pass_lines st)
  /\ distance (rofi_view_refilter cfg st) = distance (refilter_prepare st).
Proof.
  intros Hin Hr. pose proof (refilter_filtered cfg st) as HF. cbn zeta in HF.
  destruct HF as (_ & _ & _ & _ & -> & -> & -> & _).
  unfold filtered. rewrite Hin.
  destruct (refilter_all_spec _ (prepare_arrays_ok st Hr))
    as (-> & -> & -> & _).
  destruct (prepare_view st) as (_ & _ & ->). tauto.
Qed.

(** [C3]: a pass over an empty input maps every position to itself and
    counts all [N] candidates, whether sorting is enabled or not and
    whatever the distance table holds, and it leaves the distance table as
    it is. *)
Theorem refilter_empty_input cfg st :
  has_input st = false -> ready st ->
  filtered_lines (rofi_view_refilter cfg st) = pass_lines st
  /\ line_map (rofi_view_refilter cfg st) = seqZ 0 (pass_lines st)
  /\ mapping (rofi_view_refilter cfg st) = seqZ 0 (pass_lines st)
  /\ line_map (rofi_view_refilter (set_sort cfg true) st)
     = seqZ 0 (pass_lines st)
  /\ distance (rofi_view_refilter cfg st) = distance (refilter_prepare st).
Proof.
  intros Hin Hr.
  destruct (refilter_all_pass cfg st Hin Hr) as (Hfl & Hlm & Hd).
  destruct (refilter_all_pass (set_sort cfg true) st Hin Hr) as (_ & Hlm' & _).
  split; [exact Hfl|]. split; [exact Hlm|]. split; [|split; assumption].
  unfold mapping. rewrite Hfl, Hlm. apply take_ge.
  rewrite length_seqZ. lia.
Qed.

(** ** Auto-select *)

Lemma kept_In st i :
  In i (kept st) -> matching st i = true /\ 0 <= i < num_lines st.
Proof.
  unfold kept. rewrite chunk_matches_concat. intros Hi.
  apply List.filter_In in Hi. destruct Hi as (Hi & Hm). split; [exact Hm|].
  apply in_concat in Hi. destruct Hi as (l & Hl & Hi).
  apply in_map_iff in Hl. destruct Hl as (t & <- & Ht).
  eapply make_states_index; eassumption.
Qed.

Lemma refilter_fires cfg st :
  auto_select_fires cfg
    (set_list_view (filtered cfg st)
       (listview_set_num_elements (list_view (filtered cfg st))
          (filtered_lines (filtered cfg st)))) = true ->
  filtered_lines (filtered cfg st) = 1 ->
  quit (rofi_view_refilter cfg st) = true
  /\ retv (rofi_view_refilter cfg st) = plain MENU_OK
  /\ selected_line (rofi_view_refilter cfg st)
     = at_ (line_map (filtered cfg st)) 0.
Proof.
  intros Hf Hone. unfold rofi_view_refilter. cbn zeta.
  rewrite prepare_has_input.
  change (if has_input st
          then refilter_tokens cfg (refilter_prepare st)
          else refilter_all (refilter_prepare st)) with (filtered cfg st).
  rewrite Hf. cbn. repeat split. rewrite Hone.
  unfold at_, listview_set_num_elements, listview_set_selected,
    listview_get_selected. cbn.
  replace (Z.to_nat (Z.min (lv_selected (list_view (filtered cfg st)))
                            (1 - 1)))
    with (Z.to_nat 0) by lia.
  reflexivity.
Qed.

(** [C5]: when auto-select is enabled and a pass leaves one candidate out
    of more than one, the pass itself ends the view with the OK outcome and
    the index of that candidate, the one candidate that matches. *)
Theorem auto_select_commits cfg st :
  auto_select cfg = true -> ready st ->
  filtered_lines (rofi_view_refilter cfg st) = 1 ->
  1 < num_lines (rofi_view_refilter cfg st) ->
  quit (rofi_view_refilter cfg st) = true
  /\ retv (rofi_view_refilter cfg st) = plain MENU_OK
  /\ selected_line (rofi_view_refilter cfg st)
     = at_ (line_map (rofi_view_refilter cfg st)) 0
  /\ mapping (rofi_view_refilter cfg st)
     = [selected_line (rofi_view_refilter cfg st)]
  /\ matching (rofi_view_refilter cfg st)
              (selected_line (rofi_view_refilter cfg st)) = true
  /\ 0 <= selected_line (rofi_view_refilter cfg st)
       < num_lines (rofi_view_refilter cfg st).
Proof.
  intros Ha Hr Hone Hmany.
  pose proof (refilter_filtered cfg st) as HF. cbn zeta in HF.
  destruct HF as (_ & _ & _ & Hnl & Hfl & Hlm & _).
  assert (Hone' : filtered_lines (filtered cfg st) = 1) by congruence.
  assert (Hin : has_input st = true).
  { destruct (has_input st) eqn:E; [reflexivity|].
    destruct (refilter_all_pass cfg st E Hr) as (Hf & _).
    rewrite refilter_num_lines in Hmany. lia. }
  assert (Hout : quit (rofi_view_refilter cfg st) = true
                 /\ retv (rofi_view_refilter cfg st) = plain MENU_OK
                 /\ selected_line (rofi_view_refilter cfg st)
                    = at_ (line_map (rofi_view_refilter cfg st)) 0).
  { rewrite Hlm. apply refilter_fires; [|exact Hone'].
    unfold auto_select_fires. cbn [filtered_lines num_lines set_list_view].
    rewrite Ha, <- Hfl, <- Hnl, Hone. cbn.
    apply Z.ltb_lt. exact Hmany. }
  destruct Hout as (Hq & Hrv & Hsel).
  pose proof (refilter_mapping cfg st Hin Hr) as HM. cbn zeta in HM.
  destruct HM as (Hk & Hlen & Hmap).
  (* the mapping is the one kept candidate *)
  destruct (kept (rofi_view_refilter cfg st)) as [|x [|y l]] eqn:Ek;
    cbn [length] in Hk; try lia.
  assert (Hmx : mapping (rofi_view_refilter cfg st) = [x])
    by (rewrite Hmap; destruct (sort cfg); [rewrite Hone|]; reflexivity).
  assert (Hx : at_ (line_map (rofi_view_refilter cfg st)) 0 = x).
  { unfold mapping in Hmx. rewrite Hone in Hmx.
    apply (f_equal (fun l => l !! 0%nat)) in Hmx.
    rewrite lookup_take_lt in Hmx by lia.
    unfold at_. change (Z.to_nat 0) with 0%nat. rewrite Hmx. reflexivity. }
  rewrite Hsel, Hx.
  destruct (kept_In (rofi_view_refilter cfg st) x) as (Hm & Hrange);
    [rewrite Ek; left; reflexivity|].
  repeat split; try assumption; lia.
Qed.

(** ** The distance table *)

(** [C10]: a pass over a non-empty input writes the distance table only
    when sorting is enabled and only at the indices of candidates that
    matched; every other entry is the one the table had when the pass
    began, which is 0 throughout when the pass reallocated the arrays. *)
Theorem distance_frame cfg st :
  has_input st = true ->
  length (distance (rofi_view_refilter cfg st))
  = length (distance (refilter_prepare st))
  /\ (sort cfg = false ->
      distance (rofi_view_refilter cfg st) = distance (refilter_prepare st))
  /\ (forall n : nat,
        distance (rofi_view_refilter cfg st) !! n
        <> distance (refilter_prepare st) !! n ->
        sort cfg = true
        /\ Z.of_nat n < num_lines (rofi_view_refilter cfg st)
        /\ matching (rofi_view_refilter cfg st) (Z.of_nat n) = true)
  /\ (reload st = false -> distance (refilter_prepare st) = distance st)
  /\ (reload st = true ->
      distance (refilter_prepare st)
      = replicate (Z.to_nat (pass_lines st)) 0).
Proof.
  intros Hin.
  pose proof (refilter_filtered cfg st) as HF. cbn zeta in HF.
  destruct HF as (Hsw & _ & Htok & Hnl & _ & _ & Hd & _).
  unfold filtered in *. rewrite Hin in *.
  set (p := refilter_prepare st) in *.
  pose proof (refilter_tokens_view cfg p) as HV. cbn zeta in HV.
  destruct HV as (HVsw & _ & HVn & HVt & _).
  rewrite Hd, Hnl, HVn.
  unfold refilter_tokens in Hd |- *. cbn zeta in *.
  set (pat := mode_preprocess_input (sw p) (textbox_get_text (text p))) in *.
  set (pl := match pat with Some q => g_utf8_strlen q | None => 0 end) in *.
  set (p0 := set_tokens p (tokenize pat (case_sensitive cfg))) in *.
  change (num_lines p0) with (num_lines p).
  cbn [distance set_filtered_lines set_line_map].
  pose proof (run_states_distance cfg (make_states (num_lines p) pat pl) p0)
    as HD. cbn zeta in HD. change (distance p0) with (distance p) in HD.
  destruct HD as (HDl & HDf & HDn).
  split; [exact HDl|]. split; [exact HDf|]. split; [|split].
  - intros n Hne. destruct (HDn n Hne) as (Hs & t & i & Ht & Hi & Hm & Hni).
    pose proof (make_states_index _ _ _ _ _ Ht Hi) as Hr.
    split; [exact Hs|]. replace (Z.of_nat n) with i by lia.
    split; [lia|]. rewrite <- Hm. unfold matching.
    rewrite Hsw, Htok, HVsw, HVt. reflexivity.
  - intros Hrl. subst p. unfold refilter_prepare. rewrite Hrl. reflexivity.
  - intros Hrl. subst p. unfold refilter_prepare, pass_lines. rewrite Hrl.
    reflexivity.
Qed.

End SortedPass.

Lemma refilter_empty_input_witness :
  has_input (fruit_view "") = false
  /\ ready (fruit_view "")
  /\ filtered_lines (rofi_view_refilter config_sort (fruit_view "")) = 5
  /\ line_map (rofi_view_refilter config_sort (fruit_view ""))
     = [0; 1; 2; 3; 4].
Proof.
  destruct (refilter_empty_input config_sort (fruit_view "") eq_refl
              (fruit_view_ready "")) as (Hfl & Hlm & _).
  split; [reflexivity|]. split; [apply fruit_view_ready|].
  split; [exact Hfl | exact Hlm].
Defined.

Lemma auto_select_commits_witness :
  auto_select config_auto = true
  /\ ready (fruit_view "ki")
  /\ filtered_lines (rofi_view_refilter config_auto (fruit_view "ki")) = 1
  /\ 1 < num_lines (rofi_view_refilter config_auto (fruit_view "ki"))
  /\ quit (rofi_view_refilter config_auto (fruit_view "ki")) = true
  /\ retv (rofi_view_refilter config_auto (fruit_view "ki")) = plain MENU_OK
  /\ selected_line (rofi_view_refilter config_auto (fruit_view "ki")) = 4.
Proof.
  assert (H1 : filtered_lines
                 (rofi_view_refilter config_auto (fruit_view "ki")) = 1)
    by (vm_compute; reflexivity).
  assert (H2 : 1 < num_lines (rofi_view_refilter config_auto (fruit_view "ki")))
    by (vm_compute; reflexivity).
  destruct (auto_select_commits config_auto (fruit_view "ki") eq_refl
              (fruit_view_ready "ki") H1 H2) as (Hq & Hr & Hs & _).
  split; [reflexivity|]. split; [apply fruit_view_ready|].
  split; [exact H1|]. split; [exact H2|]. split; [exact Hq|].
  split; [exact Hr|]. rewrite Hs. vm_compute. reflexivity.
Defined.

Lemma distance_frame_witness :
  has_input (fruit_view "i") = true
  /\ distance (refilter_prepare (fruit_view "i")) = [0; 0; 0; 0; 0]
  /\ distance (rofi_view_refilter config_sort (fruit_view "i"))
     = [0; 0; 0; 8; 3]
  /\ distance (rofi_view_refilter config_plain (fruit_view "i"))
     = distance (refilter_prepare (fruit_view "i")).
Proof.
  destruct (distance_frame config_plain (fruit_view "i") eq_refl)
    as (_ & Hoff & _).
  split; [reflexivity|]. split; [reflexivity|].
  split; [vm_compute; reflexivity | apply Hoff; reflexivity].
Defined.

Section Actions.
Context `{Helper}.
Implicit Type st : RofiViewState.

(** [C6]: the accept action ends the view; with the cursor on a row of the
    filtered mapping the outcome is OK with the candidate under the cursor,
    otherwise it is CUSTOM_INPUT with no candidate ([UINT32_MAX]). *)
Theorem accept_entry_outcome cfg st :
  fst (rofi_view_trigger_action cfg st ACCEPT_ENTRY) = (true, cfg)
  /\ quit (snd (rofi_view_trigger_action cfg st ACCEPT_ENTRY)) = true
  /\ (retv (snd (rofi_view_trigger_action cfg st ACCEPT_ENTRY)),
      selected_line (snd (rofi_view_trigger_action cfg st ACCEPT_ENTRY)))
     = (if listview_get_selected (list_view st) <? filtered_lines st
        then (plain MENU_OK,
              at_ (line_map st) (listview_get_selected (list_view st)))
        else (plain MENU_CUSTOM_INPUT, UINT32_MAX))
  /\ line_map (snd (rofi_view_trigger_action cfg st ACCEPT_ENTRY))
     = line_map st
  /\ list_view (snd (rofi_view_trigger_action cfg st ACCEPT_ENTRY))
     = list_view st.
Proof.
  cbn [rofi_view_trigger_action fst snd]. unfold accept_selected.
  cbn [filtered_lines line_map set_selected_line].
  destruct (listview_get_selected (list_view st) <? filtered_lines st);
    cbn; repeat split.
Qed.

(** [C8]: the delete-entry action, with the cursor on a row of the
    filtered mapping, ends the view with ENTRY_DELETE and the candidate
    under the cursor; with the cursor out of range it reports that it does
    not apply and leaves the view and the configuration as they are. *)
Theorem delete_entry_outcome cfg st :
  if listview_get_selected (list_view st) <? filtered_lines st
  then fst (rofi_view_trigger_action cfg st DELETE_ENTRY) = (true, cfg)
       /\ quit (snd (rofi_view_trigger_action cfg st DELETE_ENTRY)) = true
       /\ retv (snd (rofi_view_trigger_action cfg st DELETE_ENTRY))
          = plain MENU_ENTRY_DELETE
       /\ selected_line (snd (rofi_view_trigger_action cfg st DELETE_ENTRY))
          = at_ (line_map st) (listview_get_selected (list_view st))
       /\ line_map (snd (rofi_view_trigger_action cfg st DELETE_ENTRY))
          = line_map st
       /\ filtered_lines (snd (rofi_view_trigger_action cfg st DELETE_ENTRY))
          = filtered_lines st
       /\ list_view (snd (rofi_view_trigger_action cfg st DELETE_ENTRY))
          = list_view st
  else rofi_view_trigger_action cfg st DELETE_ENTRY = (false, cfg, st).
Proof.
  cbn [rofi_view_trigger_action].
  destruct (listview_get_selected (list_view st) <? filtered_lines st).
  - cbn. repeat split.
  - reflexivity.
Qed.

Lemma next_position_eq st :
  rofi_view_get_next_position st
  = if uint (listview_get_selected (list_view st) + 1) <? num_lines st
    then at_ (line_map st) (uint (listview_get_selected (list_view st) + 1))
    else selected_line st.
Proof. reflexivity. Qed.

(** ** Tab *)

(** The three cases of [rofi_view_nav_row_tab], by the fields of the view. *)
Lemma rofi_view_nav_row_tab_cases st :
  let st' := rofi_view_nav_row_tab st in
  if filtered_lines st =? 1 then
    quit st' = true /\ retv st' = plain MENU_OK
    /\ selected_line st'
       = at_ (line_map st) (listview_get_selected (list_view st))
    /\ prev_action st' = prev_action st
  else if (filtered_lines st =? 0) && is_ROW_TAB (prev_action st) then
    quit st' = true /\ retv st' = plain MENU_NEXT /\ selected_line st' = 0
    /\ prev_action st' = ROW_TAB
  else
    quit st' = quit st /\ retv st' = retv st
    /\ selected_line st' = selected_line st
    /\ list_view st' = listview_nav_down (list_view st)
    /\ prev_action st' = ROW_TAB.
Proof.
  unfold rofi_view_nav_row_tab. cbn zeta.
  destruct (filtered_lines st =? 1); [cbn; repeat split|].
  destruct ((filtered_lines st =? 0) && is_ROW_TAB (prev_action st));
    cbn; repeat split.
Qed.

End Actions.

(** [C9]: the next position is [line_map[selected + 1]] whenever
    [selected + 1] is below [num_lines], whatever [filtered_lines] is, and
    the stored [selected_line] otherwise; so with [selected + 1] at or
    beyond [filtered_lines] it is a slot past the filtered mapping: after
    the passes for "ap" and then "ki" over the fruits, the mapping is [4]
    and the next position is 2, left there by the first pass. *)
Theorem next_position_ignores_filtered :
  (forall (H : Helper) (st : RofiViewState) (f : Z),
     rofi_view_get_next_position (set_filtered_lines st f)
     = if uint (listview_get_selected (list_view st) + 1) <? num_lines st
       then at_ (line_map st) (uint (listview_get_selected (list_view st) + 1))
       else selected_line st)
  /\ mapping fruit_view_retyped = [4]
  /\ line_map fruit_view_retyped = [4; 2; 3; 0; 0]
  /\ listview_get_selected (list_view fruit_view_retyped) = 0
  /\ filtered_lines fruit_view_retyped = 1
  /\ num_lines fruit_view_retyped = 5
  /\ rofi_view_get_next_position fruit_view_retyped = 2
  /\ matching fruit_view_retyped 2 = false.
Proof.
  split; [intros H st f; reflexivity|]. vm_compute. repeat split.
Qed.

Section TabHistory.
Context `{Helper}.
Implicit Type st : RofiViewState.

(** No action changes the number of filtered rows; only a pass does. *)
Lemma trigger_action_filtered_lines cfg st a :
  filtered_lines (snd (rofi_view_trigger_action cfg st a)) = filtered_lines st.
Proof.
  destruct a; cbn [rofi_view_trigger_action snd]; try reflexivity;
    unfold rofi_view_nav_row_tab, rofi_view_nav_row_select,
      rofi_view_nav_first, rofi_view_nav_last, accept_selected;
    cbn [filtered_lines set_selected_line];
    repeat match goal with
           | |- context [if ?c then _ else _] => destruct c
           end; reflexivity.
Qed.

(** [prev_action] is written by the Tab action alone: every other action
    leaves in it whatever an earlier Tab stored. *)
Lemma trigger_action_prev_action cfg st a :
  is_ROW_TAB a = false ->
  prev_action (snd (rofi_view_trigger_action cfg st a)) = prev_action st.
Proof.
  intros Ha. destruct a; try discriminate Ha;
    cbn [rofi_view_trigger_action snd]; try reflexivity;
    unfold rofi_view_nav_row_select, rofi_view_nav_first,
      rofi_view_nav_last, accept_selected;
    cbn [filtered_lines set_selected_line];
    repeat match goal with
           | |- context [if ?c then _ else _] => destruct c
           end; reflexivity.
Qed.

(** With an empty result set, Tab, then any other action [a], then Tab
    switches to the next mode, although the action before the second Tab
    was [a]. *)
Lemma tab_escape_after_any_action cfg st a :
  filtered_lines st = 0 -> is_ROW_TAB a = false ->
  let st3 := snd (run_actions cfg st [ROW_TAB; a; ROW_TAB]) in
  quit st3 = true /\ retv st3 = plain MENU_NEXT /\ selected_line st3 = 0.
Proof.
  intros Hf Ha. unfold run_actions. cbn [fold_left fst snd].
  assert (Hp1 : prev_action (snd (rofi_view_trigger_action cfg st ROW_TAB))
                = ROW_TAB
                /\ filtered_lines (snd (rofi_view_trigger_action cfg st ROW_TAB))
                   = 0).
  { cbn [rofi_view_trigger_action snd].
    unfold rofi_view_nav_row_tab. rewrite Hf. cbn [Z.eqb andb].
    destruct (is_ROW_TAB (prev_action st)); cbn; tauto. }
  destruct Hp1 as (Hp1 & Hf1).
  remember (rofi_view_trigger_action cfg st ROW_TAB) as r1 eqn:E1.
  clear E1.
  remember (rofi_view_trigger_action (snd (fst r1)) (snd r1) a) as r2 eqn:E2.
  assert (Hp2 : prev_action (snd r2) = ROW_TAB)
    by (subst r2; rewrite trigger_action_prev_action; assumption).
  assert (Hf2 : filtered_lines (snd r2) = 0)
    by (subst r2; rewrite trigger_action_filtered_lines; assumption).
  clear E2.
  cbn [rofi_view_trigger_action snd]. unfold rofi_view_nav_row_tab.
  rewrite Hf2, Hp2. cbn. tauto.
Qed.

End TabHistory.

(** [C7], on a run where the code departs from the double-tab rule: over
    an empty result set the actions Tab, Up, Tab end the view with NEXT_MODE
    and candidate 0, although the action immediately before the last Tab
    was Up, for which the rule has Tab move the cursor and go on. *)
Theorem tab_after_row_up :
  filtered_lines (rofi_view_refilter config_plain (fruit_view "zz")) = 0
  /\ is_ROW_TAB
       (prev_action (rofi_view_refilter config_plain (fruit_view "zz")))
     = false
  /\ quit (snd (run_actions config_plain
                  (rofi_view_refilter config_plain (fruit_view "zz"))
                  [ROW_TAB])) = false
  /\ quit (snd (run_actions config_plain
                  (rofi_view_refilter config_plain (fruit_view "zz"))
                  [ROW_TAB; ROW_UP])) = false
  /\ quit (snd (run_actions config_plain
                  (rofi_view_refilter config_plain (fruit_view "zz"))
                  [ROW_TAB; ROW_UP; ROW_TAB])) = true
  /\ retv (snd (run_actions config_plain
                  (rofi_view_refilter config_plain (fruit_view "zz"))
                  [ROW_TAB; ROW_UP; ROW_TAB])) = plain MENU_NEXT
  /\ selected_line
       (snd (run_actions config_plain
               (rofi_view_refilter config_plain (fruit_view "zz"))
               [ROW_TAB; ROW_UP; ROW_TAB])) = 0.
Proof. vm_compute. repeat split. Qed.

(** ** The scores a pass stores *)

Lemma write_scores_ext (f g : Z -> Z) ix d :
  (forall i, f i = g i) -> write_scores f ix d = write_scores g ix d.
Proof.
  intros Hfg. unfold write_scores. revert d.
  induction ix as [|i ix IH]; intros d; cbn; [reflexivity|].
  rewrite Hfg. apply IH.
Qed.

Lemma write_scores_length f ix d : length (write_scores f ix d) = length d.
Proof.
  unfold write_scores. revert d.
  induction ix as [|i ix IH]; intros d; cbn; [reflexivity|].
  rewrite IH. unfold upd. apply length_insert.
Qed.

Lemma write_scores_app f ix jx d :
  write_scores f (ix ++ jx) d = write_scores f jx (write_scores f ix d).
Proof. unfold write_scores. apply fold_left_app. Qed.

(** An index that is written holds its score afterwards. *)
Lemma write_scores_at f ix d i :
  In i ix -> (forall j, In j ix -> 0 <= j) ->
  (Z.to_nat i < length d)%nat ->
  at_ (write_scores f ix d) i = f i.
Proof.
  revert d. induction ix as [|j ix IH] using rev_ind; intros d Hi Hpos Hlen;
    [destruct Hi|].
  rewrite write_scores_app. cbn. unfold at_, upd.
  destruct (Z.eq_dec j i) as [-> | Hne].
  - rewrite list_lookup_insert_eq by (rewrite write_scores_length; lia).
    reflexivity.
  - assert (Hj : 0 <= j) by (apply Hpos, in_or_app; right; left; reflexivity).
    assert (Hi0 : 0 <= i) by (apply Hpos, Hi).
    rewrite list_lookup_insert_ne by lia.
    apply in_app_or in Hi. destruct Hi as [Hi | [Hi | []]]; [|congruence].
    apply (IH d Hi); [|exact Hlen].
    intros k Hk. apply Hpos, in_or_app. left; exact Hk.
Qed.

(** An index that is not written keeps its entry. *)
Lemma write_scores_other f ix d (n : nat) :
  (forall j, In j ix -> Z.to_nat j <> n) ->
  write_scores f ix d !! n = d !! n.
Proof.
  revert d. induction ix as [|j ix IH]; intros d Hn; [reflexivity|].
  cbn. change (fold_left _ ix ?x) with (write_scores f ix x).
  rewrite IH by (intros k Hk; apply Hn; right; exact Hk).
  unfold upd. apply list_lookup_insert_ne. apply Hn. left; reflexivity.
Qed.

Section Scores.
Context `{Helper}.
Implicit Type st : RofiViewState.

Lemma score_same_view cfg st st' t t' i :
  same_view st st' -> pattern t' = pattern t -> plen t' = plen t ->
  score cfg st' t' i = score cfg st t i.
Proof.
  intros (Hsw & _) Hp Hl. unfold score. rewrite Hsw, Hp, Hl. reflexivity.
Qed.

(** The distance table after the loop of one task. *)
Lemma filter_loop_scores cfg (ix : list Z) : forall t st,
  distance (snd (fold_left (filter_step cfg) ix (t, st)))
  = if sort cfg
    then write_scores (score cfg st t) (List.filter (matching st) ix)
                      (distance st)
    else distance st.
Proof.
  induction ix as [|i ix IH]; intros t st.
  - cbn. destruct (sort cfg); reflexivity.
  - cbn [fold_left List.filter].
    pose proof (filter_step_same_view cfg t st i) as Hsv.
    pose proof (filter_step_task cfg t st i) as (_ & _ & Hp & Hl).
    destruct (filter_step cfg (t, st) i) as [t1 st1] eqn:E.
    cbn [fst snd] in *. rewrite IH.
    assert (HF : List.filter (matching st1) ix = List.filter (matching st) ix)
      by (apply filter_ext; intros a; apply same_view_matching, Hsv).
    rewrite HF.
    rewrite (write_scores_ext (score cfg st1 t1) (score cfg st t))
      by (intros a; apply score_same_view; assumption).
    unfold filter_step in E; cbn [fst snd] in E. fold (matching st i) in E.
    destruct (matching st i).
    + destruct (sort cfg); inversion E; subst; reflexivity.
    + inversion E; subst. reflexivity.
Qed.

Lemma run_states_scores cfg (f : Z -> Z) ts : forall st,
  Forall (fun t => forall i, score cfg st t i = f i) ts ->
  distance (snd (run_states cfg ts st))
  = if sort cfg
    then write_scores f (concat (map (chunk_matches st) ts)) (distance st)
    else distance st.
Proof.
  induction ts as [|t ts IH]; intros st Hf.
  - cbn. destruct (sort cfg); reflexivity.
  - inversion Hf as [|? ? Ht Hts]; subst.
    cbn [run_states snd map concat].
    pose proof (filter_loop_same_view cfg (chunk_indices t) t st) as Hsv.
    fold (filter_elements cfg t st) in Hsv.
    set (st1 := snd (filter_elements cfg t st)) in *.
    specialize (IH st1).
    assert (Hsc : forall u i, score cfg st1 u i = score cfg st u i)
      by (intros u i; apply score_same_view; [exact Hsv | reflexivity
                                             | reflexivity]).
    rewrite IH.
    2:{ eapply Forall_impl; [exact Hts|]. cbn. intros u Hu i.
        rewrite !Hsc. apply Hu. }
    subst st1.
    assert (Hd1 : distance (snd (filter_elements cfg t st))
                  = if sort cfg
                    then write_scores (score cfg st t) (chunk_matches st t)
                                      (distance st)
                    else distance st)
      by (unfold filter_elements; apply filter_loop_scores).
    rewrite Hd1.
    destruct (sort cfg); [|reflexivity].
    rewrite write_scores_app.
    replace (map (chunk_matches (snd (filter_elements cfg t st))) ts)
      with (map (chunk_matches st) ts)
      by (apply map_ext; intros u; symmetry;
          apply same_view_chunk_matches, Hsv).
    rewrite (write_scores_ext (score cfg st t) f) by exact Ht.
    reflexivity.
Qed.

(** With sorting on, the distance table holds, for every candidate of the
    mapping, the score of the candidate against the pattern of the pass. *)
Theorem pass_stores_scores cfg st i :
  sort cfg = true -> has_input st = true -> ready st ->
  In i (mapping (rofi_view_refilter cfg st)) ->
  at_ (distance (rofi_view_refilter cfg st)) i = pass_score cfg st i.
Proof.
  intros Hs Hin Hr Hi.
  pose proof (refilter_mapping cfg st Hin Hr) as HM. cbn zeta in HM.
  destruct HM as (_ & _ & Hmap). rewrite Hs in Hmap. rewrite Hmap in Hi.
  apply (Permutation_in _ (g_qsort_with_data_perm _ _ _)) in Hi.
  pose proof (refilter_filtered cfg st) as HF. cbn zeta in HF.
  destruct HF as (Hsw & _ & Htok & Hnl & _ & _ & Hd & _).
  unfold filtered in *. rewrite Hin in *.
  pose proof (prepare_arrays_ok st Hr) as (Hn & _ & Hdl).
  destruct (prepare_view st) as (Hpsw & Hptx & Hpn).
  set (p := refilter_prepare st) in *.
  pose proof (refilter_tokens_view cfg p) as HV. cbn zeta in HV.
  destruct HV as (HVsw & _ & HVn & HVt & _).
  assert (Hk : kept (rofi_view_refilter cfg st)
               = kept (set_tokens p (tokenize
                    (mode_preprocess_input (sw p) (textbox_get_text (text p)))
                    (case_sensitive cfg)))).
  { unfold kept. rewrite Hnl, HVn. cbn [num_lines set_tokens]. f_equal.
    apply map_ext. intros t. unfold chunk_matches. apply filter_ext.
    intros a. unfold matching. rewrite Hsw, Htok, HVsw, HVt. reflexivity. }
  rewrite Hd. unfold refilter_tokens. cbn zeta.
  set (pat := mode_preprocess_input (sw p) (textbox_get_text (text p))) in *.
  set (pl := match pat with Some q => g_utf8_strlen q | None => 0 end) in *.
  set (p0 := set_tokens p (tokenize pat (case_sensitive cfg))) in *.
  cbn [distance set_filtered_lines set_line_map].
  rewrite (run_states_scores cfg
             (fun a => score cfg p0 (mkThread 0 0 0 pat pl) a)).
  2:{ unfold make_states. apply List.Forall_forall. intros t Ht.
      apply in_map_iff in Ht. destruct Ht as (k & <- & _). reflexivity. }
  rewrite Hs, kept_any_pattern. fold (kept p0) in Hk. rewrite <- Hk.
  rewrite write_scores_at.
  - unfold pass_score, score. subst pat pl p0. cbn [sw set_tokens].
    rewrite Hpsw, Hptx. reflexivity.
  - exact Hi.
  - intros j Hj. apply kept_In in Hj. lia.
  - apply kept_In in Hi. destruct Hi as (_ & Hi).
    change (distance p0) with (distance p). rewrite Hdl.
    rewrite Hnl, HVn in Hi. lia.
Qed.

End Scores.

(** ** The order of the tasks

    The pool runs the tasks of a pass in parallel; each writes its own
    slots only.  Whatever the order in which they run, the arrays end up
    the same. *)

Lemma list_inserts_splice p seg (a : list Z) :
  fits p seg a -> list_inserts p seg a = splice p seg a.
Proof.
  intros [-> | Hp]; [rewrite splice_nil; reflexivity|]. unfold splice.
  rewrite <- (take_drop p a) at 1.
  replace p with (length (take p a) + 0)%nat at 1
    by (rewrite length_take; lia).
  rewrite list_inserts_app_r. f_equal.
  rewrite <- (take_drop (length seg) (drop p a)) at 1.
  rewrite list_inserts_0_r by (rewrite length_take, length_drop; lia).
  rewrite drop_drop. reflexivity.
Qed.

Lemma list_inserts_apart (F G : list Z) : forall (a b : nat) (l : list Z),
  (a + length F <= b)%nat ->
  list_inserts a F (list_inserts b G l)
  = list_inserts b G (list_inserts a F l).
Proof.
  induction F as [|x F IH]; intros a b l Hab; [reflexivity|].
  cbn [list_inserts length] in *.
  rewrite IH by lia. apply list_insert_inserts_lt. lia.
Qed.

Lemma splice_apart (F G : list Z) (a b : nat) (l : list Z) :
  fits a F l -> fits b G l ->
  (a + length F <= b)%nat \/ (b + length G <= a)%nat ->
  splice a F (splice b G l) = splice b G (splice a F l).
Proof.
  intros HF HG Hab.
  assert (HF' : fits a F (splice b G l)).
  { destruct HF as [-> | HF]; [left; reflexivity | right].
    rewrite splice_length by assumption. exact HF. }
  assert (HG' : fits b G (splice a F l)).
  { destruct HG as [-> | HG]; [left; reflexivity | right].
    rewrite splice_length by assumption. exact HG. }
  rewrite <- (list_inserts_splice a F (splice b G l)) by assumption.
  rewrite <- (list_inserts_splice b G (splice a F l)) by assumption.
  rewrite <- (list_inserts_splice b G l) by assumption.
  rewrite <- (list_inserts_splice a F l) by assumption.
  destruct Hab as [Hab | Hab].
  - apply list_inserts_apart, Hab.
  - symmetry. apply list_inserts_apart, Hab.
Qed.

Lemma upd_write_scores g jx : forall (d : list Z) i v,
  (forall j, In j jx -> Z.to_nat j <> Z.to_nat i) ->
  upd (write_scores g jx d) i v = write_scores g jx (upd d i v).
Proof.
  induction jx as [|j jx IH]; intros d i v Hne; [reflexivity|].
  cbn. change (fold_left _ jx ?x) with (write_scores g jx x).
  rewrite IH by (intros k Hk; apply Hne; right; exact Hk).
  f_equal. unfold upd. apply list_insert_insert_ne.
  intros E. apply (Hne j); [left; reflexivity | symmetry; exact E].
Qed.

Lemma write_scores_apart f g ix jx : forall d : list Z,
  (forall i j, In i ix -> In j jx -> Z.to_nat j <> Z.to_nat i) ->
  write_scores f ix (write_scores g jx d)
  = write_scores g jx (write_scores f ix d).
Proof.
  induction ix as [|i ix IH]; intros d Hne; [reflexivity|].
  cbn. change (fold_left _ ix ?x) with (write_scores f ix x).
  rewrite upd_write_scores
    by (intros j Hj; apply (Hne i j); [left; reflexivity | exact Hj]).
  apply IH. intros a b Ha Hb. apply Hne; [right; exact Ha | exact Hb].
Qed.

Lemma apart_sym t u : apart t u -> apart u t.
Proof. unfold apart. tauto. Qed.

Lemma apart_perm l l' :
  Permutation l l' -> ForallOrdPairs apart l -> ForallOrdPairs apart l'.
Proof.
  induction 1 as [|x l l' Hp IH|x y l|l l' l'' H1 IH1 H2 IH2]; intros HF.
  - constructor.
  - inversion HF as [|? ? Hx Hl]; subst. constructor; [|apply IH, Hl].
    eapply Permutation_Forall; eassumption.
  - inversion HF as [|? ? Hy Hl]; subst.
    inversion Hl as [|? ? Hx Hl']; subst.
    inversion Hy as [|? ? Hyx Hy']; subst.
    constructor; [constructor; [apply apart_sym, Hyx | exact Hx]|].
    constructor; assumption.
  - apply IH2, IH1, HF.
Qed.

Lemma chained_runnable lo n ts :
  chained lo n ts -> 0 <= lo ->
  Forall (runnable n) ts /\ ForallOrdPairs apart ts.
Proof.
  revert lo. induction ts as [|t ts IH]; intros lo Hch Hlo.
  - split; constructor.
  - cbn in Hch. destruct Hch as (Hlt & Hp & Hc & Hrest).
    destruct (IH _ Hrest ltac:(lia)) as (IHr & IHa).
    split; constructor; try assumption.
    + unfold runnable. lia.
    + eapply Forall_impl; [apply (chained_starts _ _ _ Hrest)|].
      cbn. intros u Hu. left. exact Hu.
Qed.

Section Order.
Context `{Helper}.
Implicit Type st : RofiViewState.

Lemma state_ext st st' :
  same_view st st' -> line_map st' = line_map st ->
  distance st' = distance st -> st' = st.
Proof.
  unfold same_view. destruct st, st'; cbn.
  intros (? & ? & ? & ? & ? & ? & ? & ? & ? & ? & ? & ?) ? ?.
  subst. reflexivity.
Qed.

(** What one task does to the view. *)
Lemma filter_elements_state cfg t st :
  runnable (Z.of_nat (length (line_map st))) t ->
  Z.of_nat (length (line_map st)) < 2 ^ 32 ->
  snd (filter_elements cfg t st)
  = set_distance
      (set_line_map st
         (splice (Z.to_nat (start t)) (chunk_matches st t) (line_map st)))
      (if sort cfg
       then write_scores (score cfg st t) (chunk_matches st t) (distance st)
       else distance st).
Proof.
  intros (Hs & Hp & Hc) Hmax.
  pose proof (filter_elements_spec cfg t st Hs Hc Hp Hmax) as HE.
  cbn zeta in HE. destruct HE as (_ & _ & _ & Hsv & Hlm).
  apply state_ext.
  - destruct Hsv as (? & ? & ? & ? & ? & ? & ? & ? & ? & ? & ? & ?).
    unfold same_view. cbn. repeat split; congruence.
  - rewrite Hlm. reflexivity.
  - unfold filter_elements. rewrite filter_loop_scores. reflexivity.
Qed.

(** Two tasks on chunks that are apart can run in either order. *)
Lemma filter_elements_apart cfg t u st :
  runnable (Z.of_nat (length (line_map st))) t ->
  runnable (Z.of_nat (length (line_map st))) u ->
  apart t u -> Z.of_nat (length (line_map st)) < 2 ^ 32 ->
  snd (filter_elements cfg u (snd (filter_elements cfg t st)))
  = snd (filter_elements cfg t (snd (filter_elements cfg u st))).
Proof.
  intros Ht Hu Hap Hmax.
  pose proof (chunk_matches_length st t) as Hlt.
  pose proof (chunk_matches_length st u) as Hlu.
  assert (Hft : fits (Z.to_nat (start t)) (chunk_matches st t) (line_map st))
    by (destruct Ht as (? & ? & ?); apply chunk_matches_fits; assumption).
  assert (Hfu : fits (Z.to_nat (start u)) (chunk_matches st u) (line_map st))
    by (destruct Hu as (? & ? & ?); apply chunk_matches_fits; assumption).
  assert (Hgen : forall a b, runnable (Z.of_nat (length (line_map st))) a ->
            fits (Z.to_nat (start a)) (chunk_matches st a) (line_map st) ->
            runnable (Z.of_nat (length (line_map st))) b ->
            snd (filter_elements cfg b (snd (filter_elements cfg a st)))
            = set_distance
                (set_line_map st
                   (splice (Z.to_nat (start b)) (chunk_matches st b)
                      (splice (Z.to_nat (start a)) (chunk_matches st a)
                         (line_map st))))
                (if sort cfg
                 then write_scores (score cfg st b) (chunk_matches st b)
                        (write_scores (score cfg st a) (chunk_matches st a)
                           (distance st))
                 else distance st)).
  { intros a b Ha Hfa Hb.
    rewrite (filter_elements_state cfg a st Ha Hmax).
    set (st1 := set_distance _ _).
    assert (Hsv : same_view st st1) by (unfold same_view; cbn; tauto).
    assert (Hl1 : length (line_map st1) = length (line_map st))
      by (cbn; apply splice_length, Hfa).
    rewrite filter_elements_state by (rewrite Hl1; assumption).
    rewrite (same_view_chunk_matches st st1 b Hsv).
    rewrite (write_scores_ext (score cfg st1 b) (score cfg st b))
      by (intros i; apply score_same_view; [exact Hsv | reflexivity
                                           | reflexivity]).
    subst st1. cbn. destruct (sort cfg); reflexivity. }
  rewrite (Hgen t u Ht Hft Hu), (Hgen u t Hu Hfu Ht).
  f_equal.
  - f_equal. apply splice_apart; try assumption.
    destruct Ht as (? & ? & ?), Hu as (? & ? & ?).
    destruct Hap as [Hap | Hap]; [right | left]; lia.
  - destruct (sort cfg); [|reflexivity].
    apply write_scores_apart. intros i j Hi Hj.
    apply List.filter_In in Hi, Hj. destruct Hi as (Hi & _), Hj as (Hj & _).
    unfold chunk_indices in Hi, Hj.
    apply list_elem_of_In, elem_of_seqZ in Hi, Hj.
    destruct Ht as (? & ? & ?), Hu as (? & ? & ?).
    destruct Hap as [Hap | Hap]; lia.
Qed.

Lemma filter_elements_length cfg t st :
  runnable (Z.of_nat (length (line_map st))) t ->
  Z.of_nat (length (line_map st)) < 2 ^ 32 ->
  length (line_map (snd (filter_elements cfg t st))) = length (line_map st).
Proof.
  intros Ht Hmax. rewrite filter_elements_state by assumption. cbn.
  destruct Ht as (? & ? & ?).
  apply splice_length, chunk_matches_fits; assumption.
Qed.

(** The tasks of a pass, run in any order, leave the same view. *)
Theorem run_states_any_order cfg ts ts' :
  Permutation ts ts' -> forall st,
  Forall (runnable (Z.of_nat (length (line_map st)))) ts ->
  ForallOrdPairs apart ts ->
  Z.of_nat (length (line_map st)) < 2 ^ 32 ->
  snd (run_states cfg ts' st) = snd (run_states cfg ts st).
Proof.
  induction 1 as [|x l l' Hp IH|x y l|l l' l'' H1 IH1 H2 IH2];
    intros st Hr Ha Hmax.
  - reflexivity.
  - inversion Hr as [|? ? Hx Hl]; subst. inversion Ha as [|? ? _ Hal]; subst.
    cbn [run_states snd]. apply IH.
    + rewrite filter_elements_length by assumption. exact Hl.
    + exact Hal.
    + rewrite filter_elements_length by assumption. exact Hmax.
  - inversion Hr as [|? ? Hy Hl]; subst. inversion Hl as [|? ? Hx Hl']; subst.
    inversion Ha as [|? ? Hay _]; subst.
    inversion Hay as [|? ? Hyx _]; subst.
    cbn [run_states snd].
    rewrite (filter_elements_apart cfg x y st); try assumption.
    + reflexivity.
    + apply apart_sym, Hyx.
  - rewrite IH2.
    + apply IH1; assumption.
    + eapply Permutation_Forall; eassumption.
    + eapply apart_perm; eassumption.
    + exact Hmax.
Qed.

(** The tasks of a pass may run in any order: whatever the order in which
    the chunks [rofi_view_refilter] makes are filtered, the view they leave,
    arrays included, is the one the chunk order leaves. *)
Corollary make_states_any_order cfg st pat pl ts' :
  arrays_ok st ->
  Permutation (make_states (num_lines st) pat pl) ts' ->
  snd (run_states cfg ts' st)
  = snd (run_states cfg (make_states (num_lines st) pat pl) st).
Proof.
  intros (Hn & Hl & _) Hp.
  destruct (chained_runnable 0 (num_lines st)
              (make_states (num_lines st) pat pl)) as (Hr & Ha);
    [apply make_states_chained; exact Hn | lia |].
  apply run_states_any_order; try assumption.
  - rewrite Hl, Z2Nat.id by lia. exact Hr.
  - rewrite Hl, Z2Nat.id by lia. lia.
Qed.

End Order.

(** ** Invariants of the view *)

Section Invariants.
Context `{Helper}.
Implicit Type st : RofiViewState.

Lemma view_before_first_pass_ready sw0 tb lv prev0 :
  arrays_ok (view_before_first_pass sw0 tb lv prev0).
Proof.
  unfold arrays_ok, view_before_first_pass. cbn.
  pose proof (uint_range (mode_get_num_entries sw0)).
  rewrite !length_replicate. tauto.
Qed.

Lemma refilter_distance_length cfg st :
  has_input st = true ->
  length (distance (rofi_view_refilter cfg st))
  = length (distance (refilter_prepare st)).
Proof.
  intros Hin. pose proof (refilter_filtered cfg st) as HF. cbn zeta in HF.
  destruct HF as (_ & _ & _ & _ & _ & _ & -> & _).
  unfold filtered. rewrite Hin. unfold refilter_tokens. cbn zeta.
  cbn [distance set_filtered_lines set_line_map].
  match goal with
  | |- context [run_states cfg ?ts ?s] =>
      destruct (run_states_distance cfg ts s) as (Hl & _)
  end.
  rewrite Hl. reflexivity.
Qed.

(** A pass leaves arrays of one slot per candidate. *)
Lemma refilter_arrays_ok cfg st :
  ready st -> arrays_ok (rofi_view_refilter cfg st).
Proof.
  intros Hr. pose proof (prepare_arrays_ok st Hr) as (Hn & Hl & Hd).
  destruct (prepare_view st) as (_ & _ & Hpn).
  unfold arrays_ok. rewrite refilter_num_lines, <- Hpn.
  split; [exact Hn|].
  destruct (has_input st) eqn:Hin.
  - destruct (refilter_mapping cfg st Hin Hr) as (_ & Hlen & _).
    rewrite refilter_num_lines, <- Hpn in Hlen.
    pose proof (refilter_distance_length cfg st Hin) as Hdl.
    split; [lia | congruence].
  - destruct (refilter_all_pass cfg st Hin Hr) as (_ & -> & ->).
    rewrite length_seqZ, <- Hpn. split; [reflexivity | exact Hd].
Qed.

(** No action touches the arrays or the number of candidates. *)
Lemma trigger_action_arrays cfg st a :
  let st' := snd (rofi_view_trigger_action cfg st a) in
  num_lines st' = num_lines st /\ line_map st' = line_map st
  /\ distance st' = distance st.
Proof.
  destruct a; cbn [rofi_view_trigger_action snd];
    unfold rofi_view_nav_row_tab, rofi_view_nav_row_select,
      rofi_view_nav_first, rofi_view_nav_last, accept_selected;
    cbn [filtered_lines set_selected_line];
    repeat match goal with
           | |- context [if ?c then _ else _] => destruct c
           end; cbn; repeat split.
Qed.

Lemma trigger_action_arrays_ok cfg st a :
  arrays_ok st -> arrays_ok (snd (rofi_view_trigger_action cfg st a)).
Proof.
  unfold arrays_ok. pose proof (trigger_action_arrays cfg st a) as HA.
  cbn zeta in HA. destruct HA as (-> & -> & ->). tauto.
Qed.

(** The chunks of a pass have no index twice. *)
Lemma make_states_NoDup n pat pl :
  0 <= n < 2 ^ 32 ->
  List.NoDup (concat (map chunk_indices (make_states n pat pl))).
Proof.
  intros Hn. destruct (steps_of_cases n Hn) as [(Hno & _) | (Hw & _)].
  - rewrite make_states_indices by assumption.
    apply NoDup_ListNoDup, NoDup_seqZ.
  - rewrite make_states_indices_wrapped by assumption. constructor.
Qed.

(** What every pass over a non-empty input ensures, wrap-around or not:
    the mapping has no index twice, its entries are candidates that match,
    and it is no longer than the candidate list. *)
Theorem mapping_sound cfg st :
  has_input st = true -> ready st ->
  List.NoDup (mapping (rofi_view_refilter cfg st))
  /\ (forall i, In i (mapping (rofi_view_refilter cfg st)) ->
        0 <= i < num_lines (rofi_view_refilter cfg st)
        /\ matching (rofi_view_refilter cfg st) i = true)
  /\ 0 <= filtered_lines (rofi_view_refilter cfg st)
       <= num_lines (rofi_view_refilter cfg st).
Proof.
  intros Hin Hr.
  pose proof (refilter_mapping cfg st Hin Hr) as HM. cbn zeta in HM.
  destruct HM as (Hfl & Hlen & Hmap).
  pose proof (refilter_arrays_ok cfg st Hr) as (Hn & _).
  set (st' := rofi_view_refilter cfg st) in *.
  assert (Hperm : Permutation (mapping st') (kept st')).
  { rewrite Hmap.
    destruct (sort cfg); [apply g_qsort_with_data_perm | reflexivity]. }
  assert (Hnd : List.NoDup (kept st')).
  { unfold kept. rewrite chunk_matches_concat.
    apply List.NoDup_filter, make_states_NoDup, Hn. }
  split; [|split].
  - eapply Permutation_NoDup; [symmetry; exact Hperm | exact Hnd].
  - intros i Hi. apply (Permutation_in _ Hperm) in Hi.
    apply kept_In in Hi. tauto.
  - split; [lia|]. rewrite Hfl.
    assert (Hincl : incl (kept st') (seqZ 0 (num_lines st'))).
    { intros i Hi. apply kept_In in Hi.
      apply list_elem_of_In, elem_of_seqZ. lia. }
    pose proof (List.NoDup_incl_length Hnd Hincl) as Hle.
    rewrite length_seqZ in Hle. lia.
Qed.

End Invariants.

Example fruit_view_first_pass :
  mapping (rofi_view_create config_plain fruit_mode "ap"%string
             (mkListview 0 0 0 1) PASTE_PRIMARY) = [0; 2; 3].
Proof. vm_compute. reflexivity. Qed.

Example fruit_view_scores :
  distance (rofi_view_refilter config_sort (fruit_view "ap"))
  = [3; 0; 3; 7; 0].
Proof. vm_compute. reflexivity. Qed.

(** ** What every pass ensures *)

Section Passes.
Context `{Helper}.
Implicit Type st : RofiViewState.

(** The filter proper leaves the outcome, the history and the flags, and
    ends with no reload pending. *)
Lemma filtered_frame cfg st :
  selected_line (filtered cfg st) = selected_line st
  /\ retv (filtered cfg st) = retv st /\ quit (filtered cfg st) = quit st
  /\ prev_action (filtered cfg st) = prev_action st
  /\ text (filtered cfg st) = text st /\ sw (filtered cfg st) = sw st
  /\ reload (filtered cfg st) = false.
Proof.
  assert (Hp : selected_line (refilter_prepare st) = selected_line st
               /\ retv (refilter_prepare st) = retv st
               /\ quit (refilter_prepare st) = quit st
               /\ prev_action (refilter_prepare st) = prev_action st
               /\ text (refilter_prepare st) = text st
               /\ sw (refilter_prepare st) = sw st
               /\ reload (refilter_prepare st) = false).
  { unfold refilter_prepare. destruct (reload st) eqn:Hr; cbn; tauto. }
  destruct Hp as (H1 & H2 & H3 & H4 & H5 & H6 & H7).
  unfold filtered. destruct (has_input st).
  - pose proof (refilter_tokens_view cfg (refilter_prepare st)) as HV.
    cbn zeta in HV.
    destruct HV as (V1 & V2 & _ & _ & V5 & V6 & V7 & _ & V9 & V10 & _).
    rewrite V1, V2, V5, V6, V7, V9, V10. tauto.
  - unfold refilter_all. cbn. tauto.
Qed.

(** The pass, with the filter proper folded. *)
Lemma refilter_unfold cfg st :
  rofi_view_refilter cfg st
  = set_refilter
      (if auto_select_fires cfg
            (set_list_view (filtered cfg st)
               (listview_set_num_elements (list_view (filtered cfg st))
                  (filtered_lines (filtered cfg st))))
       then set_quit
              (set_retv
                 (set_selected_line
                    (set_list_view (filtered cfg st)
                       (listview_set_num_elements
                          (list_view (filtered cfg st))
                          (filtered_lines (filtered cfg st))))
                    (at_ (line_map (filtered cfg st))
                       (listview_get_selected
                          (listview_set_num_elements
                             (list_view (filtered cfg st))
                             (filtered_lines (filtered cfg st))))))
                 (plain MENU_OK))
              true
       else set_list_view (filtered cfg st)
              (listview_set_num_elements (list_view (filtered cfg st))
                 (filtered_lines (filtered cfg st))))
      false.
Proof.
  unfold rofi_view_refilter, filtered. cbn zeta.
  rewrite prepare_has_input. reflexivity.
Qed.

Lemma refilter_flags cfg st :
  refilter (rofi_view_refilter cfg st) = false
  /\ reload (rofi_view_refilter cfg st) = false
  /\ text (rofi_view_refilter cfg st) = text st
  /\ prev_action (rofi_view_refilter cfg st) = prev_action st.
Proof.
  rewrite refilter_unfold.
  destruct (filtered_frame cfg st) as (_ & _ & _ & Hp & Ht & _ & Hr).
  destruct (auto_select_fires _ _); cbn; tauto.
Qed.

(** The mapping of a pass, empty input or not, wrap-around or not. *)
Lemma refilter_mapping_NoDup cfg st :
  ready st ->
  List.NoDup (mapping (rofi_view_refilter cfg st))
  /\ (forall i, In i (mapping (rofi_view_refilter cfg st)) ->
        0 <= i < num_lines (rofi_view_refilter cfg st))
  /\ 0 <= filtered_lines (rofi_view_refilter cfg st)
       <= num_lines (rofi_view_refilter cfg st).
Proof.
  intros Hr. destruct (has_input st) eqn:Hin.
  - destruct (mapping_sound cfg st Hin Hr) as (Hnd & Hi & Hfl).
    split; [exact Hnd | split; [|exact Hfl]].
    intros i Hi'. apply Hi in Hi'. tauto.
  - destruct (refilter_all_pass cfg st Hin Hr) as (Hfl & Hlm & _).
    pose proof (refilter_arrays_ok cfg st Hr) as (Hn & _).
    rewrite refilter_num_lines in *.
    assert (Hmap : mapping (rofi_view_refilter cfg st)
                   = seqZ 0 (pass_lines st)).
    { unfold mapping. rewrite Hfl, Hlm. apply take_ge.
      rewrite length_seqZ. lia. }
    rewrite Hmap, Hfl. split; [|split].
    + apply NoDup_ListNoDup, NoDup_seqZ.
    + intros i Hi. apply list_elem_of_In, elem_of_seqZ in Hi. lia.
    + lia.
Qed.

(** Whatever the view was, if it can be filtered at all, a pass leaves it
    well formed, empty input or not, wrap-around or not: one slot per
    candidate in both arrays, a mapping without repetition whose entries
    are candidate indices, that match when there is an input, no more rows
    than candidates, and no filter request or reload pending. *)
Theorem pass_invariant cfg st :
  ready st ->
  arrays_ok (rofi_view_refilter cfg st)
  /\ num_lines (rofi_view_refilter cfg st) = pass_lines st
  /\ List.NoDup (mapping (rofi_view_refilter cfg st))
  /\ (forall i, In i (mapping (rofi_view_refilter cfg st)) ->
        0 <= i < num_lines (rofi_view_refilter cfg st))
  /\ (has_input st = true ->
      forall i, In i (mapping (rofi_view_refilter cfg st)) ->
        matching (rofi_view_refilter cfg st) i = true)
  /\ 0 <= filtered_lines (rofi_view_refilter cfg st)
       <= num_lines (rofi_view_refilter cfg st)
  /\ refilter (rofi_view_refilter cfg st) = false
  /\ reload (rofi_view_refilter cfg st) = false.
Proof.
  intros Hr.
  destruct (refilter_mapping_NoDup cfg st Hr) as (Hnd & Hi & Hfl).
  destruct (refilter_flags cfg st) as (Hrf & Hrl & _).
  pose proof (refilter_arrays_ok cfg st Hr) as Hok.
  pose proof (refilter_num_lines cfg st) as Hn.
  assert (Hm : has_input st = true ->
            forall i, In i (mapping (rofi_view_refilter cfg st)) ->
              matching (rofi_view_refilter cfg st) i = true).
  { intros Hin i Hi'.
    destruct (mapping_sound cfg st Hin Hr) as (_ & Hs & _).
    apply Hs, Hi'. }
  tauto.
Qed.

(** The outcome of the view after a pass: as it was, or that of
    auto-select. *)
Lemma refilter_outcome cfg st :
  (quit (rofi_view_refilter cfg st) = quit st
   /\ retv (rofi_view_refilter cfg st) = retv st
   /\ selected_line (rofi_view_refilter cfg st) = selected_line st)
  \/ (auto_select cfg = true
      /\ filtered_lines (rofi_view_refilter cfg st) = 1
      /\ 1 < num_lines (rofi_view_refilter cfg st)
      /\ quit (rofi_view_refilter cfg st) = true
      /\ retv (rofi_view_refilter cfg st) = plain MENU_OK).
Proof.
  destruct (filtered_frame cfg st) as (F1 & F2 & F3 & _).
  rewrite refilter_unfold.
  destruct (auto_select_fires _ _) eqn:Hf.
  - right. unfold auto_select_fires in Hf.
    apply andb_true_iff in Hf. destruct Hf as (Hf & Hlt).
    apply andb_true_iff in Hf. destruct Hf as (Ha & Hone).
    cbn in Hone, Hlt. apply Z.eqb_eq in Hone. apply Z.ltb_lt in Hlt.
    cbn. tauto.
  - left. cbn. tauto.
Qed.

(** A pass never touches the entry box, the provider or the recorded
    action, and it changes the outcome of the view only by auto-select: if
    the completion flag, the outcome or the selected candidate differ after
    a pass, auto-select is on, one candidate out of more than one is left,
    and the view is completed with the OK outcome. *)
Theorem refilter_outcome_only_auto_select cfg st :
  text (rofi_view_refilter cfg st) = text st
  /\ sw (rofi_view_refilter cfg st) = sw st
  /\ prev_action (rofi_view_refilter cfg st) = prev_action st
  /\ ((quit (rofi_view_refilter cfg st) <> quit st
       \/ retv (rofi_view_refilter cfg st) <> retv st
       \/ selected_line (rofi_view_refilter cfg st) <> selected_line st) ->
      auto_select cfg = true
      /\ filtered_lines (rofi_view_refilter cfg st) = 1
      /\ 1 < num_lines (rofi_view_refilter cfg st)
      /\ quit (rofi_view_refilter cfg st) = true
      /\ retv (rofi_view_refilter cfg st) = plain MENU_OK).
Proof.
  destruct (refilter_flags cfg st) as (_ & _ & Ht & Hp).
  pose proof (refilter_sw cfg st) as Hsw.
  split; [exact Ht|]. split; [exact Hsw|]. split; [exact Hp|].
  intros Hdiff.
  destruct (refilter_outcome cfg st) as [(Q1 & Q2 & Q3) | Hauto].
  - exfalso. destruct Hdiff as [D | [D | D]]; apply D; assumption.
  - exact Hauto.
Qed.

End Passes.

Lemma pass_invariant_witness :
  ready (fruit_view "ap")
  /\ arrays_ok (rofi_view_refilter config_sort (fruit_view "ap"))
  /\ mapping (rofi_view_refilter config_sort (fruit_view "ap")) = [0; 2; 3]
  /\ List.NoDup (mapping (rofi_view_refilter config_sort (fruit_view "ap"))).
Proof.
  pose proof (pass_invariant config_sort (fruit_view "ap")
                (fruit_view_ready "ap")) as (Hok & _ & Hnd & _).
  split; [apply fruit_view_ready|].
  split; [exact Hok|]. split; [vm_compute; reflexivity | exact Hnd].
Defined.

Lemma refilter_outcome_only_auto_select_witness :
  (quit (rofi_view_refilter config_auto (fruit_view "ki"))
   <> quit (fruit_view "ki")
   \/ retv (rofi_view_refilter config_auto (fruit_view "ki"))
      <> retv (fruit_view "ki")
   \/ selected_line (rofi_view_refilter config_auto (fruit_view "ki"))
      <> selected_line (fruit_view "ki"))
  /\ filtered_lines (rofi_view_refilter config_auto (fruit_view "ki")) = 1
  /\ retv (rofi_view_refilter config_auto (fruit_view "ki")) = plain MENU_OK
  /\ prev_action (rofi_view_refilter config_auto (fruit_view "ki"))
     = prev_action (fruit_view "ki").
Proof.
  assert (Hd : quit (rofi_view_refilter config_auto (fruit_view "ki"))
               <> quit (fruit_view "ki")
               \/ retv (rofi_view_refilter config_auto (fruit_view "ki"))
                  <> retv (fruit_view "ki")
               \/ selected_line
                    (rofi_view_refilter config_auto (fruit_view "ki"))
                  <> selected_line (fruit_view "ki")).
  { left. vm_compute. discriminate. }
  destruct (refilter_outcome_only_auto_select config_auto (fruit_view "ki"))
    as (_ & _ & Hprev & Hauto).
  destruct (Hauto Hd) as (_ & Hone & _ & _ & Hret).
  split; [exact Hd|]. split; [exact Hone|]. split; [exact Hret | exact Hprev].
Defined.

(** ** The distance table of a pass *)

Lemma write_scores_lookup (f : Z -> Z) (ix : list Z) : forall (d : list Z) (n : nat),
  (forall j, In j ix -> 0 <= j) ->
  write_scores f ix d !! n
  = if existsb (fun j => Z.to_nat j =? n)%nat ix
    then (if (n <? length d)%nat then Some (f (Z.of_nat n)) else None)
    else d !! n.
Proof.
  induction ix as [|i ix IH]; intros d n Hpos; [reflexivity|].
  change (write_scores f (i :: ix) d)
    with (write_scores f ix (upd d i (f i))).
  rewrite IH by (intros j Hj; apply Hpos; right; exact Hj).
  cbn [existsb]. unfold upd. rewrite length_insert.
  destruct (existsb _ ix) eqn:Hex.
  - rewrite orb_true_r. reflexivity.
  - rewrite orb_false_r.
    destruct (Nat.eqb_spec (Z.to_nat i) n) as [E | E].
    + subst n. assert (0 <= i) by (apply Hpos; left; reflexivity).
      rewrite Z2Nat.id by lia.
      destruct (Nat.ltb_spec (Z.to_nat i) (length d)) as [L | L].
      * apply list_lookup_insert_eq. exact L.
      * rewrite list_insert_ge by lia. apply lookup_ge_None_2. lia.
    + apply list_lookup_insert_ne. exact E.
Qed.

(** Writing the same scores twice is writing them once. *)
Lemma write_scores_idem (f : Z -> Z) (ix d : list Z) :
  (forall j, In j ix -> 0 <= j) ->
  write_scores f ix (write_scores f ix d) = write_scores f ix d.
Proof.
  intros Hpos. apply list_eq. intros n.
  rewrite (write_scores_lookup f ix (write_scores f ix d)) by exact Hpos.
  rewrite write_scores_length.
  rewrite (write_scores_lookup f ix d n) by exact Hpos.
  destruct (existsb _ ix); reflexivity.
Qed.

Lemma StronglySorted_on {A : Type} (R R' : A -> A -> Prop) (l : list A) :
  (forall x y, In x l -> In y l -> R x y -> R' x y) ->
  StronglySorted R l -> StronglySorted R' l.
Proof.
  intros HR Hs. induction Hs as [|a l Hs IH Ha]; constructor.
  - apply IH. intros x y Hx Hy. apply HR; right; assumption.
  - apply List.Forall_forall. intros y Hy.
    apply HR; [left; reflexivity | right; exact Hy |].
    rewrite List.Forall_forall in Ha. apply Ha, Hy.
Qed.

Section Distances.
Context `{Helper}.
Implicit Type st : RofiViewState.

(** The views of one provider and one input have the same scores. *)
Lemma pass_score_ext cfg st st' i :
  sw st' = sw st -> text st' = text st ->
  pass_score cfg st' i = pass_score cfg st i.
Proof.
  intros Hsw Ht. unfold pass_score, score. rewrite Hsw, Ht. reflexivity.
Qed.

(** The distance table after a pass over a non-empty input: the table the
    pass starts from, with the score of every kept candidate written. *)
Lemma refilter_distance cfg st :
  has_input st = true -> ready st ->
  distance (rofi_view_refilter cfg st)
  = if sort cfg
    then write_scores (pass_score cfg st) (kept (rofi_view_refilter cfg st))
                      (distance (refilter_prepare st))
    else distance (refilter_prepare st).
Proof.
  intros Hin Hr.
  pose proof (refilter_filtered cfg st) as HF. cbn zeta in HF.
  destruct HF as (Hsw & _ & Htok & Hnl & _ & _ & Hd & _).
  unfold filtered in *. rewrite Hin in *.
  destruct (prepare_view st) as (Hpsw & Hptx & Hpn).
  set (p := refilter_prepare st) in *.
  pose proof (refilter_tokens_view cfg p) as HV. cbn zeta in HV.
  destruct HV as (HVsw & _ & HVn & HVt & _).
  assert (Hk : kept (rofi_view_refilter cfg st)
               = kept (set_tokens p (tokenize
                    (mode_preprocess_input (sw p) (textbox_get_text (text p)))
                    (case_sensitive cfg)))).
  { unfold kept. rewrite Hnl, HVn. cbn [num_lines set_tokens]. f_equal.
    apply map_ext. intros t. unfold chunk_matches. apply filter_ext.
    intros a. unfold matching. rewrite Hsw, Htok, HVsw, HVt. reflexivity. }
  rewrite Hd. unfold refilter_tokens. cbn zeta.
  set (pat := mode_preprocess_input (sw p) (textbox_get_text (text p))) in *.
  set (pl := match pat with Some q => g_utf8_strlen q | None => 0 end) in *.
  set (p0 := set_tokens p (tokenize pat (case_sensitive cfg))) in *.
  cbn [distance set_filtered_lines set_line_map].
  rewrite (run_states_scores cfg
             (fun a => score cfg p0 (mkThread 0 0 0 pat pl) a)).
  2:{ unfold make_states. apply List.Forall_forall. intros t Ht.
      apply in_map_iff in Ht. destruct Ht as (k & <- & _). reflexivity. }
  destruct (sort cfg); [|reflexivity].
  rewrite kept_any_pattern. fold (kept p0) in Hk. rewrite <- Hk.
  change (distance p0) with (distance p).
  apply write_scores_ext. intros i.
  unfold pass_score, score. subst pat pl p0. cbn [sw set_tokens].
  rewrite Hpsw, Hptx. reflexivity.
Qed.

(** Below 2^31 candidates the sort covers the whole mapping, and the
    entries are the same as [int] and as [unsigned int]. *)
Lemma refilter_mapping_sorted cfg st :
  sort cfg = true -> has_input st = true -> ready st ->
  pass_lines st < 2 ^ 31 ->
  mapping (rofi_view_refilter cfg st)
  = fold_right (sort_insert (lev_sort (distance (rofi_view_refilter cfg st))))
      [] (kept (rofi_view_refilter cfg st))
  /\ int_entries (kept (rofi_view_refilter cfg st)).
Proof.
  intros Hs Hin Hr Hb.
  pose proof (refilter_mapping cfg st Hin Hr) as HM. cbn zeta in HM.
  destruct HM as (Hfl & _ & Hmap). rewrite Hs in Hmap.
  destruct (mapping_sound cfg st Hin Hr) as (_ & _ & Hle).
  rewrite refilter_num_lines in Hle.
  split.
  - rewrite Hmap, sint_small
      by (change (2 ^ 31) with 2147483648 in *; lia).
    apply g_qsort_with_data_all. lia.
  - intros x Hx. apply kept_In in Hx. rewrite refilter_num_lines in Hx. lia.
Qed.

(** With sorting on, the rows of a pass over fewer than 2^31 candidates
    are in ascending order of the score of their candidates against the
    input, and the distance table holds that score for every row.  The
    scores are taken to lie within [-2^30, 2^30), so that their differences
    fit the [int] that [lev_sort] returns; the bound on the candidates is
    the range in which [lev_sort] reads the entries of the mapping as they
    are. *)
Theorem rows_sorted_by_score cfg st :
  sort cfg = true -> has_input st = true -> ready st ->
  pass_lines st < 2 ^ 31 ->
  (forall i, 0 <= i < pass_lines st ->
     - 2 ^ 30 <= pass_score cfg st i < 2 ^ 30) ->
  StronglySorted (fun x y => pass_score cfg st x <= pass_score cfg st y)
    (mapping (rofi_view_refilter cfg st))
  /\ forall i, In i (mapping (rofi_view_refilter cfg st)) ->
       at_ (distance (rofi_view_refilter cfg st)) i = pass_score cfg st i.
Proof.
  intros Hs Hin Hr Hlt Hb.
  assert (Hsc : forall i, In i (mapping (rofi_view_refilter cfg st)) ->
            at_ (distance (rofi_view_refilter cfg st)) i = pass_score cfg st i)
    by (intros i Hi; apply pass_stores_scores; assumption).
  split; [|exact Hsc].
  destruct (mapping_sound cfg st Hin Hr) as (_ & Hrange & _).
  destruct (refilter_mapping_sorted cfg st Hs Hin Hr Hlt) as (Hmap & Hent).
  assert (Hperm : Permutation (kept (rofi_view_refilter cfg st))
                              (mapping (rofi_view_refilter cfg st)))
    by (rewrite Hmap; symmetry; apply sort_perm).
  assert (Hnw : no_wrap (distance (rofi_view_refilter cfg st))
                        (kept (rofi_view_refilter cfg st))).
  { intros x y Hx Hy.
    apply (Permutation_in _ Hperm) in Hx, Hy.
    rewrite (Hsc x Hx), (Hsc y Hy).
    apply Hrange in Hx, Hy. rewrite refilter_num_lines in Hx, Hy.
    pose proof (Hb x (proj1 Hx)) as Bx. pose proof (Hb y (proj1 Hy)) as By.
    change (2 ^ 30) with 1073741824 in *.
    change (2 ^ 31) with 2147483648. lia. }
  pose proof (sort_ascending _ _ Hent Hnw) as Hasc. rewrite <- Hmap in Hasc.
  unfold ascending in Hasc.
  eapply StronglySorted_on; [|exact Hasc].
  intros x y Hx Hy Hle. cbn beta in Hle.
  rewrite (Hsc x Hx), (Hsc y Hy) in Hle. exact Hle.
Qed.

(** A second pass with nothing changed in between gives the rows, their
    number and the distance table of the first. *)
Theorem refilter_twice cfg st :
  ready st ->
  mapping (rofi_view_refilter cfg (rofi_view_refilter cfg st))
  = mapping (rofi_view_refilter cfg st)
  /\ filtered_lines (rofi_view_refilter cfg (rofi_view_refilter cfg st))
     = filtered_lines (rofi_view_refilter cfg st)
  /\ distance (rofi_view_refilter cfg (rofi_view_refilter cfg st))
     = distance (rofi_view_refilter cfg st)
  /\ num_lines (rofi_view_refilter cfg (rofi_view_refilter cfg st))
     = num_lines (rofi_view_refilter cfg st).
Proof.
  intros Hr.
  pose proof (refilter_arrays_ok cfg st Hr) as Hok1.
  destruct (refilter_flags cfg st) as (_ & Hrl & Ht & _).
  pose proof (refilter_sw cfg st) as Hsw.
  set (st1 := rofi_view_refilter cfg st) in *.
  assert (Hr1 : ready st1) by (right; exact Hok1).
  assert (Hpl : pass_lines st1 = num_lines st1)
    by (unfold pass_lines; rewrite Hrl; reflexivity).
  assert (Hin1 : has_input st1 = has_input st)
    by (unfold has_input; rewrite Ht; reflexivity).
  assert (Hpd : distance (refilter_prepare st1) = distance st1)
    by (unfold refilter_prepare; rewrite Hrl; reflexivity).
  assert (Hn2 : num_lines (rofi_view_refilter cfg st1) = num_lines st1)
    by (rewrite refilter_num_lines; exact Hpl).
  destruct (has_input st) eqn:Hin.
  - pose proof (refilter_mapping cfg st Hin Hr) as HM1. cbn zeta in HM1.
    fold st1 in HM1. destruct HM1 as (Hfl1 & _ & Hmap1).
    pose proof (refilter_mapping cfg st1 Hin1 Hr1) as HM2. cbn zeta in HM2.
    destruct HM2 as (Hfl2 & _ & Hmap2).
    assert (Hk : kept (rofi_view_refilter cfg st1) = kept st1).
    { unfold kept. rewrite Hn2. f_equal. apply map_ext. intros t.
      unfold chunk_matches. apply filter_ext. intros i. unfold matching.
      pose proof (refilter_tokens_of cfg st Hin) as Htok1. fold st1 in Htok1.
      rewrite refilter_sw, (refilter_tokens_of cfg st1 Hin1), Htok1, Hsw, Ht.
      reflexivity. }
    assert (Hd : distance (rofi_view_refilter cfg st1) = distance st1).
    { rewrite (refilter_distance cfg st1 Hin1 Hr1), Hpd, Hk.
      destruct (sort cfg) eqn:Hs; [|reflexivity].
      rewrite (write_scores_ext (pass_score cfg st1) (pass_score cfg st))
        by (intros i; apply pass_score_ext; assumption).
      pose proof (refilter_distance cfg st Hin Hr) as Hd1.
      fold st1 in Hd1. rewrite Hs in Hd1. rewrite Hd1.
      apply write_scores_idem.
      intros j Hj. apply kept_In in Hj. lia. }
    rewrite Hmap2, Hmap1, Hfl2, Hfl1, Hk, Hd. tauto.
  - destruct (refilter_all_pass cfg st Hin Hr) as (Hfl1 & Hlm1 & _).
    fold st1 in Hfl1, Hlm1.
    destruct (refilter_all_pass cfg st1 Hin1 Hr1) as (Hfl2 & Hlm2 & Hd2).
    pose proof (refilter_num_lines cfg st) as Hn1. fold st1 in Hn1.
    unfold mapping. rewrite Hn2, Hfl2, Hlm2, Hd2, Hpd, Hfl1, Hlm1, Hpl, Hn1.
    repeat split; reflexivity.
Qed.

End Distances.

Lemma rows_sorted_by_score_witness :
  sort config_sort = true
  /\ has_input (fruit_view "i") = true
  /\ pass_lines (fruit_view "i") < 2 ^ 31
  /\ mapping (rofi_view_refilter config_sort (fruit_view "i")) = [4; 3]
  /\ pass_score config_sort (fruit_view "i") 4 = 3
  /\ pass_score config_sort (fruit_view "i") 3 = 8
  /\ StronglySorted
       (fun x y => pass_score config_sort (fruit_view "i") x
                   <= pass_score config_sort (fruit_view "i") y)
       (mapping (rofi_view_refilter config_sort (fruit_view "i"))).
Proof.
  assert (Hb : forall i, 0 <= i < pass_lines (fruit_view "i") ->
             - 2 ^ 30 <= pass_score config_sort (fruit_view "i") i < 2 ^ 30).
  { intros i Hi. change (pass_lines (fruit_view "i")) with 5 in Hi.
    assert (Hc : i = 0 \/ i = 1 \/ i = 2 \/ i = 3 \/ i = 4) by lia.
    destruct Hc as [-> | [-> | [-> | [-> | ->]]]];
      (split; [apply Z.leb_le | apply Z.ltb_lt]); vm_compute; reflexivity. }
  assert (Hlt : pass_lines (fruit_view "i") < 2 ^ 31)
    by (apply Z.ltb_lt; vm_compute; reflexivity).
  pose proof (rows_sorted_by_score config_sort (fruit_view "i") eq_refl
                eq_refl (fruit_view_ready "i") Hlt Hb) as (Hsorted & _).
  split; [reflexivity|]. split; [reflexivity|]. split; [exact Hlt|].
  split; [vm_compute; reflexivity|].
  split; [vm_compute; reflexivity|].
  split; [vm_compute; reflexivity|]. exact Hsorted.
Defined.

Lemma refilter_twice_witness :
  ready (fruit_view "ap")
  /\ mapping (rofi_view_refilter config_sort (fruit_view "ap")) = [0; 2; 3]
  /\ mapping (rofi_view_refilter config_sort
                (rofi_view_refilter config_sort (fruit_view "ap")))
     = mapping (rofi_view_refilter config_sort (fruit_view "ap")).
Proof.
  pose proof (refilter_twice config_sort (fruit_view "ap")
                (fruit_view_ready "ap")) as (Hm & _).
  split; [apply fruit_view_ready|].
  split; [vm_compute; reflexivity | exact Hm].
Defined.

(** ** The order of the tasks and the size of the chunks *)

Lemma make_states_any_order_witness :
  arrays_ok big_view
  /\ length (make_states (num_lines big_view) None 0) = 2%nat
  /\ Permutation (make_states (num_lines big_view) None 0)
                 (rev (make_states (num_lines big_view) None 0))
  /\ snd (run_states config_sort
            (rev (make_states (num_lines big_view) None 0)) big_view)
     = snd (run_states config_sort (make_states (num_lines big_view) None 0)
              big_view).
Proof.
  assert (Hok : arrays_ok big_view) by apply view_before_first_pass_ready.
  split; [exact Hok|]. split; [vm_compute; reflexivity|].
  split; [apply Permutation_rev|].
  apply (make_states_any_order config_sort big_view None 0 _ Hok
           (Permutation_rev _)).
Defined.

(** Fewer than 1000 candidates are filtered as one chunk, on the calling
    thread alone.  From 1000 candidates on there are at least two chunks
    and the chunk size lies between 501 and 750; no chunk holds more than
    that size, and a chunk that ends before the last candidate holds
    exactly that many. *)
Theorem chunk_sizes n :
  0 <= n -> n + nt_of n < 2 ^ 32 ->
  (n < 1000 -> nt_of n = 1 /\ chunk_start n 0 = 0 /\ chunk_stop n 0 = n)
  /\ (1000 <= n -> 2 <= nt_of n /\ 501 <= steps_of n <= 750)
  /\ (forall i, 0 <= i < nt_of n ->
        chunk_stop n i - chunk_start n i <= steps_of n
        /\ ((i + 1) * steps_of n <= n ->
            chunk_stop n i - chunk_start n i = steps_of n)).
Proof.
  intros Hn Hno.
  pose proof (nt_of_pos n) as Hnt.
  assert (Hn32 : 0 <= n < 2 ^ 32) by lia.
  destruct (steps_of_cases n Hn32) as [(_ & Hst & Hlo & Hhi) | (Hw & _)];
    [|lia].
  assert (Hq : nt_of n = Z.max 1 (n / 500)) by reflexivity.
  assert (Hdiv : 500 * (n / 500) <= n < 500 * (n / 500) + 500).
  { pose proof (Z.div_mod n 500 ltac:(lia)).
    pose proof (Z.mod_pos_bound n 500 ltac:(lia)). lia. }
  split; [|split].
  - intros Hlt. assert (H1 : nt_of n = 1) by lia.
    split; [exact H1|].
    rewrite chunk_start_eq, chunk_stop_eq by lia.
    rewrite H1 in Hlo, Hhi. lia.
  - intros Hge. assert (H2 : 2 <= nt_of n) by lia.
    split; [exact H2|]. split.
    + assert (500 * nt_of n < nt_of n * steps_of n) by lia.
      assert (500 < steps_of n); [|lia].
      apply (Z.mul_lt_mono_pos_l (nt_of n)); lia.
    + assert (nt_of n * steps_of n < nt_of n * 751) by lia.
      assert (steps_of n < 751); [|lia].
      apply (Z.mul_lt_mono_pos_l (nt_of n)); lia.
  - intros i Hi.
    rewrite chunk_start_eq, chunk_stop_eq by lia.
    rewrite Z.mul_add_distr_r, Z.mul_1_l.
    pose proof (steps_of_nonneg n Hn32). split; [lia|]. intros Hfull. lia.
Qed.

Lemma chunk_sizes_witness :
  0 <= 1000 /\ 1000 + nt_of 1000 < 2 ^ 32
  /\ nt_of 1000 = 2 /\ steps_of 1000 = 501
  /\ chunk_stop 1000 1 - chunk_start 1000 1 = 499
  /\ chunk_stop 1000 1 - chunk_start 1000 1 <= steps_of 1000.
Proof.
  assert (H0 : 0 <= 1000) by lia.
  assert (H1 : 1000 + nt_of 1000 < 2 ^ 32) by (vm_compute; reflexivity).
  destruct (chunk_sizes 1000 H0 H1) as (_ & _ & Hc).
  destruct (Hc 1 ltac:(vm_compute; split; [discriminate | reflexivity]))
    as (Hle & _).
  split; [exact H0|]. split; [exact H1|].
  split; [reflexivity|]. split; [reflexivity|].
  split; [reflexivity | exact Hle].
Defined.

(** ** What the actions leave alone *)

(** The indicator tells the four combinations of case sensitivity and
    sorting apart. *)
Theorem matching_state_distinct cfg cfg' :
  get_matching_state cfg = get_matching_state cfg'
  <-> case_sensitive cfg = case_sensitive cfg' /\ sort cfg = sort cfg'.
Proof.
  unfold get_matching_state. split.
  - destruct (case_sensitive cfg), (sort cfg), (case_sensitive cfg'),
      (sort cfg'); intros E; try (split; reflexivity); discriminate E.
  - intros (-> & ->). reflexivity.
Qed.

Section Actions.
Context `{Helper}.
Implicit Type st : RofiViewState.

Ltac action_cases :=
  cbn [rofi_view_trigger_action snd fst];
  unfold rofi_view_nav_row_tab, rofi_view_nav_row_select,
    rofi_view_nav_first, rofi_view_nav_last, accept_selected;
  cbn [filtered_lines set_selected_line];
  repeat match goal with
         | |- context [if ?c then _ else _] => destruct c
         end; cbn.

Lemma trigger_action_frame cfg st a :
  tokens (snd (rofi_view_trigger_action cfg st a)) = tokens st
  /\ sw (snd (rofi_view_trigger_action cfg st a)) = sw st
  /\ reload (snd (rofi_view_trigger_action cfg st a)) = reload st.
Proof. destruct a; action_cases; repeat split. Qed.

Lemma trigger_action_quit cfg st a :
  quit st = true -> quit (snd (rofi_view_trigger_action cfg st a)) = true.
Proof. intros Hq. destruct a; action_cases; try reflexivity; exact Hq. Qed.

(** No sequence of actions changes what the last pass computed: the
    number of candidates, the rows and their number, the distance table
    and the tokens stay, as do the provider and the reload request.  Only a
    pass writes them. *)
Theorem actions_keep_filter_result (actions : list KeyBindingAction) :
  forall cfg st,
  num_lines (snd (run_actions cfg st actions)) = num_lines st
  /\ filtered_lines (snd (run_actions cfg st actions)) = filtered_lines st
  /\ line_map (snd (run_actions cfg st actions)) = line_map st
  /\ distance (snd (run_actions cfg st actions)) = distance st
  /\ tokens (snd (run_actions cfg st actions)) = tokens st
  /\ sw (snd (run_actions cfg st actions)) = sw st
  /\ reload (snd (run_actions cfg st actions)) = reload st.
Proof.
  induction actions as [|a actions IH]; intros cfg st.
  - cbn. repeat split.
  - unfold run_actions. cbn [fold_left fst snd].
    fold (run_actions (snd (fst (rofi_view_trigger_action cfg st a)))
            (snd (rofi_view_trigger_action cfg st a)) actions).
    destruct (IH (snd (fst (rofi_view_trigger_action cfg st a)))
                 (snd (rofi_view_trigger_action cfg st a)))
      as (I1 & I2 & I3 & I4 & I5 & I6 & I7).
    pose proof (trigger_action_arrays cfg st a) as HA. cbn zeta in HA.
    destruct HA as (A1 & A2 & A3).
    pose proof (trigger_action_filtered_lines cfg st a) as A4.
    destruct (trigger_action_frame cfg st a) as (A5 & A6 & A7).
    rewrite I1, I2, I3, I4, I5, I6, I7. tauto.
Qed.

(** An action is rejected only when it is no action at all or when an
    entry is to be deleted with the cursor on no row, and a rejected action
    has changed nothing. *)
Theorem rejected_action_changes_nothing cfg st a :
  fst (fst (rofi_view_trigger_action cfg st a)) = false ->
  rofi_view_trigger_action cfg st a = (false, cfg, st)
  /\ (a = NUM_ABE
      \/ (a = DELETE_ENTRY
          /\ filtered_lines st <= listview_get_selected (list_view st))).
Proof.
  destruct a; cbn [rofi_view_trigger_action fst snd];
    repeat match goal with
           | |- context [if ?c then _ else _] => destruct c eqn:?
           end;
    cbn; intros Hf; try discriminate Hf;
    (split; [reflexivity|]);
    first [ left; reflexivity
          | right; split; [reflexivity | apply Z.ltb_ge; assumption] ].
Qed.

(** A completed view stays completed under every sequence of actions and
    under a pass. *)
Theorem completed_view_stays_completed (actions : list KeyBindingAction) :
  forall cfg st,
  quit st = true ->
  quit (snd (run_actions cfg st actions)) = true
  /\ quit (rofi_view_refilter cfg st) = true.
Proof.
  induction actions as [|a actions IH]; intros cfg st Hq.
  - split; [exact Hq|]. rewrite refilter_unfold.
    destruct (filtered_frame cfg st) as (_ & _ & Q & _).
    destruct (auto_select_fires _ _); cbn; [reflexivity|].
    rewrite Q. exact Hq.
  - split.
    + unfold run_actions. cbn [fold_left fst snd].
      apply (IH (snd (fst (rofi_view_trigger_action cfg st a)))
                (snd (rofi_view_trigger_action cfg st a))).
      apply trigger_action_quit, Hq.
    + apply (IH cfg st Hq).
Qed.

(** A quick-select action on a row that exists has the outcome of the
    accept action with the cursor on that row, the cursor itself staying
    where it is; on a row that does not exist it changes nothing, and the
    key still counts as handled. *)
Theorem select_element_outcome cfg st a idx :
  select_element_index a = Some idx ->
  rofi_view_trigger_action cfg st a
  = if idx <? filtered_lines st
    then (true, cfg,
          set_list_view
            (snd (rofi_view_trigger_action cfg
                    (set_list_view st (lv_with_selected (list_view st) idx))
                    ACCEPT_ENTRY))
            (list_view st))
    else (true, cfg, st).
Proof.
  intros Ha.
  destruct a; try discriminate Ha; injection Ha as <-;
    cbn [rofi_view_trigger_action select_element_index default fst snd];
    unfold accept_selected;
    cbn [list_view set_list_view listview_get_selected lv_with_selected
           lv_selected set_selected_line filtered_lines];
    destruct (_ <? filtered_lines st); destruct st; reflexivity.
Qed.

(** Only the two toggles change the configuration, and each flips its
    own flag and no other: [TOGGLE_SORT] negates [sort],
    [TOGGLE_CASE_SENSITIVITY] negates [case_sensitive], and no action
    changes the remaining settings.  So the same toggle twice restores the
    configuration; each toggle changes the text of the indicator and
    requests a pass. *)
Theorem toggles_flip cfg st a :
  (a = TOGGLE_SORT ->
   sort (snd (fst (rofi_view_trigger_action cfg st a))) = negb (sort cfg)
   /\ case_sensitive (snd (fst (rofi_view_trigger_action cfg st a)))
      = case_sensitive cfg)
  /\ (a = TOGGLE_CASE_SENSITIVITY ->
      case_sensitive (snd (fst (rofi_view_trigger_action cfg st a)))
      = negb (case_sensitive cfg)
      /\ sort (snd (fst (rofi_view_trigger_action cfg st a))) = sort cfg)
  /\ (levenshtein_sort (snd (fst (rofi_view_trigger_action cfg st a)))
      = levenshtein_sort cfg
      /\ matching_method (snd (fst (rofi_view_trigger_action cfg st a)))
         = matching_method cfg
      /\ auto_select (snd (fst (rofi_view_trigger_action cfg st a)))
         = auto_select cfg)
  /\ ((a = TOGGLE_SORT \/ a = TOGGLE_CASE_SENSITIVITY) ->
      fst (run_actions cfg st [a; a]) = cfg
      /\ get_matching_state (snd (fst (rofi_view_trigger_action cfg st a)))
         <> get_matching_state cfg
      /\ refilter (snd (rofi_view_trigger_action cfg st a)) = true)
  /\ (a <> TOGGLE_SORT -> a <> TOGGLE_CASE_SENSITIVITY ->
      snd (fst (rofi_view_trigger_action cfg st a)) = cfg).
Proof.
  split; [|split; [|split; [|split]]].
  - intros ->. split; reflexivity.
  - intros ->. split; reflexivity.
  - destruct a; cbn [rofi_view_trigger_action fst snd];
      try (destruct (_ <? _)); repeat split.
  - intros [-> | ->]; cbn; (split; [|split; [|reflexivity]]).
    + destruct cfg; cbn. rewrite negb_involutive. reflexivity.
    + intros E. apply matching_state_distinct in E. cbn in E.
      destruct E as (_ & E). destruct (sort cfg); discriminate.
    + destruct cfg; cbn. rewrite negb_involutive. reflexivity.
    + intros E. apply matching_state_distinct in E. cbn in E.
      destruct E as (E & _). destruct (case_sensitive cfg); discriminate.
  - intros N1 N2.
    destruct a; try reflexivity; try contradiction;
      cbn [rofi_view_trigger_action fst snd];
      try (destruct (_ <? _); reflexivity).
Qed.

(** The actions that can request a pass are the two toggles, the copy of
    the selected row into the entry box and the text-editing actions; a
    move of the cursor or an action that ends the view never does. *)
Theorem refilter_requested_only_by_edits cfg st a :
  refilter (snd (rofi_view_trigger_action cfg st a)) <> refilter st ->
  refilter (snd (rofi_view_trigger_action cfg st a)) = true
  /\ (a = TOGGLE_SORT \/ a = TOGGLE_CASE_SENSITIVITY \/ a = ROW_SELECT
      \/ is_textbox_action a = true).
Proof.
  destruct a; action_cases; intros Hd;
    try (exfalso; apply Hd; reflexivity);
    (split; [reflexivity | tauto]).
Qed.

(** A click on a row writes the view as the accept action does, and a
    click with Control held as the alternate accept action does: with the
    cursor on a row, the callback of the list view leaves the fields of
    [RofiViewState] as the action leaves them.  Beyond the action, it
    writes [TRUE] to [skip_absorb]. *)
Theorem mouse_activation_is_accept cfg st (control : bool) :
  listview_get_selected (list_view st) < filtered_lines st ->
  rofi_view_listview_mouse_activated_cb st control
  = (snd (rofi_view_trigger_action cfg st
            (if control then ACCEPT_ALT else ACCEPT_ENTRY)),
     true).
Proof.
  intros Hsel. apply Z.ltb_lt in Hsel.
  unfold rofi_view_listview_mouse_activated_cb.
  destruct control; cbn [rofi_view_trigger_action snd];
    unfold accept_selected; cbn [filtered_lines set_selected_line];
    rewrite Hsel; destruct st; reflexivity.
Qed.

End Actions.

Lemma rejected_action_changes_nothing_witness :
  fst (fst (rofi_view_trigger_action config_plain
              (rofi_view_refilter config_plain (fruit_view "zz"))
              DELETE_ENTRY)) = false
  /\ rofi_view_trigger_action config_plain
       (rofi_view_refilter config_plain (fruit_view "zz")) DELETE_ENTRY
     = (false, config_plain,
        rofi_view_refilter config_plain (fruit_view "zz")).
Proof.
  assert (Hf : fst (fst (rofi_view_trigger_action config_plain
                           (rofi_view_refilter config_plain (fruit_view "zz"))
                           DELETE_ENTRY)) = false)
    by (vm_compute; reflexivity).
  split; [exact Hf|].
  apply (rejected_action_changes_nothing config_plain _ DELETE_ENTRY Hf).
Defined.

Lemma completed_view_stays_completed_witness :
  quit (snd (rofi_view_trigger_action config_plain
               (rofi_view_refilter config_plain (fruit_view "ap"))
               ACCEPT_ENTRY)) = true
  /\ quit (snd (run_actions config_plain
                  (snd (rofi_view_trigger_action config_plain
                          (rofi_view_refilter config_plain (fruit_view "ap"))
                          ACCEPT_ENTRY))
                  [ROW_DOWN; TOGGLE_SORT; ROW_TAB])) = true.
Proof.
  assert (Hq : quit (snd (rofi_view_trigger_action config_plain
                            (rofi_view_refilter config_plain
                               (fruit_view "ap"))
                            ACCEPT_ENTRY)) = true)
    by (vm_compute; reflexivity).
  split; [exact Hq|].
  apply (completed_view_stays_completed [ROW_DOWN; TOGGLE_SORT; ROW_TAB]
           config_plain _ Hq).
Defined.

Lemma select_element_outcome_witness :
  select_element_index SELECT_ELEMENT_2 = Some 1
  /\ selected_line
       (snd (rofi_view_trigger_action config_plain
               (rofi_view_refilter config_plain (fruit_view "ap"))
               SELECT_ELEMENT_2)) = 2
  /\ rofi_view_trigger_action config_plain
       (rofi_view_refilter config_plain (fruit_view "ap")) SELECT_ELEMENT_2
     = (if 1 <? filtered_lines
                  (rofi_view_refilter config_plain (fruit_view "ap"))
        then (true, config_plain,
              set_list_view
                (snd (rofi_view_trigger_action config_plain
                        (set_list_view
                           (rofi_view_refilter config_plain (fruit_view "ap"))
                           (lv_with_selected
                              (list_view
                                 (rofi_view_refilter config_plain
                                    (fruit_view "ap")))
                              1))
                        ACCEPT_ENTRY))
                (list_view (rofi_view_refilter config_plain (fruit_view "ap"))))
        else (true, config_plain,
              rofi_view_refilter config_plain (fruit_view "ap"))).
Proof.
  split; [reflexivity|]. split; [vm_compute; reflexivity|].
  apply (select_element_outcome config_plain _ SELECT_ELEMENT_2 1 eq_refl).
Defined.

Lemma refilter_requested_only_by_edits_witness :
  refilter (snd (rofi_view_trigger_action config_plain
                   (rofi_view_refilter config_plain (fruit_view "ap"))
                   TOGGLE_SORT))
  <> refilter (rofi_view_refilter config_plain (fruit_view "ap"))
  /\ refilter (snd (rofi_view_trigger_action config_plain
                      (rofi_view_refilter config_plain (fruit_view "ap"))
                      TOGGLE_SORT)) = true.
Proof.
  assert (Hd : refilter (snd (rofi_view_trigger_action config_plain
                                (rofi_view_refilter config_plain
                                   (fruit_view "ap"))
                                TOGGLE_SORT))
               <> refilter (rofi_view_refilter config_plain (fruit_view "ap")))
    by (vm_compute; discriminate).
  split; [exact Hd|].
  apply (refilter_requested_only_by_edits config_plain _ TOGGLE_SORT Hd).
Defined.

Lemma mouse_activation_is_accept_witness :
  listview_get_selected
    (list_view (rofi_view_refilter config_plain (fruit_view "ap")))
  < filtered_lines (rofi_view_refilter config_plain (fruit_view "ap"))
  /\ selected_line
       (fst (rofi_view_listview_mouse_activated_cb
               (rofi_view_refilter config_plain (fruit_view "ap")) true)) = 0
  /\ rofi_view_listview_mouse_activated_cb
       (rofi_view_refilter config_plain (fruit_view "ap")) true
     = (snd (rofi_view_trigger_action config_plain
               (rofi_view_refilter config_plain (fruit_view "ap")) ACCEPT_ALT),
        true).
Proof.
  assert (Hs : listview_get_selected
                 (list_view (rofi_view_refilter config_plain (fruit_view "ap")))
               < filtered_lines
                   (rofi_view_refilter config_plain (fruit_view "ap")))
    by (apply Z.ltb_lt; vm_compute; reflexivity).
  split; [exact Hs|]. split; [vm_compute; reflexivity|].
  apply (mouse_activation_is_accept config_plain _ true Hs).
Defined.

(** ** Selection by candidate, mode switching and the mode buttons *)

Section Selection.
Context `{Helper}.
Implicit Type st : RofiViewState.

(** The loop stops at the first row that holds the candidate. *)
Lemma find_selected_loop_hit st (l1 l2 : list Z) i :
  selected_line st < UINT32_MAX ->
  (forall j, In j l1 -> at_ (line_map st) j <> selected_line st) ->
  at_ (line_map st) i = selected_line st ->
  find_selected_loop st (l1 ++ i :: l2) 0 = i.
Proof.
  intros Hmax Hl1 Hi. apply Z.ltb_lt in Hmax.
  induction l1 as [|j l1 IH]; cbn [app find_selected_loop].
  - rewrite Hmax. cbn. apply Z.eqb_eq in Hi. rewrite Hi. reflexivity.
  - rewrite Hmax. cbn [andb Z.eqb].
    destruct (Z.eqb_spec (at_ (line_map st) j) (selected_line st)) as [E | E].
    + exfalso. apply (Hl1 j); [left; reflexivity | exact E].
    + apply IH. intros k Hk. apply Hl1. right. exact Hk.
Qed.

(** Without such a row it ends with row 0. *)
Lemma find_selected_loop_miss st (ix : list Z) :
  (UINT32_MAX <= selected_line st
   \/ forall j, In j ix -> at_ (line_map st) j <> selected_line st) ->
  find_selected_loop st ix 0 = 0.
Proof.
  intros Hm. induction ix as [|j ix IH]; cbn [find_selected_loop];
    [reflexivity|].
  destruct (Z.ltb_spec (selected_line st) UINT32_MAX) as [L | L];
    cbn [andb Z.eqb]; [|reflexivity].
  destruct Hm as [Hm | Hm]; [lia|].
  destruct (Z.eqb_spec (at_ (line_map st) j) (selected_line st)) as [E | E].
  - exfalso. apply (Hm j); [left; reflexivity | exact E].
  - apply IH. right. intros k Hk. apply Hm. right. exact Hk.
Qed.

(** A row of the mapping holds an entry of the mapping. *)
Lemma mapping_row st p :
  0 <= p < filtered_lines st ->
  filtered_lines st <= Z.of_nat (length (line_map st)) ->
  mapping st !! Z.to_nat p = Some (at_ (line_map st) p).
Proof.
  intros Hp Hlen. unfold mapping, at_.
  rewrite lookup_take_lt by lia.
  destruct (lookup_lt_is_Some_2 (line_map st) (Z.to_nat p) ltac:(lia))
    as (x & Hx).
  rewrite Hx. reflexivity.
Qed.

Lemma find_selected_row st p :
  List.NoDup (mapping st) ->
  0 <= p < filtered_lines st ->
  filtered_lines st <= Z.of_nat (length (line_map st)) ->
  at_ (line_map st) p < UINT32_MAX ->
  find_selected (set_selected_line st (at_ (line_map st) p)) = p.
Proof.
  intros Hnd Hp Hlen Hmax. unfold find_selected.
  cbn [filtered_lines set_selected_line].
  replace (filtered_lines st) with (p + (1 + (filtered_lines st - p - 1)))
    by lia.
  rewrite seqZ_app by lia. rewrite (seqZ_cons (0 + p)) by lia.
  rewrite Z.add_0_l.
  apply find_selected_loop_hit; cbn [selected_line line_map set_selected_line];
    [exact Hmax | | reflexivity].
  intros j Hj E. apply list_elem_of_In, elem_of_seqZ in Hj.
  apply NoDup_ListNoDup in Hnd.
  pose proof (mapping_row st j ltac:(lia) Hlen) as Rj.
  pose proof (mapping_row st p Hp Hlen) as Rp.
  rewrite E in Rj.
  pose proof (NoDup_lookup _ _ _ _ Hnd Rj Rp). lia.
Qed.

Lemma find_selected_absent st c :
  filtered_lines st <= Z.of_nat (length (line_map st)) ->
  (UINT32_MAX <= c \/ ~ In c (mapping st)) ->
  find_selected (set_selected_line st c) = 0.
Proof.
  intros Hlen Hc. unfold find_selected.
  cbn [filtered_lines set_selected_line].
  apply find_selected_loop_miss. cbn [selected_line line_map set_selected_line].
  destruct Hc as [Hc | Hc]; [left; exact Hc | right].
  intros j Hj E. apply list_elem_of_In, elem_of_seqZ in Hj.
  apply Hc. rewrite <- E. apply list_elem_of_In.
  eapply list_elem_of_lookup_2. apply mapping_row; [lia | exact Hlen].
Qed.

(** Selection by candidate undoes the mapping: after a pass, selecting
    the candidate that row [p] shows moves the list view to row [p], and
    records that candidate as the selected one. *)
Theorem set_selected_line_finds_row cfg st p :
  ready st ->
  0 <= p < filtered_lines (rofi_view_refilter cfg st) ->
  find_selected
    (set_selected_line (rofi_view_refilter cfg st)
       (at_ (line_map (rofi_view_refilter cfg st)) p)) = p
  /\ selected_line
       (rofi_view_set_selected_line (rofi_view_refilter cfg st)
          (at_ (line_map (rofi_view_refilter cfg st)) p))
     = at_ (line_map (rofi_view_refilter cfg st)) p
  /\ list_view
       (rofi_view_set_selected_line (rofi_view_refilter cfg st)
          (at_ (line_map (rofi_view_refilter cfg st)) p))
     = listview_set_selected (list_view (rofi_view_refilter cfg st)) p.
Proof.
  intros Hr Hp.
  destruct (refilter_mapping_NoDup cfg st Hr) as (Hnd & Hrange & Hfl).
  pose proof (refilter_arrays_ok cfg st Hr) as (Hn & Hlen & _).
  set (st' := rofi_view_refilter cfg st) in *.
  assert (Hlen' : filtered_lines st' <= Z.of_nat (length (line_map st')))
    by lia.
  assert (Hin : In (at_ (line_map st') p) (mapping st')).
  { apply list_elem_of_In. eapply list_elem_of_lookup_2.
    apply mapping_row; assumption. }
  apply Hrange in Hin.
  assert (Hmax : at_ (line_map st') p < UINT32_MAX)
    by (unfold UINT32_MAX; change (2 ^ 32) with 4294967296 in Hn; lia).
  pose proof (find_selected_row st' p Hnd Hp Hlen' Hmax) as Hfind.
  split; [exact Hfind|].
  unfold rofi_view_set_selected_line. cbn zeta.
  rewrite Hfind. split; reflexivity.
Qed.

(** Selecting a candidate that no row shows, or the value [UINT32_MAX]
    that stands for no candidate, moves the list view to the first row. *)
Theorem set_selected_line_absent cfg st c :
  ready st ->
  (UINT32_MAX <= c \/ ~ In c (mapping (rofi_view_refilter cfg st))) ->
  find_selected (set_selected_line (rofi_view_refilter cfg st) c) = 0
  /\ selected_line (rofi_view_set_selected_line (rofi_view_refilter cfg st) c)
     = c
  /\ list_view (rofi_view_set_selected_line (rofi_view_refilter cfg st) c)
     = listview_set_selected (list_view (rofi_view_refilter cfg st)) 0.
Proof.
  intros Hr Hc.
  destruct (refilter_mapping_NoDup cfg st Hr) as (_ & _ & Hfl).
  pose proof (refilter_arrays_ok cfg st Hr) as (Hn & Hlen & _).
  set (st' := rofi_view_refilter cfg st) in *.
  assert (Hlen' : filtered_lines st' <= Z.of_nat (length (line_map st')))
    by lia.
  pose proof (find_selected_absent st' c Hlen' Hc) as Hfind.
  split; [exact Hfind|].
  unfold rofi_view_set_selected_line. cbn zeta.
  rewrite Hfind. split; reflexivity.
Qed.

(** ** A view that is created, and a view that switches mode *)

(** A pass that starts from a view with the outcome of a fresh or
    restarted view. *)
Lemma fresh_outcome cfg st :
  quit st = false -> retv st = plain MENU_CANCEL ->
  (quit (rofi_view_refilter cfg st) = false
   /\ retv (rofi_view_refilter cfg st) = plain MENU_CANCEL
   /\ selected_line (rofi_view_refilter cfg st) = selected_line st)
  \/ (auto_select cfg = true
      /\ filtered_lines (rofi_view_refilter cfg st) = 1
      /\ 1 < num_lines (rofi_view_refilter cfg st)
      /\ quit (rofi_view_refilter cfg st) = true
      /\ retv (rofi_view_refilter cfg st) = plain MENU_OK).
Proof.
  intros Hq Hret.
  destruct (refilter_outcome cfg st) as [(Q1 & Q2 & Q3) | Hauto];
    [left | right; exact Hauto].
  rewrite Q1, Q2. tauto.
Qed.

(** Switching the mode restarts the view on the new provider, whatever
    state the view was in: the view reads the number of candidates of the
    new mode and allocates its arrays afresh, its rows are distinct
    candidates of the new mode, the entry box is kept, and a view that was
    completed is running again with the outcome reset, unless auto-select
    completes it at once. *)
Theorem switch_mode_restarts cfg st (mode : Mode) :
  sw (rofi_view_switch_mode cfg st mode) = mode
  /\ num_lines (rofi_view_switch_mode cfg st mode)
     = uint (mode_get_num_entries mode)
  /\ arrays_ok (rofi_view_switch_mode cfg st mode)
  /\ List.NoDup (mapping (rofi_view_switch_mode cfg st mode))
  /\ (forall i, In i (mapping (rofi_view_switch_mode cfg st mode)) ->
        0 <= i < uint (mode_get_num_entries mode))
  /\ text (rofi_view_switch_mode cfg st mode) = text st
  /\ refilter (rofi_view_switch_mode cfg st mode) = false
  /\ reload (rofi_view_switch_mode cfg st mode) = false
  /\ ((quit (rofi_view_switch_mode cfg st mode) = false
       /\ retv (rofi_view_switch_mode cfg st mode) = plain MENU_CANCEL
       /\ selected_line (rofi_view_switch_mode cfg st mode)
          = selected_line st)
      \/ (auto_select cfg = true
          /\ filtered_lines (rofi_view_switch_mode cfg st mode) = 1
          /\ quit (rofi_view_switch_mode cfg st mode) = true
          /\ retv (rofi_view_switch_mode cfg st mode) = plain MENU_OK)).
Proof.
  unfold rofi_view_switch_mode. cbn zeta.
  set (st0 := set_refilter
                (set_reload (rofi_view_restart (set_sw st mode)) true) true).
  assert (Hr : ready st0) by (left; reflexivity).
  assert (Hpl : pass_lines st0 = uint (mode_get_num_entries mode))
    by reflexivity.
  destruct (refilter_mapping_NoDup cfg st0 Hr) as (Hnd & Hrange & _).
  destruct (refilter_flags cfg st0) as (Hrf & Hrl & Ht & _).
  pose proof (refilter_arrays_ok cfg st0 Hr) as Hok.
  pose proof (refilter_num_lines cfg st0) as Hn. rewrite Hpl in Hn.
  pose proof (refilter_sw cfg st0) as Hsw.
  rewrite Hn in Hrange.
  destruct (fresh_outcome cfg st0 eq_refl eq_refl) as [Hout | Hout].
  - repeat (split; [assumption|]). left. exact Hout.
  - repeat (split; [assumption|]). right. tauto.
Qed.

(** A created view is well formed before the first key is pressed: it has
    read the number of candidates of its provider, its arrays have one slot
    per candidate, its rows are distinct candidates, all of them in index
    order when the initial input is empty, no pass is pending, and it is
    not completed with no candidate selected, unless auto-select completed
    it at once. *)
Theorem created_view cfg (sw0 : Mode) (tb : textbox) (lv : listview)
    (prev0 : KeyBindingAction) :
  sw (rofi_view_create cfg sw0 tb lv prev0) = sw0
  /\ text (rofi_view_create cfg sw0 tb lv prev0) = tb
  /\ num_lines (rofi_view_create cfg sw0 tb lv prev0)
     = uint (mode_get_num_entries sw0)
  /\ arrays_ok (rofi_view_create cfg sw0 tb lv prev0)
  /\ List.NoDup (mapping (rofi_view_create cfg sw0 tb lv prev0))
  /\ (forall i, In i (mapping (rofi_view_create cfg sw0 tb lv prev0)) ->
        0 <= i < uint (mode_get_num_entries sw0))
  /\ (String.length (textbox_get_text tb) = 0%nat ->
      mapping (rofi_view_create cfg sw0 tb lv prev0)
      = seqZ 0 (uint (mode_get_num_entries sw0)))
  /\ refilter (rofi_view_create cfg sw0 tb lv prev0) = false
  /\ reload (rofi_view_create cfg sw0 tb lv prev0) = false
  /\ ((quit (rofi_view_create cfg sw0 tb lv prev0) = false
       /\ retv (rofi_view_create cfg sw0 tb lv prev0) = plain MENU_CANCEL
       /\ selected_line (rofi_view_create cfg sw0 tb lv prev0) = UINT32_MAX)
      \/ (auto_select cfg = true
          /\ filtered_lines (rofi_view_create cfg sw0 tb lv prev0) = 1
          /\ quit (rofi_view_create cfg sw0 tb lv prev0) = true
          /\ retv (rofi_view_create cfg sw0 tb lv prev0) = plain MENU_OK)).
Proof.
  unfold rofi_view_create.
  set (st0 := view_before_first_pass sw0 tb lv prev0).
  assert (Hr : ready st0) by (right; apply view_before_first_pass_ready).
  assert (Hpl : pass_lines st0 = uint (mode_get_num_entries sw0))
    by reflexivity.
  destruct (refilter_mapping_NoDup cfg st0 Hr) as (Hnd & Hrange & _).
  destruct (refilter_flags cfg st0) as (Hrf & Hrl & Ht & _).
  pose proof (refilter_arrays_ok cfg st0 Hr) as Hok.
  pose proof (refilter_num_lines cfg st0) as Hn. rewrite Hpl in Hn.
  pose proof (refilter_sw cfg st0) as Hsw.
  rewrite Hn in Hrange.
  assert (Hempty : String.length (textbox_get_text tb) = 0%nat ->
            mapping (rofi_view_refilter cfg st0)
            = seqZ 0 (uint (mode_get_num_entries sw0))).
  { intros Hlen0.
    assert (Hin : has_input st0 = false)
      by (unfold has_input; cbn; rewrite Hlen0; reflexivity).
    destruct (refilter_all_pass cfg st0 Hin Hr) as (Hfl & Hlm & _).
    unfold mapping. rewrite Hfl, Hlm, Hpl. apply take_ge.
    rewrite length_seqZ. lia. }
  destruct (fresh_outcome cfg st0 eq_refl eq_refl) as [Hout | Hout].
  - repeat (split; [assumption|]). left. exact Hout.
  - repeat (split; [assumption|]). right. tauto.
Qed.

(** ** The mode buttons *)

Lemma modi_index_first (modi : list Z) (tb : Z) : forall (i : nat) (k : Z),
  modi !! i = Some tb ->
  (forall j : nat, (j < i)%nat -> modi !! j <> Some tb) ->
  0 <= k -> k + Z.of_nat i < 2 ^ 32 ->
  modi_index modi tb k = Some (k + Z.of_nat i).
Proof.
  induction modi as [|m modi IH]; intros i k Hi Hfirst Hk Hlt;
    [discriminate Hi|].
  cbn [modi_index]. destruct i as [|i].
  - cbn in Hi. injection Hi as ->. rewrite Z.eqb_refl. f_equal. lia.
  - destruct (Z.eqb_spec m tb) as [E | E].
    + exfalso. apply (Hfirst 0%nat); [lia | cbn; f_equal; exact E].
    + rewrite uint_small by lia.
      rewrite (IH i (k + 1)); [f_equal; lia | exact Hi | | lia | lia].
      intros j Hj. apply (Hfirst (S j)). lia.
Qed.

Lemma modi_index_none (modi : list Z) (tb : Z) : forall k,
  (forall i : nat, modi !! i <> Some tb) -> modi_index modi tb k = None.
Proof.
  induction modi as [|m modi IH]; intros k Hno; [reflexivity|].
  cbn [modi_index]. destruct (Z.eqb_spec m tb) as [E | E].
  - exfalso. apply (Hno 0%nat). cbn. f_equal. exact E.
  - apply IH. intros i. apply (Hno (S i)).
Qed.

(** A click on the button of mode [i] ends the view with the outcome of
    the custom key [i + 1]: a quick switch that carries [i].  Unlike the
    key it leaves the selected candidate as it was.  A click on a widget
    that is no mode button changes nothing. *)
Theorem modi_click_outcome st (modi : list Z) (tb : Z) :
  Z.of_nat (length modi) < 2 ^ 32 ->
  (forall i : nat,
     modi !! i = Some tb ->
     (forall j : nat, (j < i)%nat -> modi !! j <> Some tb) ->
     rofi_view_modi_clicked_cb st modi tb
     = (true,
        set_quit
          (set_retv st
             (mkMenuReturn MENU_QUICK_SWITCH false
                (Z.land (Z.of_nat i) MENU_LOWER_MASK)))
          true)
     /\ forall cfg a,
          custom_index a = Some (Z.of_nat i) ->
          retv (snd (rofi_view_modi_clicked_cb st modi tb))
          = retv (snd (rofi_view_trigger_action cfg st a))
          /\ quit (snd (rofi_view_modi_clicked_cb st modi tb))
             = quit (snd (rofi_view_trigger_action cfg st a)))
  /\ ((forall i : nat, modi !! i <> Some tb) ->
      rofi_view_modi_clicked_cb st modi tb = (false, st)).
Proof.
  intros Hlen. split.
  - intros i Hi Hfirst.
    assert (Hlt : (i < length modi)%nat)
      by (apply lookup_lt_is_Some; eexists; exact Hi).
    assert (Hcb : rofi_view_modi_clicked_cb st modi tb
                  = (true,
                     set_quit
                       (set_retv st
                          (mkMenuReturn MENU_QUICK_SWITCH false
                             (Z.land (Z.of_nat i) MENU_LOWER_MASK)))
                       true)).
    { unfold rofi_view_modi_clicked_cb.
      rewrite (modi_index_first modi tb i 0 Hi Hfirst) by lia.
      rewrite Z.add_0_l. reflexivity. }
    split; [exact Hcb|].
    intros cfg a Ha. rewrite Hcb.
    destruct a; try discriminate Ha;
      cbn [rofi_view_trigger_action snd custom_index default] in *;
      injection Ha as Ha; rewrite <- Ha;
      destruct (_ <? _); split; reflexivity.
  - intros Hno. unfold rofi_view_modi_clicked_cb.
    rewrite (modi_index_none modi tb 0 Hno). reflexivity.
Qed.

End Selection.

Lemma set_selected_line_finds_row_witness :
  ready (fruit_view "ap")
  /\ 0 <= 2 < filtered_lines (rofi_view_refilter config_sort (fruit_view "ap"))
  /\ mapping (rofi_view_refilter config_sort (fruit_view "ap")) = [0; 2; 3]
  /\ find_selected
       (set_selected_line (rofi_view_refilter config_sort (fruit_view "ap"))
          (at_ (line_map (rofi_view_refilter config_sort (fruit_view "ap")))
               2)) = 2.
Proof.
  assert (Hp : 0 <= 2
               < filtered_lines
                   (rofi_view_refilter config_sort (fruit_view "ap")))
    by (split; [lia | apply Z.ltb_lt; vm_compute; reflexivity]).
  pose proof (set_selected_line_finds_row config_sort (fruit_view "ap") 2
                (fruit_view_ready "ap") Hp) as (Hfind & _).
  split; [apply fruit_view_ready|]. split; [exact Hp|].
  split; [vm_compute; reflexivity | exact Hfind].
Defined.

Lemma set_selected_line_absent_witness :
  ready (fruit_view "ap")
  /\ ~ In 1 (mapping (rofi_view_refilter config_sort (fruit_view "ap")))
  /\ find_selected
       (set_selected_line (rofi_view_refilter config_sort (fruit_view "ap"))
          1) = 0.
Proof.
  assert (Hc : ~ In 1 (mapping (rofi_view_refilter config_sort
                                  (fruit_view "ap")))).
  { change (mapping (rofi_view_refilter config_sort (fruit_view "ap")))
      with [0; 2; 3].
    intros [E | [E | [E | []]]]; discriminate E. }
  pose proof (set_selected_line_absent config_sort (fruit_view "ap") 1
                (fruit_view_ready "ap") (or_intror Hc)) as (Hfind & _).
  split; [apply fruit_view_ready|]. split; [exact Hc | exact Hfind].
Defined.

Lemma modi_click_outcome_witness :
  Z.of_nat (length [11; 22; 33]) < 2 ^ 32
  /\ rofi_view_modi_clicked_cb (fruit_view "ap") [11; 22; 33] 22
     = (true,
        set_quit
          (set_retv (fruit_view "ap")
             (mkMenuReturn MENU_QUICK_SWITCH false
                (Z.land (Z.of_nat 1) (@MENU_LOWER_MASK demo_helper))))
          true)
  /\ retv (snd (rofi_view_modi_clicked_cb (fruit_view "ap") [11; 22; 33] 22))
     = retv (snd (rofi_view_trigger_action config_plain (fruit_view "ap")
                    CUSTOM_2)).
Proof.
  assert (Hlen : Z.of_nat (length [11; 22; 33]) < 2 ^ 32)
    by (vm_compute; reflexivity).
  destruct (modi_click_outcome (fruit_view "ap") [11; 22; 33] 22 Hlen)
    as (Hhit & _).
  assert (Hfirst : forall j : nat,
             (j < 1)%nat -> [11; 22; 33] !! j <> Some 22).
  { intros j Hj. assert (j = 0%nat) as -> by lia. discriminate. }
  destruct (Hhit 1%nat eq_refl Hfirst) as (Hcb & Hkey).
  split; [exact Hlen|]. split; [exact Hcb|].
  apply (Hkey config_plain CUSTOM_2 eq_refl).
Defined.

(** ** The stack of views *)

Lemma set_active_all_app {V : Type} (l1 l2 : list (option V)) :
  forall g : ViewStack V,
  set_active_all g (l1 ++ l2)
  = match set_active_all g l1 with
    | Some g' => set_active_all g' l2
    | None => None
    end.
Proof.
  induction l1 as [|s l1 IH]; intros g; cbn [app set_active_all];
    [reflexivity|].
  destruct (rofi_view_set_active g s); [apply IH | reflexivity].
Qed.

Lemma last_cons_default {V : Type} (l : list V) : forall a d d' : V,
  List.last (a :: l) d = List.last (a :: l) d'.
Proof.
  induction l as [|b l IH]; intros a d d'; [reflexivity|].
  change (List.last (a :: b :: l) d) with (List.last (b :: l) d).
  change (List.last (a :: b :: l) d') with (List.last (b :: l) d').
  apply IH.
Qed.

Lemma set_active_pushes {V : Type} (vs : list V) :
  forall (g : ViewStack V) (c0 : V),
  current_active_menu g = Some c0 ->
  set_active_all g (map Some vs)
  = Some (mkViewStack (Some (List.last vs c0))
            (rev (removelast (c0 :: vs)) ++ views g)).
Proof.
  induction vs as [|v vs IH]; intros g c0 Hc.
  - cbn. destruct g as [c w]. cbn in Hc. subst c. reflexivity.
  - cbn [map set_active_all].
    assert (Hpush : rofi_view_set_active g (Some v)
                    = Some (mkViewStack (Some v) (c0 :: views g)))
      by (unfold rofi_view_set_active; rewrite Hc; reflexivity).
    rewrite Hpush.
    rewrite (IH (mkViewStack (Some v) (c0 :: views g)) v eq_refl).
    cbn [views]. f_equal. f_equal.
    + destruct vs as [|w vs]; [reflexivity|].
      change (List.last (v :: w :: vs) c0) with (List.last (w :: vs) c0).
      f_equal. apply last_cons_default.
    + change (removelast (c0 :: v :: vs)) with (c0 :: removelast (v :: vs)).
      cbn [rev]. rewrite <- app_assoc. reflexivity.
Qed.

(** Views are stacked and come back last in, first out: after any number
    of views were made active on top of a running one, the last of them is
    the active view, and as many calls with no view bring back the view
    that was active before and the stack as it was.  When that stack was
    empty, one more such call leaves no view at all, so that the assertion
    of the cleanup holds. *)
Theorem view_stack_lifo {V : Type} (vs : list V) :
  forall (g : ViewStack V) (c0 : V),
  current_active_menu g = Some c0 ->
  option_map rofi_view_get_active (set_active_all g (map Some vs))
  = Some (Some (List.last vs c0))
  /\ set_active_all g (map Some vs ++ replicate (length vs) None) = Some g
  /\ (views g = [] ->
      set_active_all g (map Some vs ++ replicate (length vs) None ++ [None])
      = Some (mkViewStack None [])
      /\ option_map cleanup_assert
           (set_active_all g
              (map Some vs ++ replicate (length vs) None ++ [None]))
         = Some true).
Proof.
  intros g c0 Hc.
  assert (Hround : forall (vs : list V) (g : ViewStack V) (c0 : V),
             current_active_menu g = Some c0 ->
             set_active_all g (map Some vs ++ replicate (length vs) None)
             = Some g).
  { clear. induction vs as [|v vs IH]; intros g c0 Hc; [reflexivity|].
    cbn [map length]. rewrite replicate_S_end.
    rewrite app_assoc, set_active_all_app.
    cbn [app set_active_all].
    assert (Hpush : rofi_view_set_active g (Some v)
                    = Some (mkViewStack (Some v) (c0 :: views g)))
      by (unfold rofi_view_set_active; rewrite Hc; reflexivity).
    rewrite Hpush.
    rewrite (IH (mkViewStack (Some v) (c0 :: views g)) v eq_refl). cbn.
    destruct g as [c w]. cbn in Hc. subst c. reflexivity. }
  split; [|split].
  - rewrite (set_active_pushes vs g c0 Hc). reflexivity.
  - apply (Hround vs g c0 Hc).
  - intros Hv. rewrite app_assoc, set_active_all_app.
    rewrite (Hround vs g c0 Hc). cbn.
    unfold rofi_view_set_active. rewrite Hc, Hv. split; reflexivity.
Qed.

Lemma view_stack_lifo_witness :
  current_active_menu (mkViewStack (Some 1) []) = Some 1
  /\ set_active_all (mkViewStack (Some 1) [])
       [Some 2; Some 3] = Some (mkViewStack (Some 3) [2; 1])
  /\ set_active_all (mkViewStack (Some 1) [])
       (map Some [2; 3] ++ replicate (length [2; 3]) None)
     = Some (mkViewStack (Some 1) []).
Proof.
  destruct (view_stack_lifo [2; 3] (mkViewStack (Some 1) []) 1 eq_refl)
    as (_ & Hround & _).
  split; [reflexivity|]. split; [reflexivity | exact Hround].
Defined.

(** ** The reload timer *)

Section Reload.
Context `{Helper}.
Implicit Type st : RofiViewState.

Lemma timer_step_one (ca : Timers * option RofiViewState) (e : TimerEvent) :
  valid_event e -> one_timer (fst ca) -> one_timer (fst (timer_step ca e)).
Proof.
  unfold one_timer. intros Hv Hone.
  destruct ca as [[idle src] active]. cbn [fst] in *. cbn in Hone.
  destruct e as [id | |]; cbn in Hv |- *.
  - unfold rofi_view_reload. cbn.
    destruct Hone as [(-> & ->) | (Hpos & ->)].
    + cbn. right. tauto.
    + destruct (Z.eqb_spec idle 0); [lia|]. cbn. right. tauto.
  - destruct Hone as [(-> & ->) | (Hpos & ->)]; cbn; left; tauto.
  - unfold rofi_view_cleanup. cbn.
    destruct Hone as [(-> & ->) | (Hpos & ->)]; cbn.
    + left. tauto.
    + destruct (Z.ltb_spec 0 idle); [|lia]. cbn.
      rewrite Z.eqb_refl. cbn. left. tauto.
Qed.

(** Reload requests are folded into one timeout: whatever calls of
    [rofi_view_reload], expiries of the timeout and cleanups follow each
    other, at most one timeout is pending at any time, the one
    [idle_timeout] names, and none is pending when [idle_timeout] is 0. *)
Theorem one_reload_timer (events : list TimerEvent) :
  forall ca : Timers * option RofiViewState,
  one_timer (fst ca) -> Forall valid_event events ->
  one_timer (fst (fold_left timer_step events ca))
  /\ (length (sources (fst (fold_left timer_step events ca))) <= 1)%nat.
Proof.
  assert (Hinv : forall (events : list TimerEvent)
                        (ca : Timers * option RofiViewState),
             one_timer (fst ca) -> Forall valid_event events ->
             one_timer (fst (fold_left timer_step events ca))).
  { clear events. induction events as [|e events IH]; intros ca Hone Hv;
      [exact Hone|].
    inversion Hv as [|? ? He Hes]; subst. cbn [fold_left].
    apply IH; [apply timer_step_one; assumption | exact Hes]. }
  intros ca Hone Hv. pose proof (Hinv events ca Hone Hv) as Hfin.
  split; [exact Hfin|].
  destruct Hfin as [(_ & ->) | (_ & ->)]; cbn; lia.
Qed.

Lemma reloads_pending (ids : list Z) : forall (id : Z) active,
  0 < id ->
  fold_left timer_step (map Reload ids) (mkTimers id [id], active)
  = (mkTimers id [id], active).
Proof.
  induction ids as [|i ids IH]; intros id active Hid; [reflexivity|].
  cbn [map fold_left]. unfold timer_step at 2. cbn [fst snd].
  unfold rofi_view_reload. cbn [idle_timeout].
  destruct (Z.eqb_spec id 0); [lia|]. apply IH, Hid.
Qed.

(** A burst of reload requests reaches the view once: when the timeout of
    the first request expires, no timeout is left, the view is marked for
    a reload and a pass, and the pass that follows reads the number of
    candidates from the provider again and allocates the arrays for it. *)
Theorem reload_then_pass cfg st (id : Z) (ids : list Z) :
  0 < id ->
  fst (fold_left timer_step (Reload id :: map Reload ids ++ [Fire])
         (mkTimers 0 [], Some st))
  = mkTimers 0 []
  /\ snd (fold_left timer_step (Reload id :: map Reload ids ++ [Fire])
            (mkTimers 0 [], Some st))
     = Some (set_refilter (set_reload st true) true)
  /\ num_lines (rofi_view_refilter cfg (set_refilter (set_reload st true) true))
     = uint (mode_get_num_entries (sw st))
  /\ arrays_ok (rofi_view_refilter cfg (set_refilter (set_reload st true) true)).
Proof.
  intros Hid.
  assert (Hrun : fold_left timer_step (Reload id :: map Reload ids ++ [Fire])
                   (mkTimers 0 [], Some st)
                 = (mkTimers 0 [],
                    Some (set_refilter (set_reload st true) true))).
  { cbn [fold_left].
    change (timer_step (mkTimers 0 [], Some st) (Reload id))
      with (mkTimers id [id], Some st).
    rewrite fold_left_app, (reloads_pending ids id (Some st) Hid).
    reflexivity. }
  rewrite Hrun. split; [reflexivity|]. split; [reflexivity|].
  split.
  - rewrite refilter_num_lines. reflexivity.
  - apply refilter_arrays_ok. left. reflexivity.
Qed.

End Reload.

Lemma one_reload_timer_witness :
  one_timer (mkTimers 0 [])
  /\ Forall valid_event [Reload 7; Reload 8; Fire; Reload 9; Cleanup]
  /\ fst (fold_left timer_step [Reload 7; Reload 8]
            (mkTimers 0 [], Some (fruit_view "ap")))
     = mkTimers 7 [7]
  /\ one_timer
       (fst (fold_left timer_step [Reload 7; Reload 8; Fire; Reload 9; Cleanup]
               (mkTimers 0 [], Some (fruit_view "ap")))).
Proof.
  assert (H0 : one_timer (fst (mkTimers 0 [], Some (fruit_view "ap"))))
    by (left; split; reflexivity).
  assert (Hv : Forall valid_event
                 [Reload 7; Reload 8; Fire; Reload 9; Cleanup])
    by (repeat constructor).
  destruct (one_reload_timer [Reload 7; Reload 8; Fire; Reload 9; Cleanup]
              (mkTimers 0 [], Some (fruit_view "ap")) H0 Hv) as (Hone & _).
  split; [exact H0|]. split; [exact Hv|].
  split; [reflexivity | exact Hone].
Defined.

Lemma reload_then_pass_witness :
  0 < 7
  /\ fst (fold_left timer_step (Reload 7 :: map Reload [8; 9] ++ [Fire])
            (mkTimers 0 [], Some (fruit_view "ap")))
     = mkTimers 0 []
  /\ num_lines (rofi_view_refilter config_plain
                  (set_refilter (set_reload (fruit_view "ap") true) true))
     = 5.
Proof.
  assert (H7 : 0 < 7) by lia.
  destruct (reload_then_pass config_plain (fruit_view "ap") 7 [8; 9] H7)
    as (Ht & _ & Hn & _).
  split; [exact H7|]. split; [exact Ht | exact Hn].
Defined.

(** ** The screenshot file and the worker pool *)

Section ScreenshotProofs.
Variable g_file_test : string -> bool.
Variable g_build_filename : string -> string -> string.

Lemma screenshot_loop_spec (dir timestmp : string) (fuel : nat) :
  forall index,
  0 <= index <= 99 -> 99 - index < Z.of_nat fuel ->
  (forall j, 0 <= j < index ->
     g_file_test (screenshot_candidate g_build_filename dir timestmp j)
     = true) ->
  exists k,
    index <= k <= 99
    /\ screenshot_loop g_file_test g_build_filename fuel dir timestmp index
         (screenshot_candidate g_build_filename dir timestmp index)
       = (k, screenshot_candidate g_build_filename dir timestmp k)
    /\ (forall j, 0 <= j < k ->
          g_file_test (screenshot_candidate g_build_filename dir timestmp j)
          = true)
    /\ (g_file_test (screenshot_candidate g_build_filename dir timestmp k)
        = true -> k = 99).
Proof.
  induction fuel as [|fuel IH]; intros index Hi Hfuel Hbelow; [lia|].
  cbn [screenshot_loop].
  destruct (g_file_test (screenshot_candidate g_build_filename dir timestmp
                                               index)) eqn:Hex.
  - destruct (Z.ltb_spec index 99) as [L | L]; cbn [andb].
    + destruct (IH (index + 1) ltac:(lia) ltac:(lia)) as (k & Hk & Hl & Hb & He).
      { intros j Hj. destruct (Z.eq_dec j index) as [-> | N];
          [exact Hex | apply Hbelow; lia]. }
      exists k. split; [lia|]. split; [|split; assumption].
      rewrite <- Hl. f_equal. unfold screenshot_candidate.
      destruct (Z.eqb_spec (index + 1) 0); [lia | reflexivity].
    + exists index. split; [lia|]. split; [reflexivity|].
      split; [exact Hbelow | intros _; lia].
  - cbn [andb]. exists index. split; [lia|]. split; [reflexivity|].
    split; [exact Hbelow | intros E; congruence].
Qed.

(** Nothing is written without a surface, or when neither the output file
    nor the picture directory is known; a given output file is used as it
    is.  Otherwise the file is the first of the hundred names of the
    minute that is free: the names tried before it all exist, and an
    existing file is overwritten only when all hundred names are taken,
    and then it is the last of them. *)
Theorem screenshot_file (outp xdg_pict_dir : option string)
    (timestmp : string) :
  menu_capture_screenshot g_file_test g_build_filename false outp
    xdg_pict_dir timestmp = None
  /\ menu_capture_screenshot g_file_test g_build_filename true None None
       timestmp = None
  /\ (forall o,
        menu_capture_screenshot g_file_test g_build_filename true (Some o)
          xdg_pict_dir timestmp = Some o)
  /\ (forall dir,
        exists k,
          0 <= k <= 99
          /\ menu_capture_screenshot g_file_test g_build_filename true None
               (Some dir) timestmp
             = Some (screenshot_candidate g_build_filename dir timestmp k)
          /\ (forall j, 0 <= j < k ->
                g_file_test
                  (screenshot_candidate g_build_filename dir timestmp j)
                = true)
          /\ (g_file_test
                (screenshot_candidate g_build_filename dir timestmp k)
              = true -> k = 99)).
Proof.
  split; [reflexivity|]. split; [reflexivity|]. split; [reflexivity|].
  intros dir.
  destruct (screenshot_loop_spec dir timestmp 100 0 ltac:(lia) ltac:(lia))
    as (k & Hk & Hl & Hb & He).
  { intros j Hj. lia. }
  exists k. split; [exact Hk|]. split; [|split; assumption].
  unfold menu_capture_screenshot. cbn [negb].
  change (g_build_filename dir (timestmp ++ ".png")%string)
    with (screenshot_candidate g_build_filename dir timestmp 0).
  rewrite Hl. reflexivity.
Qed.

End ScreenshotProofs.

(** The pool is sized from the number of processors only when the
    configuration asks for no particular size, and then it has between 1
    and 128 threads: one thread when the number of processors is not
    known, that number up to 128 otherwise.  A configured size is kept. *)
Theorem worker_threads (threads procs : Z) :
  (threads = 0 ->
   1 <= rofi_view_workers_initialize threads procs <= 128
   /\ (procs <= 0 -> rofi_view_workers_initialize threads procs = 1)
   /\ (0 < procs <= 128 -> rofi_view_workers_initialize threads procs = procs)
   /\ (128 <= procs -> rofi_view_workers_initialize threads procs = 128))
  /\ (threads <> 0 -> rofi_view_workers_initialize threads procs = threads).
Proof.
  unfold rofi_view_workers_initialize. split.
  - intros ->. cbn. destruct (Z.ltb_spec 0 procs); lia.
  - intros N. destruct (Z.eqb_spec threads 0); [contradiction | reflexivity].
Qed.

Lemma screenshot_file_witness :
  menu_capture_screenshot demo_files demo_build_filename true None
    (Some "pics"%string) "rofi-2017-01-01-1200"
  = Some "pics/rofi-2017-01-01-1200-2.png"%string
  /\ exists k,
       0 <= k <= 99
       /\ menu_capture_screenshot demo_files demo_build_filename true None
            (Some "pics"%string) "rofi-2017-01-01-1200"
          = Some (screenshot_candidate demo_build_filename "pics"
                    "rofi-2017-01-01-1200" k)
       /\ (demo_files (screenshot_candidate demo_build_filename "pics"
                         "rofi-2017-01-01-1200" k) = true -> k = 99).
Proof.
  split; [vm_compute; reflexivity|].
  destruct (screenshot_file demo_files demo_build_filename None
              (Some "pics"%string) "rofi-2017-01-01-1200")
    as (_ & _ & _ & Hdir).
  destruct (Hdir "pics"%string) as (k & Hk & Hp & _ & He).
  exists k. split; [exact Hk|]. split; [exact Hp | exact He].
Defined.

(** ** The key press handler *)

Section KeyPress.
Context `{Helper}.
Implicit Type st : RofiViewState.
Variable abe_find_action : Z -> Z -> KeyBindingAction.
Variable textbox_append_char : textbox -> string -> Z -> textbox * bool.

Lemma trigger_action_rejected_state cfg st a :
  fst (fst (rofi_view_trigger_action cfg st a)) = false ->
  rofi_view_trigger_action cfg st a = (false, cfg, st).
Proof.
  destruct a; cbn [rofi_view_trigger_action fst snd];
    repeat match goal with
           | |- context [if ?c then _ else _] => destruct c eqn:?
           end;
    cbn; intros Hf; try discriminate Hf; reflexivity.
Qed.

(** A key press runs the action bound to the key or types the text of
    the key, never both: when the action is handled, the view is the one
    the action leaves and nothing is typed; when the key is bound to no
    action, or its action is rejected, the text is appended to the entry
    box of the unchanged view, and a pass is requested if the entry box
    took it. *)
Theorem keypress_action_or_text cfg st (xkb : xkb_stuff) :
  xkb_compose xkb = None ->
  match xkb_key xkb with
  | Some k =>
      if fst (fst (rofi_view_trigger_action cfg st
                     (abe_find_action (xkb_modstate xkb) k)))
      then rofi_view_handle_keypress abe_find_action textbox_append_char
             cfg st xkb
           = (snd (fst (rofi_view_trigger_action cfg st
                          (abe_find_action (xkb_modstate xkb) k))),
              snd (rofi_view_trigger_action cfg st
                     (abe_find_action (xkb_modstate xkb) k)))
      else rofi_view_handle_keypress abe_find_action textbox_append_char
             cfg st xkb
           = (cfg, append_text textbox_append_char st (xkb_utf8 xkb))
  | None =>
      rofi_view_handle_keypress abe_find_action textbox_append_char cfg st xkb
      = (cfg, append_text textbox_append_char st (xkb_utf8 xkb))
  end
  /\ (refilter (append_text textbox_append_char st (xkb_utf8 xkb))
      <> refilter st ->
      0 < utf8_len (xkb_utf8 xkb)
      /\ snd (textbox_append_char (text st) (xkb_utf8 xkb)
                (utf8_len (xkb_utf8 xkb))) = true).
Proof.
  intros Hc. split.
  - unfold rofi_view_handle_keypress, compose_key. rewrite Hc.
    change (utf8_len EmptyString =? 0) with true. cbn match.
    destruct (xkb_key xkb) as [k|]; [|reflexivity].
    destruct (fst (fst (rofi_view_trigger_action cfg st
                          (abe_find_action (xkb_modstate xkb) k)))) eqn:Hf;
      [reflexivity|].
    rewrite (trigger_action_rejected_state cfg st _ Hf). reflexivity.
  - unfold append_text.
    destruct (Z.ltb_spec 0 (utf8_len (xkb_utf8 xkb))) as [L | L].
    + destruct (snd (textbox_append_char (text st) (xkb_utf8 xkb)
                       (utf8_len (xkb_utf8 xkb)))) eqn:Ha; cbn.
      * intros _. split; [exact L | reflexivity].
      * intros N. exfalso. apply N. reflexivity.
    + intros N. exfalso. apply N. reflexivity.
Qed.

(** With a compose state that accepts the key: in the middle of a
    sequence, or when the key cancels one, the key is swallowed and the
    view stays as it is; so it is when the sequence ends with neither a
    symbol nor a text.  A sequence that ends with a text acts as a key
    press with the composed symbol and text, and a key outside any
    sequence acts as the plain key press. *)
Theorem keypress_compose cfg st (xkb : xkb_stuff)
    (feed : Z -> compose_answer) (k : Z) :
  xkb_compose xkb = Some feed -> xkb_key xkb = Some k ->
  feed_accepted (feed k) = true ->
  ((compose_status (feed k) = XKB_COMPOSE_COMPOSING
    \/ compose_status (feed k) = XKB_COMPOSE_CANCELLED
    \/ (compose_status (feed k) = XKB_COMPOSE_COMPOSED
        /\ compose_sym (feed k) = None
        /\ compose_utf8 (feed k) = EmptyString)) ->
   rofi_view_handle_keypress abe_find_action textbox_append_char cfg st xkb
   = (cfg, st))
  /\ (compose_status (feed k) = XKB_COMPOSE_COMPOSED ->
      0 < utf8_len (compose_utf8 (feed k)) ->
      rofi_view_handle_keypress abe_find_action textbox_append_char cfg st xkb
      = rofi_view_handle_keypress abe_find_action textbox_append_char cfg st
          (mkXkb (compose_sym (feed k)) (compose_utf8 (feed k))
             (xkb_modstate xkb) None))
  /\ (compose_status (feed k) = XKB_COMPOSE_NOTHING ->
      rofi_view_handle_keypress abe_find_action textbox_append_char cfg st xkb
      = rofi_view_handle_keypress abe_find_action textbox_append_char cfg st
          (mkXkb (Some k) (xkb_utf8 xkb) (xkb_modstate xkb) None)).
Proof.
  intros Hc Hk Hacc.
  unfold rofi_view_handle_keypress, compose_key.
  rewrite Hc, Hk, Hacc. cbn [xkb_compose xkb_key xkb_utf8 xkb_modstate].
  split; [|split].
  - intros [-> | [-> | (-> & -> & ->)]]; reflexivity.
  - intros -> Hlen. cbn [fst snd].
    assert (Hz : (utf8_len (compose_utf8 (feed k)) =? 0) = false)
      by (apply Z.eqb_neq; lia).
    destruct (compose_sym (feed k)) as [s|]; rewrite ?Hz; cbn match;
      rewrite ?Hz; reflexivity.
  - intros ->. cbn [fst snd]. reflexivity.
Qed.

End KeyPress.

Lemma keypress_action_or_text_witness :
  xkb_compose (mkXkb (Some 65535) "x" 1 None) = None
  /\ fst (fst (rofi_view_trigger_action config_plain
                 (rofi_view_refilter config_plain (fruit_view "zz"))
                 (demo_abe 1 65535))) = false
  /\ @rofi_view_handle_keypress demo_helper demo_abe demo_append config_plain
       (rofi_view_refilter config_plain (fruit_view "zz"))
       (mkXkb (Some 65535) "x" 1 None)
     = (config_plain,
        @append_text demo_helper demo_append
          (rofi_view_refilter config_plain (fruit_view "zz")) "x")
  /\ @textbox_get_text demo_helper
       (text (snd (@rofi_view_handle_keypress demo_helper demo_abe demo_append config_plain
                     (rofi_view_refilter config_plain (fruit_view "zz"))
                     (mkXkb (Some 65535) "x" 1 None))))
     = "zzx"%string.
Proof.
  assert (Hf : fst (fst (rofi_view_trigger_action config_plain
                           (rofi_view_refilter config_plain (fruit_view "zz"))
                           (demo_abe 1 65535))) = false)
    by (vm_compute; reflexivity).
  destruct (@keypress_action_or_text demo_helper demo_abe demo_append config_plain
              (rofi_view_refilter config_plain (fruit_view "zz"))
              (mkXkb (Some 65535) "x" 1 None) eq_refl) as (Hkey & _).
  cbn [xkb_key xkb_modstate xkb_utf8] in Hkey. rewrite Hf in Hkey.
  split; [reflexivity|]. split; [exact Hf|]. split; [exact Hkey|].
  vm_compute. reflexivity.
Defined.

Lemma keypress_compose_witness :
  xkb_compose (mkXkb (Some 65105) "" 0 (Some demo_composing))
  = Some demo_composing
  /\ feed_accepted (demo_composing 65105) = true
  /\ @rofi_view_handle_keypress demo_helper demo_abe demo_append config_plain
       (fruit_view "ap") (mkXkb (Some 65105) "" 0 (Some demo_composing))
     = (config_plain, fruit_view "ap").
Proof.
  destruct (@keypress_compose demo_helper demo_abe demo_append config_plain
              (fruit_view "ap")
              (mkXkb (Some 65105) "" 0 (Some demo_composing))
              demo_composing 65105 eq_refl eq_refl eq_refl) as (Hsw & _).
  split; [reflexivity|]. split; [reflexivity|].
  apply Hsw. left. reflexivity.
Defined.

(** ** The next position, cursor moves and the views without rows *)

Section Rows.
Context `{Helper}.
Implicit Type st : RofiViewState.

(** After a pass, with the cursor on a row that is not the last one, the
    next position is the candidate of the row below, and selecting that
    candidate moves the list view one row down. *)
Theorem next_position_then_select cfg st :
  ready st ->
  0 <= listview_get_selected (list_view (rofi_view_refilter cfg st)) ->
  listview_get_selected (list_view (rofi_view_refilter cfg st)) + 1
  < filtered_lines (rofi_view_refilter cfg st) ->
  rofi_view_get_next_position (rofi_view_refilter cfg st)
  = at_ (line_map (rofi_view_refilter cfg st))
        (listview_get_selected (list_view (rofi_view_refilter cfg st)) + 1)
  /\ In (rofi_view_get_next_position (rofi_view_refilter cfg st))
        (mapping (rofi_view_refilter cfg st))
  /\ find_selected
       (set_selected_line (rofi_view_refilter cfg st)
          (rofi_view_get_next_position (rofi_view_refilter cfg st)))
     = listview_get_selected (list_view (rofi_view_refilter cfg st)) + 1.
Proof.
  intros Hr Hsel Hnext.
  destruct (refilter_mapping_NoDup cfg st Hr) as (Hnd & Hrange & Hfl).
  pose proof (refilter_arrays_ok cfg st Hr) as (Hn & Hlen & _).
  set (st' := rofi_view_refilter cfg st) in *.
  set (sel := listview_get_selected (list_view st')) in *.
  assert (Hlen' : filtered_lines st' <= Z.of_nat (length (line_map st')))
    by lia.
  assert (Hnp : rofi_view_get_next_position st'
                = at_ (line_map st') (sel + 1)).
  { unfold rofi_view_get_next_position. cbn zeta. fold sel.
    rewrite uint_small by lia.
    destruct (Z.ltb_spec (sel + 1) (num_lines st')); [reflexivity | lia]. }
  assert (Hin : In (at_ (line_map st') (sel + 1)) (mapping st')).
  { apply list_elem_of_In. eapply list_elem_of_lookup_2.
    apply mapping_row; [lia | exact Hlen']. }
  rewrite Hnp. split; [reflexivity|]. split; [exact Hin|].
  apply find_selected_row; [exact Hnd | lia | exact Hlen' |].
  apply Hrange in Hin.
  unfold UINT32_MAX. change (2 ^ 32) with 4294967296 in Hn. lia.
Qed.

(** Clearing the input does not filter: after a pass,
    [rofi_view_clear_input] empties the entry box and selects candidate 0,
    and the rows, their number and the filter request stay as the pass left
    them.  The list view is handed the row that shows candidate 0, or the
    first row when no row shows it. *)
Theorem clear_input_keeps_rows cfg st :
  ready st ->
  selected_line (rofi_view_clear_input (rofi_view_refilter cfg st)) = 0
  /\ text (rofi_view_clear_input (rofi_view_refilter cfg st))
     = textbox_text (text (rofi_view_refilter cfg st)) EmptyString
  /\ refilter (rofi_view_clear_input (rofi_view_refilter cfg st)) = false
  /\ mapping (rofi_view_clear_input (rofi_view_refilter cfg st))
     = mapping (rofi_view_refilter cfg st)
  /\ filtered_lines (rofi_view_clear_input (rofi_view_refilter cfg st))
     = filtered_lines (rofi_view_refilter cfg st)
  /\ (forall p, 0 <= p < filtered_lines (rofi_view_refilter cfg st) ->
        at_ (line_map (rofi_view_refilter cfg st)) p = 0 ->
        list_view (rofi_view_clear_input (rofi_view_refilter cfg st))
        = listview_set_selected (list_view (rofi_view_refilter cfg st)) p)
  /\ (~ In 0 (mapping (rofi_view_refilter cfg st)) ->
      list_view (rofi_view_clear_input (rofi_view_refilter cfg st))
      = listview_set_selected (list_view (rofi_view_refilter cfg st)) 0).
Proof.
  intros Hr.
  destruct (refilter_mapping_NoDup cfg st Hr) as (Hnd & Hrange & Hfl).
  pose proof (refilter_arrays_ok cfg st Hr) as (Hn & Hlen & _).
  destruct (refilter_flags cfg st) as (Hrf & _).
  set (st' := rofi_view_refilter cfg st) in *.
  set (s := set_text st' (textbox_text (text st') EmptyString)).
  assert (Hlen' : filtered_lines s <= Z.of_nat (length (line_map s)))
    by (change (filtered_lines st' <= Z.of_nat (length (line_map st'))); lia).
  unfold rofi_view_clear_input, rofi_view_set_selected_line. cbn zeta.
  fold s.
  split; [reflexivity|]. split; [reflexivity|]. split; [exact Hrf|].
  split; [reflexivity|]. split; [reflexivity|]. split.
  - intros p Hp H0.
    assert (Hfind : find_selected (set_selected_line s (at_ (line_map s) p))
                    = p).
    { apply find_selected_row; [exact Hnd | exact Hp | exact Hlen' |].
      change (line_map s) with (line_map st'). rewrite H0.
      unfold UINT32_MAX. lia. }
    change (line_map s) with (line_map st') in Hfind. rewrite H0 in Hfind.
    rewrite Hfind. reflexivity.
  - intros Hno.
    rewrite (find_selected_absent s 0 Hlen' (or_intror Hno)). reflexivity.
Qed.

(** A move of the cursor changes the list view and nothing else. *)
Theorem navigation_moves_only_cursor cfg st a :
  In a [ROW_UP; ROW_DOWN; ROW_LEFT; ROW_RIGHT; PAGE_PREV; PAGE_NEXT;
        ROW_FIRST; ROW_LAST] ->
  rofi_view_trigger_action cfg st a
  = (true, cfg,
     set_list_view st (list_view (snd (rofi_view_trigger_action cfg st a)))).
Proof.
  intros Ha. cbn [In] in Ha.
  destruct Ha as [<- | [<- | [<- | [<- | [<- | [<- | [<- | [<- | []]]]]]]]];
    cbn [rofi_view_trigger_action snd];
    unfold rofi_view_nav_first, rofi_view_nav_last;
    try reflexivity.
  destruct (filtered_lines st =? 0); [destruct st|]; reflexivity.
Qed.

(** Auto-select needs a choice: a pass over an empty input, or over at
    most one candidate, never completes the view, whatever the
    configuration. *)
Theorem auto_select_needs_choice cfg st :
  ready st ->
  has_input st = false \/ pass_lines st <= 1 ->
  quit (rofi_view_refilter cfg st) = quit st
  /\ retv (rofi_view_refilter cfg st) = retv st
  /\ selected_line (rofi_view_refilter cfg st) = selected_line st.
Proof.
  intros Hr Hc.
  destruct (refilter_outcome cfg st) as [Hsame | (_ & Hone & Hlt & _)];
    [exact Hsame | exfalso].
  rewrite refilter_num_lines in Hlt.
  destruct Hc as [Hin | Hle]; [|lia].
  destruct (refilter_all_pass cfg st Hin Hr) as (Hfl & _). lia.
Qed.

(** On a view without rows no action reports a candidate: whatever the
    action, the outcome stays as it was or becomes one that is neither OK
    nor the deletion of an entry, and the selected candidate stays as it
    was or becomes 0 or [UINT32_MAX], the value for no candidate. *)
Theorem no_rows_no_candidate cfg st a :
  filtered_lines st = 0 ->
  0 <= listview_get_selected (list_view st) ->
  (retv (snd (rofi_view_trigger_action cfg st a)) = retv st
   \/ (disposition (retv (snd (rofi_view_trigger_action cfg st a))) <> MENU_OK
       /\ disposition (retv (snd (rofi_view_trigger_action cfg st a)))
          <> MENU_ENTRY_DELETE))
  /\ (selected_line (snd (rofi_view_trigger_action cfg st a))
      = selected_line st
      \/ selected_line (snd (rofi_view_trigger_action cfg st a)) = 0
      \/ selected_line (snd (rofi_view_trigger_action cfg st a))
         = UINT32_MAX).
Proof.
  intros Hf Hsel.
  assert (Hlt : (listview_get_selected (list_view st) <? filtered_lines st)
                = false) by (apply Z.ltb_ge; lia).
  destruct a; cbn [rofi_view_trigger_action snd select_element_index default];
    unfold rofi_view_nav_row_tab, rofi_view_nav_row_select,
      rofi_view_nav_first, rofi_view_nav_last, accept_selected;
    cbn [filtered_lines set_selected_line list_view];
    rewrite ?Hlt, ?Hf; cbn [Z.eqb Z.ltb Z.compare andb];
    repeat match goal with
           | |- context [if ?c then _ else _] => destruct c eqn:?
           end; cbn;
    try match goal with
        | E : (_ <? 0) = true |- _ => cbn in E; discriminate E
        end;
    (split; [first [ left; reflexivity
                   | right; split; discriminate ]
            | first [ left; reflexivity
                    | right; left; reflexivity
                    | right; right; reflexivity ] ]).
Qed.

End Rows.

Lemma next_position_then_select_witness :
  ready (fruit_view "ap")
  /\ listview_get_selected
       (list_view (rofi_view_refilter config_plain (fruit_view "ap"))) = 0
  /\ rofi_view_get_next_position
       (rofi_view_refilter config_plain (fruit_view "ap")) = 2
  /\ find_selected
       (set_selected_line (rofi_view_refilter config_plain (fruit_view "ap"))
          (rofi_view_get_next_position
             (rofi_view_refilter config_plain (fruit_view "ap"))))
     = listview_get_selected
         (list_view (rofi_view_refilter config_plain (fruit_view "ap"))) + 1.
Proof.
  assert (H0 : 0 <= listview_get_selected
                      (list_view (rofi_view_refilter config_plain
                                    (fruit_view "ap"))))
    by (apply Z.leb_le; vm_compute; reflexivity).
  assert (H1 : listview_get_selected
                 (list_view (rofi_view_refilter config_plain
                               (fruit_view "ap"))) + 1
               < filtered_lines
                   (rofi_view_refilter config_plain (fruit_view "ap")))
    by (apply Z.ltb_lt; vm_compute; reflexivity).
  destruct (next_position_then_select config_plain (fruit_view "ap")
              (fruit_view_ready "ap") H0 H1) as (_ & _ & Hfind).
  split; [apply fruit_view_ready|]. split; [vm_compute; reflexivity|].
  split; [vm_compute; reflexivity | exact Hfind].
Defined.

Lemma navigation_moves_only_cursor_witness :
  In ROW_DOWN [ROW_UP; ROW_DOWN; ROW_LEFT; ROW_RIGHT; PAGE_PREV; PAGE_NEXT;
               ROW_FIRST; ROW_LAST]
  /\ listview_get_selected
       (list_view
          (snd (rofi_view_trigger_action config_plain
                  (rofi_view_refilter config_plain (fruit_view "ap"))
                  ROW_DOWN))) = 1
  /\ rofi_view_trigger_action config_plain
       (rofi_view_refilter config_plain (fruit_view "ap")) ROW_DOWN
     = (true, config_plain,
        set_list_view (rofi_view_refilter config_plain (fruit_view "ap"))
          (list_view
             (snd (rofi_view_trigger_action config_plain
                     (rofi_view_refilter config_plain (fruit_view "ap"))
                     ROW_DOWN)))).
Proof.
  assert (Ha : In ROW_DOWN [ROW_UP; ROW_DOWN; ROW_LEFT; ROW_RIGHT; PAGE_PREV;
                            PAGE_NEXT; ROW_FIRST; ROW_LAST])
    by (right; left; reflexivity).
  split; [exact Ha|]. split; [vm_compute; reflexivity|].
  apply (navigation_moves_only_cursor config_plain _ ROW_DOWN Ha).
Defined.

Lemma auto_select_needs_choice_witness :
  ready (fruit_view "")
  /\ has_input (fruit_view "") = false
  /\ auto_select config_auto = true
  /\ quit (rofi_view_refilter config_auto (fruit_view ""))
     = quit (fruit_view "").
Proof.
  destruct (auto_select_needs_choice config_auto (fruit_view "")
              (fruit_view_ready "") (or_introl eq_refl)) as (Hq & _).
  split; [apply fruit_view_ready|]. split; [reflexivity|].
  split; [reflexivity | exact Hq].
Defined.

Lemma no_rows_no_candidate_witness :
  filtered_lines (rofi_view_refilter config_plain (fruit_view "zz")) = 0
  /\ 0 <= listview_get_selected
            (list_view (rofi_view_refilter config_plain (fruit_view "zz")))
  /\ retv (snd (rofi_view_trigger_action config_plain
                  (rofi_view_refilter config_plain (fruit_view "zz"))
                  ACCEPT_ENTRY)) = plain MENU_CUSTOM_INPUT
  /\ (selected_line
        (snd (rofi_view_trigger_action config_plain
                (rofi_view_refilter config_plain (fruit_view "zz"))
                ACCEPT_ENTRY))
      = selected_line (rofi_view_refilter config_plain (fruit_view "zz"))
      \/ selected_line
           (snd (rofi_view_trigger_action config_plain
                   (rofi_view_refilter config_plain (fruit_view "zz"))
                   ACCEPT_ENTRY)) = 0
      \/ selected_line
           (snd (rofi_view_trigger_action config_plain
                   (rofi_view_refilter config_plain (fruit_view "zz"))
                   ACCEPT_ENTRY)) = UINT32_MAX).
Proof.
  assert (Hf : filtered_lines
                 (rofi_view_refilter config_plain (fruit_view "zz")) = 0)
    by (vm_compute; reflexivity).
  assert (Hs : 0 <= listview_get_selected
                      (list_view (rofi_view_refilter config_plain
                                    (fruit_view "zz"))))
    by (apply Z.leb_le; vm_compute; reflexivity).
  destruct (no_rows_no_candidate config_plain _ ACCEPT_ENTRY Hf Hs)
    as (_ & Hsel).
  split; [exact Hf|]. split; [exact Hs|].
  split; [vm_compute; reflexivity | exact Hsel].
Defined.

Lemma clear_input_keeps_rows_witness :
  ready (fruit_view "ap")
  /\ mapping (rofi_view_refilter config_plain (fruit_view "ap")) = [0; 2; 3]
  /\ @textbox_get_text demo_helper
       (text (rofi_view_clear_input
                (rofi_view_refilter config_plain (fruit_view "ap"))))
     = EmptyString
  /\ mapping (rofi_view_clear_input
                (rofi_view_refilter config_plain (fruit_view "ap")))
     = mapping (rofi_view_refilter config_plain (fruit_view "ap")).
Proof.
  destruct (clear_input_keeps_rows config_plain (fruit_view "ap")
              (fruit_view_ready "ap")) as (_ & _ & _ & Hm & _).
  split; [apply fruit_view_ready|]. split; [vm_compute; reflexivity|].
  split; [vm_compute; reflexivity | exact Hm].
Defined.

(** ** The sorted pass *)

Section SortedPass.
Context `{Helper}.
Implicit Type st : RofiViewState.



End SortedPass.


(** [C1] has the filtered mapping of a pass with sorting disabled hold
    exactly the matching candidates of [0 .. N-1], for every [N].  On a
    view over [UINT32_MAX] candidates that all match, the sum
    [num_lines + nt] wraps, [steps] is 0, every chunk is empty and the pass
    keeps nothing: [filtered_lines] is 0 and the mapping is not the list of
    the matching candidates.  The pass over an empty input, on the same
    candidates, keeps all of them. *)
Lemma filter_pass_wraps :
  sort config_plain = false
  /\ has_input huge_view = true
  /\ num_lines (rofi_view_refilter config_plain huge_view) = UINT32_MAX
  /\ matching (rofi_view_refilter config_plain huge_view) 0 = true
  /\ filtered_lines (rofi_view_refilter config_plain huge_view) = 0
  /\ mapping (rofi_view_refilter config_plain huge_view)
     <> List.filter (matching (rofi_view_refilter config_plain huge_view))
          (seqZ 0 (num_lines (rofi_view_refilter config_plain huge_view)))
  /\ has_input (set_text huge_view EmptyString) = false
  /\ filtered_lines
       (rofi_view_refilter config_plain (set_text huge_view EmptyString))
     = UINT32_MAX.
Proof.
  assert (Hin : has_input huge_view = true) by reflexivity.
  assert (Hr : ready huge_view) by (left; reflexivity).
  assert (Hw : 2 ^ 32 <= pass_lines huge_view + nt_of (pass_lines huge_view))
    by (vm_compute; discriminate).
  destruct (refilter_wrapped config_plain huge_view Hin Hr Hw) as (Hfl & Hmap).
  assert (Hn : num_lines (rofi_view_refilter config_plain huge_view)
               = UINT32_MAX)
    by (rewrite refilter_num_lines; reflexivity).
  assert (Hm : matching (rofi_view_refilter config_plain huge_view) 0 = true)
    by (unfold matching; rewrite refilter_sw; reflexivity).
  split; [reflexivity|]. split; [exact Hin|]. split; [exact Hn|].
  destruct (refilter_all_pass config_plain (set_text huge_view EmptyString)
              eq_refl (or_introl eq_refl)) as (Hall & _).
  split; [exact Hm|]. split; [exact Hfl|]. split.
  - rewrite Hmap, Hn. rewrite seqZ_cons by (unfold UINT32_MAX; lia).
    rewrite filter_cons_eq, Hm. apply nil_cons.
  - split; [reflexivity|]. rewrite Hall. reflexivity.
Qed.
